(** * AgentiCorp: loop detector, response cache, lesson retrieval, hash
      embedder and streaming reader.

    A shallow embedding of the Go sources
      - internal/dispatch/loop_detector.go
      - internal/dispatch/lessons_provider.go
      - internal/cache/redis.go
      - internal/memory (embedder: hashEmbed, normalize, Encode/DecodeEmbedding)
      - internal/provider/streaming.go
    and the properties of them claimed by the specification. *)

From Stdlib Require Import ZArith QArith List String Ascii Lia Bool Reals Lra.
From stdpp Require Import base option list strings gmap pretty.

Local Open Scope Z_scope.
Local Set Warnings "-register-all".

(* ===================================================================== *)
(** ** Go runtime pieces used by the sources *)
(* ===================================================================== *)

Module Go.

(** [[]byte(s)]: the bytes of a Go string, as integers in [0, 256). *)
Definition bytes_of_string (s : string) : list Z :=
  map (fun c => Z.of_nat (nat_of_ascii c)) (list_ascii_of_string s).

(** A two's-complement [w]-bit signed integer result, wrap-around written out. *)
Definition wrap_signed (w : Z) (x : Z) : Z :=
  (x + 2 ^ (w - 1)) mod 2 ^ w - 2 ^ (w - 1).

(** Go's [int] on the 64-bit targets the service is built for. *)
Definition int_wrap (x : Z) : Z := wrap_signed 64 x.
Definition int_add (a b : Z) : Z := int_wrap (a + b).
Definition int_mul (a b : Z) : Z := int_wrap (a * b).
Definition MaxInt : Z := 2 ^ 63 - 1.

(** [uint32] arithmetic. *)
Definition u32 (x : Z) : Z := x mod 2 ^ 32.

(** [fmt.Sprintf("%d", n)]. *)
Definition fmt_d (n : Z) : string := pretty n.

(** [encoding/hex.EncodeToString]. *)
Definition hex_digit (d : Z) : ascii :=
  if d <? 10 then ascii_of_nat (Z.to_nat (48 + d))
  else ascii_of_nat (Z.to_nat (87 + d)).

Fixpoint hex_EncodeToString (bs : list Z) : string :=
  match bs with
  | [] => EmptyString
  | b :: rest =>
      String (hex_digit (b / 16)) (String (hex_digit (b mod 16)) (hex_EncodeToString rest))
  end.

(** [time.Time] is the number of nanoseconds since Go's zero time
    (January 1, year 1, 00:00 UTC); [IsZero] holds exactly for that instant.
    [time.Duration] is an [int64] count of nanoseconds; [Sub] saturates. *)
Definition Time := Z.
Definition Duration := Z.
Definition Time_IsZero (t : Time) : bool := t =? 0.
Definition minDuration : Duration := - 2 ^ 63.
Definition maxDuration : Duration := 2 ^ 63 - 1.
Definition Time_Sub (t u : Time) : Duration :=
  let d := t - u in
  if d <? minDuration then minDuration
  else if maxDuration <? d then maxDuration
  else d.
(** [time.Since(t)] with the wall clock reading passed in. *)
Definition time_Since (now t : Time) : Duration := Time_Sub now t.
Definition Second : Duration := 1000000000.
Definition Minute : Duration := 60 * Second.

(** The dynamic values ([interface{}]) found in action data and cache
    metadata: what callers put there and what [encoding/json] produces.
    Numbers are the integral ones, which [%v] prints in decimal. *)
Inductive value :=
| VNil
| VBool (b : bool)
| VInt (n : Z)
| VString (s : string)
| VList (l : list value)
| VMap (m : list (string * value)).

(** A Go result pair [(x, err)]: the value, or the error's message. *)
Inductive result (A : Type) :=
| Ok (x : A)
| Err (e : string).
Arguments Ok {A} x.
Arguments Err {A} e.

Definition nl : string := String (ascii_of_nat 10) EmptyString.

End Go.

(* ===================================================================== *)
(** ** crypto/sha256 *)
(* ===================================================================== *)

Module SHA256.
Import Go.

(** The first 64 primes. *)
Definition is_prime (n : Z) : bool :=
  forallb (fun d => negb (n mod Z.of_nat d =? 0) || (n <=? Z.of_nat d))
          (List.seq 2 (Z.to_nat (Z.sqrt n))).

Definition primes : list Z :=
  List.filter is_prime (map Z.of_nat (List.seq 2 310)).

(** The integer cube root of a number below 2^108, bit by bit. *)
Definition cube_root (n : Z) : Z :=
  fold_left (fun r b => let r' := r + 2 ^ Z.of_nat b in if r' * r' * r' <=? n then r' else r)
            (rev (List.seq 0 36)) 0.

(** The round constants: the first 32 bits of the fractional parts of the
    cube roots of the first 64 primes. *)
Definition K : list Z :=
  Eval vm_compute in map (fun p => u32 (cube_root (p * 2 ^ 96))) primes.

(** The initial hash value: the first 32 bits of the fractional parts of
    the square roots of the first 8 primes. *)
Definition H0 : list Z :=
  Eval vm_compute in map (fun p => u32 (Z.sqrt (p * 2 ^ 64))) (firstn 8 primes).

Definition rotr (n x : Z) : Z := Z.lor (Z.shiftr x n) (u32 (Z.shiftl x (32 - n))).
Definition Ch (x y z : Z) : Z := Z.lxor (Z.land x y) (Z.land (Z.lxor x 0xffffffff) z).
Definition Maj (x y z : Z) : Z := Z.lxor (Z.lxor (Z.land x y) (Z.land x z)) (Z.land y z).
Definition Sigma0 (x : Z) : Z := Z.lxor (Z.lxor (rotr 2 x) (rotr 13 x)) (rotr 22 x).
Definition Sigma1 (x : Z) : Z := Z.lxor (Z.lxor (rotr 6 x) (rotr 11 x)) (rotr 25 x).
Definition sigma0 (x : Z) : Z := Z.lxor (Z.lxor (rotr 7 x) (rotr 18 x)) (Z.shiftr x 3).
Definition sigma1 (x : Z) : Z := Z.lxor (Z.lxor (rotr 17 x) (rotr 19 x)) (Z.shiftr x 10).

(** Big-endian words of a byte sequence whose length is a multiple of 4. *)
Fixpoint be_words (bs : list Z) : list Z :=
  match bs with
  | b0 :: b1 :: b2 :: b3 :: rest =>
      (b0 * 2 ^ 24 + b1 * 2 ^ 16 + b2 * 2 ^ 8 + b3) :: be_words rest
  | _ => []
  end.

Definition be_bytes (n : nat) (x : Z) : list Z :=
  map (fun i => (x / 2 ^ (8 * Z.of_nat i)) mod 256) (rev (seq 0 n)).

(** Message padding: 0x80, zeros up to 56 mod 64, then the bit length. *)
Definition pad (msg : list Z) : list Z :=
  let len := Z.of_nat (length msg) in
  let zeros := Z.to_nat ((55 - len) mod 64) in
  msg ++ [0x80] ++ repeat 0 zeros ++ be_bytes 8 (8 * len).

(** The message schedule, extended from 16 to 64 words. *)
Fixpoint schedule (n : nat) (w : list Z) : list Z :=
  match n with
  | O => w
  | S n' =>
      let t := length w in
      let g i := nth (t - i) w 0 in
      schedule n' (w ++ [u32 (sigma1 (g 2%nat) + g 7%nat + sigma0 (g 15%nat) + g 16%nat)])
  end.

Record regs := Regs { ra : Z; rb : Z; rc : Z; rd : Z; re : Z; rf : Z; rg : Z; rh : Z }.

Definition round (s : regs) (kw : Z * Z) : regs :=
  let t1 := rh s + Sigma1 (re s) + Ch (re s) (rf s) (rg s) + fst kw + snd kw in
  let t2 := Sigma0 (ra s) + Maj (ra s) (rb s) (rc s) in
  Regs (u32 (t1 + t2)) (ra s) (rb s) (rc s) (u32 (rd s + t1)) (re s) (rf s) (rg s).

Definition regs_of (h : list Z) : regs :=
  let g i := nth i h 0 in
  Regs (g 0%nat) (g 1%nat) (g 2%nat) (g 3%nat) (g 4%nat) (g 5%nat) (g 6%nat) (g 7%nat).

Definition compress (h : list Z) (block : list Z) : list Z :=
  let w := schedule 48 (be_words block) in
  let s0 := regs_of h in
  let s := fold_left round (combine K w) s0 in
  [ u32 (ra s0 + ra s); u32 (rb s0 + rb s); u32 (rc s0 + rc s); u32 (rd s0 + rd s);
    u32 (re s0 + re s); u32 (rf s0 + rf s); u32 (rg s0 + rg s); u32 (rh s0 + rh s) ].

Fixpoint blocks (n : nat) (bs : list Z) : list (list Z) :=
  match n with
  | O => []
  | S n' => firstn 64 bs :: blocks n' (skipn 64 bs)
  end.

(** [sha256.Sum256]: the 32 digest bytes. *)
Definition Sum256 (msg : list Z) : list Z :=
  let p := pad msg in
  let h := fold_left compress (blocks (length p / 64) p) H0 in
  flat_map (be_bytes 4) h.

End SHA256.


(* ===================================================================== *)
(** ** internal/dispatch/loop_detector.go *)
(* ===================================================================== *)

Module LoopDetector.
Import Go.

Local Open Scope string_scope.
Local Open Scope Z_scope.
Local Open Scope list_scope.

(** *** Data *)

Record ActionRecord := mkAction {
  Timestamp : Time;
  AgentID : string;
  ActionType : string;
  ActionData : gmap string value;
  ResultHash : string;
  ProgressKey : string;
}.

Record ProgressMetrics := mkMetrics {
  FilesRead : Z;
  FilesModified : Z;
  TestsRun : Z;
  CommandsExecuted : Z;
  LastProgress : Time;
}.

(** The zero value of the struct ([var metrics ProgressMetrics]). *)
Definition zeroMetrics : ProgressMetrics := mkMetrics 0 0 0 0 0.

Record LoopDetector := mkDetector { repeatThreshold : Z }.

(** [models.Bead], reduced to the fields the detector touches.  [Context] is
    a Go map and may be nil. *)
Record Bead := mkBead {
  ID : string;
  Context : option (gmap string string);
}.

(** [encoding/json] at the two types the detector stores.  [unmarshal_metrics]
    returns the struct as [json.Unmarshal] leaves it (starting from the zero
    value) together with the error, because [updateProgressMetrics] ignores
    the error and goes on with the struct. *)
Class Json := {
  marshal_history : list ActionRecord -> result string;
  unmarshal_history : string -> result (list ActionRecord);
  marshal_metrics : ProgressMetrics -> result string;
  unmarshal_metrics : string -> ProgressMetrics * option string;
}.

(** Go leaves the order of [for ... range m] over a map unspecified.  A
    [range] function lists the entries of the map in the order one execution
    visits them. *)
Definition RangeOrder (range : gmap string Z -> list (string * Z)) : Prop :=
  forall m, range m ≡ₚ map_to_list m.

(** *** fmt's [%v] *)

Fixpoint insert_sorted {A} (kv : string * A) (l : list (string * A)) : list (string * A) :=
  match l with
  | [] => [kv]
  | kv' :: rest =>
      if String.leb (fst kv) (fst kv') then kv :: l else kv' :: insert_sorted kv rest
  end.

(** Map entries are printed sorted by key, [k:v] separated by spaces. *)
Definition fmt_entries (l : list (string * string)) : string :=
  String.concat " " (map (fun kv => fst kv +:+ ":" +:+ snd kv) (foldr insert_sorted [] l)).

Fixpoint fmt_v (v : value) : string :=
  match v with
  | VNil => "<nil>"
  | VBool b => if b then "true" else "false"
  | VInt n => fmt_d n
  | VString s => s
  | VList l => "[" +:+ String.concat " " (map fmt_v l) +:+ "]"
  | VMap m => "map[" +:+ fmt_entries (map (fun kv => (fst kv, fmt_v (snd kv))) m) +:+ "]"
  end.

(** [%v] of a [map[string]interface{}]. *)
Definition fmt_v_data (d : gmap string value) : string :=
  "map[" +:+ fmt_entries (map (fun kv => (fst kv, fmt_v (snd kv))) (map_to_list d)) +:+ "]".

(** *** The detector *)

Definition NewLoopDetector : LoopDetector := mkDetector 3.

Definition SetRepeatThreshold (ld : LoopDetector) (threshold : Z) : LoopDetector :=
  let threshold := if threshold <? 2 then 2 else threshold in
  mkDetector threshold.

(** The string that is hashed: [keyData] at the end of the three
    assignments. *)
Definition progressKeyData (action : ActionRecord) : string :=
  let keyData := ActionType action +:+ ":" +:+ fmt_v_data (ActionData action) in
  let keyData :=
    match ActionData action !! "file_path" with
    | Some (VString filePath) => ActionType action +:+ ":" +:+ filePath
    | _ => keyData
    end in
  let keyData :=
    match ActionData action !! "command" with
    | Some (VString command) => ActionType action +:+ ":" +:+ command
    | _ => keyData
    end in
  keyData.

Definition generateProgressKey (action : ActionRecord) : string :=
  let hash := SHA256.Sum256 (bytes_of_string (progressKeyData action)) in
  hex_EncodeToString (take 8 hash).

Definition with_key (action : ActionRecord) (k : string) : ActionRecord :=
  mkAction (Timestamp action) (AgentID action) (ActionType action)
           (ActionData action) (ResultHash action) k.

Definition ctx_get (ctx : gmap string string) (k : string) : string :=
  default "" (ctx !! k).

Section Detector.
Context {J : Json}.

Definition getActionHistory (bead : Bead) : result (list ActionRecord) :=
  match Context bead with
  | None => Ok []
  | Some ctx =>
      let historyJSON := ctx_get ctx "action_history" in
      if String.eqb historyJSON "" then Ok []
      else unmarshal_history historyJSON
  end.

Definition hasRecentProgress (bead : Bead) (now : Time) : bool :=
  match Context bead with
  | None => false
  | Some ctx =>
      let metricsJSON := ctx_get ctx "progress_metrics" in
      if String.eqb metricsJSON "" then false
      else
        match unmarshal_metrics metricsJSON with
        | (_, Some _) => false
        | (metrics, None) =>
            if Time_IsZero (LastProgress metrics) then false
            else time_Since now (LastProgress metrics) <? 5 * Minute
        end
  end.

(** The [switch] on the action type, with [time.Now()] passed in. *)
Definition bumpMetrics (metrics : ProgressMetrics) (actionType : string) (now : Time)
  : ProgressMetrics :=
  let '(metrics, progressMade) :=
    if existsb (String.eqb actionType) ["read_file"; "glob"; "grep"] then
      (mkMetrics (int_add (FilesRead metrics) 1) (FilesModified metrics)
                 (TestsRun metrics) (CommandsExecuted metrics) (LastProgress metrics), true)
    else if existsb (String.eqb actionType) ["edit_file"; "write_file"] then
      (mkMetrics (FilesRead metrics) (int_add (FilesModified metrics) 1)
                 (TestsRun metrics) (CommandsExecuted metrics) (LastProgress metrics), true)
    else if existsb (String.eqb actionType) ["run_tests"; "test"] then
      (mkMetrics (FilesRead metrics) (FilesModified metrics)
                 (int_add (TestsRun metrics) 1) (CommandsExecuted metrics) (LastProgress metrics), true)
    else if existsb (String.eqb actionType) ["bash"; "execute"] then
      (mkMetrics (FilesRead metrics) (FilesModified metrics)
                 (TestsRun metrics) (int_add (CommandsExecuted metrics) 1) (LastProgress metrics), true)
    else (metrics, false) in
  if progressMade : bool then
    mkMetrics (FilesRead metrics) (FilesModified metrics) (TestsRun metrics)
              (CommandsExecuted metrics) now
  else metrics.

(** The metrics [updateProgressMetrics] starts from. *)
Definition loadMetrics (ctx : gmap string string) : ProgressMetrics :=
  let metricsJSON := ctx_get ctx "progress_metrics" in
  if String.eqb metricsJSON "" then zeroMetrics
  else fst (unmarshal_metrics metricsJSON).

Definition updateProgressMetrics (bead : Bead) (action : ActionRecord) (now : Time) : Bead :=
  let ctx := default ∅ (Context bead) in
  let metrics := loadMetrics ctx in
  let metrics := bumpMetrics metrics (ActionType action) now in
  match marshal_metrics metrics with
  | Ok metricsJSON => mkBead (ID bead) (Some (<["progress_metrics" := metricsJSON]> ctx))
  | Err _ => mkBead (ID bead) (Some ctx)
  end.

(** [RecordAction] returns the bead as the call leaves it and the error
    ([None] is Go's nil).  The log line on a parse failure is not modelled. *)
Definition RecordAction (ld : LoopDetector) (bead : Bead) (action : ActionRecord) (now : Time)
  : Bead * option string :=
  let ctx := default ∅ (Context bead) in
  let bead := mkBead (ID bead) (Some ctx) in
  let action := with_key action (generateProgressKey action) in
  let history :=
    match getActionHistory bead with
    | Ok history => history
    | Err _ => []
    end in
  let history := history ++ [action] in
  let history :=
    if (50 <? length history)%nat then drop (length history - 50) history else history in
  match marshal_history history with
  | Err e => (bead, Some ("failed to marshal action history: " +:+ e))
  | Ok historyJSON =>
      let bead := mkBead (ID bead) (Some (<["action_history" := historyJSON]> ctx)) in
      (updateProgressMetrics bead action now, None)
  end.

(** One iteration of the counting loop; the state is
    [(patternCounts, lastKey, consecutiveCount)]. *)
Definition countStep (th : Z) (st : gmap string Z * string * Z) (action : ActionRecord)
  : gmap string Z * string * Z :=
  let '(patternCounts, lastKey, consecutiveCount) := st in
  if String.eqb (ProgressKey action) lastKey then
    (patternCounts, lastKey, consecutiveCount + 1)
  else
    let patternCounts :=
      if th <=? consecutiveCount then <[lastKey := consecutiveCount]> patternCounts
      else patternCounts in
    (patternCounts, ProgressKey action, 1).

(** The map [patternCounts] after the loop and the check of the last
    sequence. *)
Definition patternCounts (th : Z) (recent : list ActionRecord) : gmap string Z :=
  let '(patternCounts, lastKey, consecutiveCount) :=
    fold_left (countStep th) recent (∅, "", 0) in
  if th <=? consecutiveCount then <[lastKey := consecutiveCount]> patternCounts
  else patternCounts.

(** One iteration of the selection loop; the state is
    [(maxPattern, maxCount)]. *)
Definition maxStep (st : string * Z) (e : string * Z) : string * Z :=
  let '(maxPattern, maxCount) := st in
  let '(pattern, count) := e in
  if maxCount <? count then (pattern, count) else (maxPattern, maxCount).

Definition recentWindow (history : list ActionRecord) : list ActionRecord :=
  if (15 <? length history)%nat then drop (length history - 15) history else history.

Definition findRepeatedPattern (range : gmap string Z -> list (string * Z))
    (ld : LoopDetector) (history : list ActionRecord) : string * Z :=
  if Z.of_nat (length history) <? repeatThreshold ld then ("", 0)
  else
    let recent := recentWindow history in
    fold_left maxStep (range (patternCounts (repeatThreshold ld) recent)) ("", 0).

Definition IsStuckInLoop (range : gmap string Z -> list (string * Z))
    (ld : LoopDetector) (bead : Bead) (now : Time) : bool * string :=
  match getActionHistory bead with
  | Err _ => (false, "")
  | Ok history =>
      if Z.of_nat (length history) <? int_mul (repeatThreshold ld) 2 then (false, "")
      else if hasRecentProgress bead now then (false, "")
      else
        let '(pattern, count) := findRepeatedPattern range ld history in
        if repeatThreshold ld <=? count then
          (true, "Repeated action pattern " +:+ fmt_d count
                 +:+ " times without progress: " +:+ pattern)
        else (false, "")
  end.

Definition ResetProgress (bead : Bead) : Bead :=
  match Context bead with
  | None => bead
  | Some ctx =>
      mkBead (ID bead) (Some (delete "progress_metrics" (delete "action_history" ctx)))
  end.

End Detector.

End LoopDetector.

(* ===================================================================== *)
(** ** A JSON text codec for the detector's two stored values

    The detector is stated for any [Json] codec.  This instance prints and
    parses JSON text for the value grammar above (objects, arrays, strings
    with backslash escapes for the quote and the backslash, integers,
    booleans, null), so that the functions can be run on concrete beads.
    Timestamps are written as integer nanosecond counts. *)
(* ===================================================================== *)

Module JsonText.
Import Go LoopDetector.

Local Open Scope string_scope.
Local Open Scope Z_scope.
Local Open Scope list_scope.

Definition dquote : ascii := ascii_of_nat 34.
Definition backslash : ascii := ascii_of_nat 92.

Fixpoint escape (s : string) : string :=
  match s with
  | EmptyString => EmptyString
  | String c r =>
      if Ascii.eqb c dquote || Ascii.eqb c backslash
      then String backslash (String c (escape r))
      else String c (escape r)
  end.

Definition quote (s : string) : string :=
  String dquote (escape s +:+ String dquote EmptyString).

Fixpoint print_value (v : value) : string :=
  match v with
  | VNil => "null"
  | VBool b => if b then "true" else "false"
  | VInt n => pretty n
  | VString s => quote s
  | VList l => "[" +:+ String.concat "," (map print_value l) +:+ "]"
  | VMap m =>
      "{" +:+ String.concat ","
                (map (fun kv => quote (fst kv) +:+ ":" +:+ print_value (snd kv)) m)
          +:+ "}"
  end.

Definition is_ws (c : ascii) : bool :=
  let n := nat_of_ascii c in
  orb (Nat.eqb n 32) (orb (Nat.eqb n 9) (orb (Nat.eqb n 10) (Nat.eqb n 13))).

Fixpoint skip_ws (s : string) : string :=
  match s with
  | String c r => if is_ws c then skip_ws r else s
  | EmptyString => s
  end.

Fixpoint strip_prefix (p s : string) : option string :=
  match p, s with
  | EmptyString, _ => Some s
  | String a p', String b s' => if Ascii.eqb a b then strip_prefix p' s' else None
  | _, _ => None
  end.

(** The characters of a string literal after its opening quote. *)
Fixpoint parse_string_body (s : string) : option (string * string) :=
  match s with
  | EmptyString => None
  | String c r =>
      if Ascii.eqb c dquote then Some (EmptyString, r)
      else if Ascii.eqb c backslash then
        match r with
        | String c' r' =>
            if Ascii.eqb c' dquote || Ascii.eqb c' backslash then
              match parse_string_body r' with
              | Some (body, rest) => Some (String c' body, rest)
              | None => None
              end
            else None
        | EmptyString => None
        end
      else
        match parse_string_body r with
        | Some (body, rest) => Some (String c body, rest)
        | None => None
        end
  end.

Definition digit_of (c : ascii) : option Z :=
  let n := Z.of_nat (nat_of_ascii c) in
  if (48 <=? n) && (n <=? 57) then Some (n - 48) else None.

Fixpoint parse_digits (s : string) (acc : Z) : Z * string :=
  match s with
  | String c r =>
      match digit_of c with
      | Some d => parse_digits r (10 * acc + d)
      | None => (acc, s)
      end
  | EmptyString => (acc, s)
  end.

Definition parse_nat (s : string) : option (Z * string) :=
  match s with
  | String c _ =>
      match digit_of c with
      | Some _ => Some (parse_digits s 0)
      | None => None
      end
  | EmptyString => None
  end.

Fixpoint parse_value (fuel : nat) (s : string) : option (value * string) :=
  match fuel with
  | O => None
  | S fuel =>
      match skip_ws s with
      | EmptyString => None
      | String c r as s' =>
          if Ascii.eqb c "n" then
            r' ← strip_prefix "ull" r; Some (VNil, r')
          else if Ascii.eqb c "t" then
            r' ← strip_prefix "rue" r; Some (VBool true, r')
          else if Ascii.eqb c "f" then
            r' ← strip_prefix "alse" r; Some (VBool false, r')
          else if Ascii.eqb c dquote then
            '(str, r') ← parse_string_body r; Some (VString str, r')
          else if Ascii.eqb c "-" then
            '(n, r') ← parse_nat r; Some (VInt (- n), r')
          else if Ascii.eqb c "[" then
            match skip_ws r with
            | String "]" r' => Some (VList [], r')
            | _ => '(l, r') ← parse_elems fuel r; Some (VList l, r')
            end
          else if Ascii.eqb c "{" then
            match skip_ws r with
            | String "}" r' => Some (VMap [], r')
            | _ => '(m, r') ← parse_members fuel r; Some (VMap m, r')
            end
          else
            '(n, r') ← parse_nat s'; Some (VInt n, r')
      end
  end
with parse_elems (fuel : nat) (s : string) : option (list value * string) :=
  match fuel with
  | O => None
  | S fuel =>
      '(v, r) ← parse_value fuel s;
      match skip_ws r with
      | String "," r' => '(l, r'') ← parse_elems fuel r'; Some (v :: l, r'')
      | String "]" r' => Some ([v], r')
      | _ => None
      end
  end
with parse_members (fuel : nat) (s : string) : option (list (string * value) * string) :=
  match fuel with
  | O => None
  | S fuel =>
      match skip_ws s with
      | String c r =>
          if Ascii.eqb c dquote then
            '(k, r1) ← parse_string_body r;
            match skip_ws r1 with
            | String ":" r2 =>
                '(v, r3) ← parse_value fuel r2;
                match skip_ws r3 with
                | String "," r4 => '(m, r5) ← parse_members fuel r4; Some ((k, v) :: m, r5)
                | String "}" r4 => Some ([(k, v)], r4)
                | _ => None
                end
            | _ => None
            end
          else None
      | EmptyString => None
      end
  end.

(** A whole document: one value and nothing but white space after it. *)
Definition parse (s : string) : option value :=
  '(v, r) ← parse_value (2 * String.length s + 2) s;
  match skip_ws r with
  | EmptyString => Some v
  | _ => None
  end.

Fixpoint field (m : list (string * value)) (k : string) : option value :=
  match m with
  | [] => None
  | (k', v) :: rest => if String.eqb k k' then Some v else field rest k
  end.

(** Absent and null fields keep the zero value; a value of another type is an
    error. *)
Definition string_field (m : list (string * value)) (k : string) : option string :=
  match field m k with
  | None | Some VNil => Some ""
  | Some (VString s) => Some s
  | Some _ => None
  end.

Definition int_field (m : list (string * value)) (k : string) : option Z :=
  match field m k with
  | None | Some VNil => Some 0
  | Some (VInt n) => Some n
  | Some _ => None
  end.

Definition data_field (m : list (string * value)) (k : string) : option (gmap string value) :=
  match field m k with
  | None | Some VNil => Some ∅
  | Some (VMap d) => Some (list_to_map d)
  | Some _ => None
  end.

Definition action_to_value (a : ActionRecord) : value :=
  VMap [ ("timestamp", VInt (Timestamp a));
         ("agent_id", VString (AgentID a));
         ("action_type", VString (ActionType a));
         ("action_data", VMap (foldr insert_sorted [] (map_to_list (ActionData a))));
         ("result_hash", VString (ResultHash a));
         ("progress_key", VString (ProgressKey a)) ].

Definition action_of_value (v : value) : option ActionRecord :=
  match v with
  | VMap m =>
      ts ← int_field m "timestamp";
      agent ← string_field m "agent_id";
      ty ← string_field m "action_type";
      data ← data_field m "action_data";
      rh ← string_field m "result_hash";
      pk ← string_field m "progress_key";
      Some (mkAction ts agent ty data rh pk)
  | _ => None
  end.

Definition metrics_to_value (m : ProgressMetrics) : value :=
  VMap [ ("files_read", VInt (FilesRead m));
         ("files_modified", VInt (FilesModified m));
         ("tests_run", VInt (TestsRun m));
         ("commands_executed", VInt (CommandsExecuted m));
         ("last_progress", VInt (LastProgress m)) ].

Definition text_marshal_history (h : list ActionRecord) : result string :=
  Ok (print_value (VList (map action_to_value h))).

Definition text_unmarshal_history (s : string) : result (list ActionRecord) :=
  match parse s with
  | Some VNil => Ok []
  | Some (VList l) =>
      match mapM action_of_value l with
      | Some h => Ok h
      | None => Err "json: cannot unmarshal into Go value of type dispatch.ActionRecord"
      end
  | Some _ => Err "json: cannot unmarshal into Go value of type []dispatch.ActionRecord"
  | None => Err "invalid character in JSON text"
  end.

Definition text_marshal_metrics (m : ProgressMetrics) : result string :=
  Ok (print_value (metrics_to_value m)).

(** Fields of the right type are stored even when another field is refused. *)
Definition text_unmarshal_metrics (s : string) : ProgressMetrics * option string :=
  match parse s with
  | Some (VMap m) =>
      let get k := int_field m k in
      let ok :=
        forallb (fun k => bool_decide (is_Some (get k)))
          ["files_read"; "files_modified"; "tests_run"; "commands_executed"; "last_progress"] in
      (mkMetrics (default 0 (get "files_read")) (default 0 (get "files_modified"))
                 (default 0 (get "tests_run")) (default 0 (get "commands_executed"))
                 (default 0 (get "last_progress")),
       if ok then None
       else Some "json: cannot unmarshal into Go struct field of type int")
  | Some VNil => (zeroMetrics, None)
  | Some _ => (zeroMetrics, Some "json: cannot unmarshal into Go value of type dispatch.ProgressMetrics")
  | None => (zeroMetrics, Some "invalid character in JSON text")
  end.

#[export] Instance codec : Json := {|
  marshal_history := text_marshal_history;
  unmarshal_history := text_unmarshal_history;
  marshal_metrics := text_marshal_metrics;
  unmarshal_metrics := text_unmarshal_metrics;
|}.

End JsonText.


(* ===================================================================== *)
(** ** internal/cache/redis.go *)
(* ===================================================================== *)

Module Cache.
Import Go.

Local Open Scope string_scope.
Local Open Scope Z_scope.
Local Open Scope list_scope.

Record Config := mkConfig {
  Enabled : bool;
  DefaultTTL : Duration;
}.

Record Entry := mkEntry {
  Key : string;
  Response : value;
  Metadata : gmap string value;
  CachedAt : Time;
  ExpiresAt : Time;
  Hits : Z;
  ProviderID : string;
  ModelName : string;
  TokensSaved : Z;
}.

(** The Redis server as the cache sees it: for each key the value last
    written and the expiration passed with it; a command fails when the
    server cannot be reached. *)
Record Redis := mkRedis {
  kv : gmap string (string * Duration);
  reachable : bool;
}.

(** [client.Set(ctx, key, data, ttl).Err()]. *)
Definition redis_Set (r : Redis) (key data : string) (ttl : Duration) : Redis * option string :=
  if reachable r then (mkRedis (<[key := (data, ttl)]> (kv r)) true, None)
  else (r, Some "dial tcp: connection refused").

Record RedisCache := mkCache {
  client : Redis;
  config : Config;
}.

Section SetOp.
(** The two metadata helpers and [json.Marshal] at [Entry] are declared
    elsewhere in the package. *)
Variable getStringFromMap : gmap string value -> string -> string.
Variable getInt64FromMap : gmap string value -> string -> Z.
Variable marshal_entry : Entry -> result string.

(** [RedisCache.Set]; [now] and [now'] are the two readings of
    [time.Now()], for [CachedAt] and for [ExpiresAt]. *)
Definition RedisCache_Set (rc : RedisCache) (now now' : Time) (key : string) (response : value)
    (ttl : Duration) (metadata : gmap string value) : RedisCache * option string :=
  if negb (Enabled (config rc)) then (rc, None)
  else
    let ttl := if ttl =? 0 then DefaultTTL (config rc) else ttl in
    let entry :=
      mkEntry key response metadata now (now' + ttl) 0
              (getStringFromMap metadata "provider_id")
              (getStringFromMap metadata "model_name")
              (getInt64FromMap metadata "total_tokens") in
    match marshal_entry entry with
    | Err e => (rc, Some ("failed to marshal entry: " +:+ e))
    | Ok data =>
        let '(r, err) := redis_Set (client rc) ("cache:" +:+ key) data ttl in
        (mkCache r (config rc), err)
    end.

(** The entry [Set] builds. *)
Definition newEntry (rc : RedisCache) (now now' : Time) (key : string) (response : value)
    (ttl : Duration) (metadata : gmap string value) : Entry :=
  let ttl := if ttl =? 0 then DefaultTTL (config rc) else ttl in
  mkEntry key response metadata now (now' + ttl) 0
          (getStringFromMap metadata "provider_id")
          (getStringFromMap metadata "model_name")
          (getInt64FromMap metadata "total_tokens").

End SetOp.

End Cache.

(* ===================================================================== *)
(** ** internal/dispatch/lessons_provider.go *)
(* ===================================================================== *)

Module Lessons.
Import Go.

Local Open Scope string_scope.
Local Open Scope Z_scope.
Local Open Scope list_scope.

(** [models.Lesson], reduced to the fields the provider formats.  The
    relevance score is a finite [float64], kept as the rational it denotes. *)
Record Lesson := mkLesson {
  Category : string;
  Title : string;
  Detail : string;
  RelevanceScore : Q;
}.

(** The [float64] constant [0.3], which is 5404319552844595 / 2^54. *)
Definition score_threshold : Q := 5404319552844595 # 18014398509481984.

(** [strings.ToUpper] on the ASCII letters; other bytes are kept. *)
Definition upper_ascii (c : ascii) : ascii :=
  let n := nat_of_ascii c in
  if (97 <=? n)%nat && (n <=? 122)%nat then ascii_of_nat (n - 32) else c.

Fixpoint strings_ToUpper (s : string) : string :=
  match s with
  | EmptyString => EmptyString
  | String c r => String (upper_ascii c) (strings_ToUpper r)
  end.

Section Provider.
(** The element type of embedding vectors. *)
Variable float32 : Type.

(** The two queries of [database.Database] the provider calls. *)
Record Database := mkDatabase {
  GetLessonsForProject : string -> Z -> Z -> result (list Lesson);
  SearchLessonsBySimilarity : string -> list float32 -> Z -> result (list Lesson);
}.

(** [memory.Embedder]. *)
Record Embedder := mkEmbedder {
  Embed : list string -> result (list (list float32));
}.

(** [db] and [embedder] may be nil; so may the provider itself, which the
    methods take as an [option]. *)
Record LessonsProvider := mkProvider {
  db : option Database;
  embedder : option Embedder;
}.

Definition formatRecent (l : Lesson) : string :=
  "### " +:+ strings_ToUpper (Category l) +:+ ": " +:+ Title l +:+ nl
  +:+ "- " +:+ Detail l +:+ nl
  +:+ (if negb (Qle_bool score_threshold (RelevanceScore l))
       then "- (older lesson, may be less relevant)" +:+ nl else "")
  +:+ nl.

Definition GetLessonsForPrompt (lp : option LessonsProvider) (projectID : string) : string :=
  match lp with
  | None => ""
  | Some lp =>
      match db lp with
      | None => ""
      | Some d =>
          if String.eqb projectID "" then ""
          else
            match GetLessonsForProject d projectID 15 4000 with
            | Err _ => ""
            | Ok lessons =>
                if (length lessons =? 0)%nat then ""
                else
                  "The following lessons were learned from previous work on this project." +:+ nl
                  +:+ "Avoid repeating these mistakes:" +:+ nl +:+ nl
                  +:+ String.concat "" (map formatRecent lessons)
            end
      end
  end.

(** The formatting loop of [GetRelevantLessons], with its 2000 character cut. *)
Fixpoint formatRelevant (lessons : list Lesson) (totalChars : Z) : string :=
  match lessons with
  | [] => ""
  | l :: rest =>
      let entry :=
        "### " +:+ strings_ToUpper (Category l) +:+ ": " +:+ Title l +:+ nl
        +:+ "- " +:+ Detail l +:+ nl +:+ nl in
      let totalChars := totalChars + Z.of_nat (String.length entry) in
      if 2000 <? totalChars then "" else entry +:+ formatRelevant rest totalChars
  end.

Definition GetRelevantLessons (lp : option LessonsProvider) (projectID taskContext : string)
    (topK : Z) : string :=
  match lp with
  | None => ""
  | Some p =>
      match db p with
      | None => ""
      | Some d =>
          if String.eqb projectID "" then ""
          else
            if String.eqb taskContext "" then GetLessonsForPrompt lp projectID
            else
              match embedder p with
              | None => GetLessonsForPrompt lp projectID
              | Some e =>
                  let topK := if topK <=? 0 then 5 else topK in
                  match Embed e [taskContext] with
                  | Err _ => GetLessonsForPrompt lp projectID
                  | Ok [] => GetLessonsForPrompt lp projectID
                  | Ok (queryEmb :: _) =>
                      if (length queryEmb =? 0)%nat then GetLessonsForPrompt lp projectID
                      else
                        match SearchLessonsBySimilarity d projectID queryEmb topK with
                        | Err _ => GetLessonsForPrompt lp projectID
                        | Ok lessons =>
                            if (length lessons =? 0)%nat then ""
                            else
                              "The following lessons are relevant to this task." +:+ nl
                              +:+ "Apply them where appropriate:" +:+ nl +:+ nl
                              +:+ formatRelevant lessons 0
                        end
                  end
              end
      end
  end.

End Provider.

Arguments mkDatabase {float32}.
Arguments mkEmbedder {float32}.
Arguments mkProvider {float32}.
Arguments GetLessonsForPrompt {float32}.
Arguments GetRelevantLessons {float32}.

End Lessons.

(* ===================================================================== *)
(** ** internal/provider/streaming.go *)
(* ===================================================================== *)

Module Streaming.
Import Go.

Local Open Scope string_scope.
Local Open Scope Z_scope.
Local Open Scope list_scope.

(** [strings.TrimPrefix]. *)
Definition strings_TrimPrefix (s p : string) : string :=
  if String.prefix p s
  then String.substring (String.length p) (String.length s - String.length p) s
  else s.

Section Reader.
(** The decoded chunk, [json.Unmarshal] at that type ([None] is a parse
    error), and the caller's handler, a closure over a state [H] that
    returns an error message or nil. *)
Variable StreamChunk : Type.
Variable json_Unmarshal : string -> option StreamChunk.
Variable H : Type.
Variable handler : H -> StreamChunk -> H * option string.

(** What one pass through the loop body does: go on with a chunk count, or
    return from the function. *)
Inductive step :=
| Continue (chunksReceived : Z) (h : H)
| Return (err : option string) (h : H).

(** The loop body for one scanned line.  [done] is what the [select] sees:
    [Some e] when [ctx.Done()] is closed, with [e] the text of [ctx.Err()]. *)
Definition iteration (done : option string) (line : string) (chunksReceived : Z) (h : H) : step :=
  match done with
  | Some e =>
      if 0 <? chunksReceived then
        Return (Some ("stream interrupted after " +:+ fmt_d chunksReceived +:+ " chunks: " +:+ e)) h
      else Return (Some e) h
  | None =>
      if String.eqb line "" || String.prefix ":" line then Continue chunksReceived h
      else if negb (String.prefix "data: " line) then Continue chunksReceived h
      else
        let data := strings_TrimPrefix line "data: " in
        if String.eqb data "[DONE]" then Return None h
        else
          match json_Unmarshal data with
          | None => Continue chunksReceived h
          | Some chunk =>
              let chunksReceived := chunksReceived + 1 in
              match handler h chunk with
              | (h', Some e) =>
                  Return (Some ("handler error after " +:+ fmt_d chunksReceived
                                +:+ " chunks: " +:+ e)) h'
              | (h', None) => Continue chunksReceived h'
              end
          end
  end.

(** [for scanner.Scan() { ... }] over the lines the scanner yields; [ctx i]
    is the state of the context at the [i]-th pass. *)
Fixpoint scanLoop (ctx : nat -> option string) (i : nat) (lines : list string)
    (chunksReceived : Z) (h : H) : step :=
  match lines with
  | [] => Continue chunksReceived h
  | line :: rest =>
      match iteration (ctx i) line chunksReceived h with
      | Continue n h' => scanLoop ctx (S i) rest n h'
      | Return e h' => Return e h'
      end
  end.

(** [readStreamingResponse]: [lines] are the lines the scanner yields before
    [Scan] returns false and [scanErr] is [scanner.Err()] at that point. The
    result is the error ([None] is nil) and the handler's final state. *)
Definition readStreamingResponse (ctx : nat -> option string) (lines : list string)
    (scanErr : option string) (h : H) : option string * H :=
  match scanLoop ctx 0 lines 0 h with
  | Return e h' => (e, h')
  | Continue chunksReceived h' =>
      match scanErr with
      | Some e =>
          if 0 <? chunksReceived then
            (Some ("stream connection lost after " +:+ fmt_d chunksReceived
                   +:+ " chunks: " +:+ e), h')
          else (Some ("stream read error: " +:+ e), h')
      | None =>
          if chunksReceived =? 0 then (Some "stream ended without receiving any data", h')
          else (None, h')
      end
  end.

End Reader.

Arguments Continue {H}.
Arguments Return {H}.

End Streaming.

(* ===================================================================== *)
(** ** internal/memory: the hash embedder and the BLOB encoding *)
(* ===================================================================== *)

Module Memory.
Import Go.

Local Open Scope string_scope.
Local Open Scope Z_scope.
Local Open Scope list_scope.

Definition hashDimensions : Z := 256.

(** *** hash/fnv *)

Definition offset32 : Z := 2166136261.
Definition prime32 : Z := 16777619.

(** [fnv.New32a]: xor, then multiply. *)
Definition fnv32a (bs : list Z) : Z :=
  fold_left (fun h b => u32 (Z.lxor h b * prime32)) bs offset32.

(** [fnv.New32]: multiply, then xor. *)
Definition fnv32 (bs : list Z) : Z :=
  fold_left (fun h b => Z.lxor (u32 (h * prime32)) b) bs offset32.

(** *** tokenize

    A text is the sequence of its runes (code points); [utf8] gives the
    bytes of a rune, which [len] counts and the hashes consume. *)

Definition rune := Z.

Definition utf8 (r : rune) : list Z :=
  if r <? 0x80 then [r]
  else if r <? 0x800 then [0xC0 + r / 64; 0x80 + r mod 64]
  else if r <? 0x10000 then [0xE0 + r / 4096; 0x80 + (r / 64) mod 64; 0x80 + r mod 64]
  else [0xF0 + r / 262144; 0x80 + (r / 4096) mod 64; 0x80 + (r / 64) mod 64; 0x80 + r mod 64].

Definition word_bytes (w : list rune) : list Z := flat_map utf8 w.

Definition stopWords : list string :=
  [ "the"; "is"; "at"; "on"; "in";
    "to"; "for"; "of"; "and"; "or";
    "an"; "it"; "be"; "as"; "do";
    "by"; "so"; "if"; "no"; "up";
    "was"; "are"; "has"; "had"; "not";
    "but"; "its"; "can"; "did"; "all";
    "this"; "that"; "with"; "from"; "have";
    "they"; "been"; "will"; "were"; "than";
    "what"; "when"; "each"; "which"; "their";
    "said"; "them"; "would"; "there"; "could" ].

Definition isStopWord (w : list rune) : bool :=
  existsb (fun sw => bool_decide (word_bytes w = bytes_of_string sw)) stopWords.

(** [strings.FieldsFunc]: the maximal runs of runes that [f] does not
    reject; [cur] is the field being read, in reverse. *)
Fixpoint fieldsFrom (f : rune -> bool) (s : list rune) (cur : list rune) : list (list rune) :=
  match s with
  | [] => match cur with [] => [] | _ => [rev cur] end
  | r :: rest =>
      if f r then
        match cur with
        | [] => fieldsFrom f rest []
        | _ => rev cur :: fieldsFrom f rest []
        end
      else fieldsFrom f rest (r :: cur)
  end.

Definition strings_FieldsFunc (s : list rune) (f : rune -> bool) : list (list rune) :=
  fieldsFrom f s [].

Section Tokenizer.
(** The Unicode tables of package [unicode]. *)
Variable unicode_IsLetter : rune -> bool.
Variable unicode_IsDigit : rune -> bool.
Variable unicode_ToLower : rune -> rune.

Definition tokenize (text : list rune) : list (list rune) :=
  let text := map unicode_ToLower text in
  let words :=
    strings_FieldsFunc text
      (fun r => negb (unicode_IsLetter r) && negb (unicode_IsDigit r) && negb (r =? 95)) in
  filter (fun w => Is_true ((2 <=? Z.of_nat (length (word_bytes w))) && negb (isStopWord w)))
         words.

(** *** hashEmbed

    Before normalisation every coordinate is an integer of absolute value at
    most 2^24, which [float32] holds exactly; adding 1 or -1 is exact except
    at the two ends, where the sum rounds back to the operand. *)

Definition f32_add_unit (c sign : Z) : Z :=
  let r := c + sign in
  if (- 2 ^ 24 <=? r) && (r <=? 2 ^ 24) then r else c.

Definition wordIndex (word : list rune) : nat :=
  Z.to_nat (fnv32a (word_bytes word) mod hashDimensions).

Definition wordSign (word : list rune) : Z :=
  if fnv32 (word_bytes word) mod 2 =? 0 then -1 else 1.

Definition addWord (vec : list Z) (word : list rune) : list Z :=
  let idx := wordIndex word in
  <[idx := f32_add_unit (vec !!! idx) (wordSign word)]> vec.

(** The vector after the loop over the words, before [normalize]. *)
Definition accumulate (words : list (list rune)) : list Z :=
  fold_left addWord words (repeat 0 (Z.to_nat hashDimensions)).

Local Open Scope R_scope.

(** Arithmetic on [float64] and the conversion to [float32] are the exact
    operation followed by a rounding; [rnd64] and [rnd32] are the two
    roundings. *)
Variable rnd64 : R -> R.
Variable rnd32 : R -> R.

Definition sumSquares (vec : list R) : R :=
  fold_left (fun sum v => rnd64 (sum + rnd64 (v * v))) vec 0.

Definition normalize (vec : list R) : list R :=
  let sum := sumSquares vec in
  let norm := rnd64 (sqrt sum) in
  if Req_dec_T norm 0 then vec
  else map (fun v => rnd32 (rnd64 (v / norm))) vec.

Definition hashEmbed (text : list rune) : list R :=
  let vec := repeat 0%Z (Z.to_nat hashDimensions) in
  let words := tokenize text in
  if (length words =? 0)%nat then map IZR vec
  else normalize (map IZR (accumulate words)).

End Tokenizer.

(** The L2 norm of a vector, as a real number. *)
Definition squares (v : list R) : R := fold_right (fun x acc => x * x + acc)%R 0%R v.
Definition l2norm (v : list R) : R := sqrt (squares v).

(** The unit roundoffs of [float64] and [float32]. *)
Definition u64 : R := (/ 2 ^ 53)%R.
Definition u32r : R := (/ 2 ^ 24)%R.

(** A rounding of relative error at most [u] on the magnitudes between
    2^-126 and 2^127, which maps 0 to 0: round-to-nearest in [float32] and in
    [float64] on their normal ranges, and also exact arithmetic. *)
Definition float_rounding (u : R) (rnd : R -> R) : Prop :=
  rnd 0%R = 0%R
  /\ forall x, (/ 2 ^ 126 <= Rabs x <= 2 ^ 127 -> Rabs (rnd x - x) <= u * Rabs x)%R.

(** The ASCII rows of the Unicode tables. *)
Definition ascii_IsLetter (r : rune) : bool :=
  ((65 <=? r) && (r <=? 90)) || ((97 <=? r) && (r <=? 122)).
Definition ascii_IsDigit (r : rune) : bool := (48 <=? r) && (r <=? 57).
Definition ascii_ToLower (r : rune) : rune :=
  if (65 <=? r) && (r <=? 90) then r + 32 else r.

Definition runes_of_string (s : string) : list rune := bytes_of_string s.

(** *** EncodeEmbedding / DecodeEmbedding

    A [float32] is held as its IEEE-754 bit pattern: [math.Float32bits] and
    [math.Float32frombits] are the two directions of that identification. *)

Definition is_float32 (bits : Z) : Prop := 0 <= bits < 2 ^ 32.

(** [binary.LittleEndian.PutUint32]. *)
Definition PutUint32 (v : Z) : list Z :=
  [ v mod 256; Z.shiftr v 8 mod 256; Z.shiftr v 16 mod 256; Z.shiftr v 24 mod 256 ].

(** [binary.LittleEndian.Uint32]. *)
Definition Uint32 (b : list Z) : Z :=
  Z.lor (Z.lor (Z.lor (nth 0 b 0) (Z.shiftl (nth 1 b 0) 8)) (Z.shiftl (nth 2 b 0) 16))
        (Z.shiftl (nth 3 b 0) 24).

Definition EncodeEmbedding (vec : list Z) : list Z :=
  if (length vec =? 0)%nat then []
  else flat_map PutUint32 vec.

Definition DecodeEmbedding (data : list Z) : list Z :=
  if (length data =? 0)%nat || negb (length data mod 4 =? 0)%nat then []
  else map (fun i => Uint32 (drop (i * 4) data)) (seq 0 (length data / 4)).

End Memory.

(* ===================================================================== *)
(** ** The loop detector: the specification's vocabulary *)
(* ===================================================================== *)

Module LoopSpec.
Import Go LoopDetector.

Local Open Scope string_scope.
Local Open Scope Z_scope.
Local Open Scope list_scope.

(** The primary target in the priority order the specification gives:
    [data.file_path], then [data.command], then the serialized data. *)
Definition primary_target_by_file_path (action : ActionRecord) : string :=
  match ActionData action !! "file_path" with
  | Some (VString filePath) => filePath
  | _ =>
      match ActionData action !! "command" with
      | Some (VString command) => command
      | _ => fmt_v_data (ActionData action)
      end
  end.

(** The primary target with the command first. *)
Definition primary_target (action : ActionRecord) : string :=
  match ActionData action !! "command" with
  | Some (VString command) => command
  | _ =>
      match ActionData action !! "file_path" with
      | Some (VString filePath) => filePath
      | _ => fmt_v_data (ActionData action)
      end
  end.

(** Truncated hex of SHA-256 over a canonical string. *)
Definition key_of (canonical : string) : string :=
  hex_EncodeToString (take 8 (SHA256.Sum256 (bytes_of_string canonical))).

(** The four action classes of the record operation. *)
Inductive ActionClass := ReadClass | ModifyClass | TestClass | CommandClass.

Definition classify (actionType : string) : option ActionClass :=
  if bool_decide (actionType ∈ ["read_file"; "glob"; "grep"]) then Some ReadClass
  else if bool_decide (actionType ∈ ["edit_file"; "write_file"]) then Some ModifyClass
  else if bool_decide (actionType ∈ ["run_tests"; "test"]) then Some TestClass
  else if bool_decide (actionType ∈ ["bash"; "execute"]) then Some CommandClass
  else None.

(** The counter of a class goes up by one ([++] on a Go [int]) and
    [last_progress] becomes [now]. *)
Definition incremented (c : ActionClass) (now : Time) (m : ProgressMetrics) : ProgressMetrics :=
  match c with
  | ReadClass =>
      mkMetrics (int_add (FilesRead m) 1) (FilesModified m) (TestsRun m) (CommandsExecuted m) now
  | ModifyClass =>
      mkMetrics (FilesRead m) (int_add (FilesModified m) 1) (TestsRun m) (CommandsExecuted m) now
  | TestClass =>
      mkMetrics (FilesRead m) (FilesModified m) (int_add (TestsRun m) 1) (CommandsExecuted m) now
  | CommandClass =>
      mkMetrics (FilesRead m) (FilesModified m) (TestsRun m) (int_add (CommandsExecuted m) 1) now
  end.

(** The runs of consecutive identical keys, oldest first, each with its
    length.  [cons_run k c rs] puts [c] more occurrences of [k] in front. *)
Definition cons_run (k : string) (c : Z) (rs : list (string * Z)) : list (string * Z) :=
  match rs with
  | (k', n) :: tl => if String.eqb k k' then (k, c + n) :: tl else (k, c) :: rs
  | [] => [(k, c)]
  end.

Fixpoint runs (keys : list string) : list (string * Z) :=
  match keys with
  | [] => []
  | k :: rest => cons_run k 1 (runs rest)
  end.

(** What the loop does when a run ends: record it if it reaches the
    threshold. *)
Definition flush (th : Z) (m : gmap string Z) (kn : string * Z) : gmap string Z :=
  if th <=? snd kn then <[fst kn := snd kn]> m else m.

(** The runs seen by the loop when it starts inside a run of [cc] times
    [lastKey]. *)
Fixpoint openRuns (lastKey : string) (cc : Z) (keys : list string) : list (string * Z) :=
  match keys with
  | [] => [(lastKey, cc)]
  | k :: rest =>
      if String.eqb k lastKey then openRuns lastKey (cc + 1) rest
      else (lastKey, cc) :: openRuns k 1 rest
  end.

(** The keys of the window the stuck query examines. *)
Definition recentKeys (history : list ActionRecord) : list string :=
  map ProgressKey (recentWindow history).

(** The runs of the window that reach the threshold. *)
Definition qualifying (th : Z) (history : list ActionRecord) : list (string * Z) :=
  filter (fun kn => th <= snd kn) (runs (recentKeys history)).

(** Sample actions. *)
Definition act (ty : string) (data : gmap string value) : ActionRecord :=
  mkAction 0 "agent-1" ty data "" "".
Definition readFile (path : string) : ActionRecord :=
  act "read_file" {[ "file_path" := VString path ]}.

(** An action that names both a file and a command. *)
Definition editWithCommand : ActionRecord :=
  act "edit_file" {[ "file_path" := VString "a.go"; "command" := VString "ls" ]}.

Definition keyed (a : ActionRecord) : ActionRecord := with_key a (generateProgressKey a).

(** The bead after recording the actions in turn, each at clock reading
    [now], starting from an empty context. *)
Definition recordAll `{Json} (ld : LoopDetector) (actions : list ActionRecord) (now : Time) : Bead :=
  fold_left (fun b a => fst (RecordAction ld b a now)) actions (mkBead "bead-1" (Some ∅)).

(** A codec under which every history can be stored and read back. *)
Definition history_roundtrip `{Json} : Prop :=
  forall h, exists s, marshal_history h = Ok s /\ s <> "" /\ unmarshal_history s = Ok h.

(** The most recent 50 entries of a history. *)
Definition last50 (history : list ActionRecord) : list ActionRecord :=
  drop (length history - 50) history.

(** The thresholds the constructors produce: at least 2, and a Go [int]. *)
Definition valid_detector (ld : LoopDetector) : Prop :=
  2 <= repeatThreshold ld < 2 ^ 63.

(** The reason string of a positive answer. *)
Definition stuck_reason (count : Z) (pattern : string) : string :=
  "Repeated action pattern " +:+ fmt_d count +:+ " times without progress: " +:+ pattern.

(** A wall clock reading in the year 2026, and the same ten minutes later. *)
Definition clock0 : Time := 63900000000000000000.
Definition clock10 : Time := clock0 + 10 * Minute.

(** Four reads of one file, one read of another, three more reads of the
    first. *)
Definition interruptedRepeat : list ActionRecord :=
  repeat (readFile "test.go") 4 ++ [readFile "other.go"] ++ repeat (readFile "test.go") 3.

(** Three reads of one file, then three reads of another. *)
Definition tiedRepeat : list ActionRecord :=
  repeat (readFile "a.go") 3 ++ repeat (readFile "b.go") 3.

(** Seven reads of one file. *)
Definition verboseRepeat : list ActionRecord := repeat (readFile "test.go") 7.

(** The beads after recording each of the three sequences on the JSON text
    codec. *)
Definition tiedBead : Bead :=
  recordAll (H:=JsonText.codec) NewLoopDetector tiedRepeat clock0.
Definition interruptedBead : Bead :=
  recordAll (H:=JsonText.codec) NewLoopDetector interruptedRepeat clock0.
Definition verboseBead : Bead :=
  recordAll (H:=JsonText.codec) NewLoopDetector verboseRepeat clock0.

(** A bead that already holds fifty reads of test.go. *)
Definition fullBead : Bead :=
  mkBead "bead-3"
    (Some {[ "action_history" :=
               match JsonText.text_marshal_history (repeat (keyed (readFile "test.go")) 50) with
               | Ok s => s
               | Err _ => ""
               end ]}).

(** A bead whose stored history is not JSON. *)
Definition corruptBead : Bead :=
  mkBead "bead-2" (Some {[ "action_history" := "{not json" ]}).

(** Two iteration orders: that of the map's list of entries, and its
    reverse. *)
Definition rangeForward (m : gmap string Z) : list (string * Z) := map_to_list m.
Definition rangeBackward (m : gmap string Z) : list (string * Z) := reverse (map_to_list m).

End LoopSpec.

(* ===================================================================== *)
(** ** The cache, the lessons provider and the streaming reader: the
       specification's vocabulary and sample data *)
(* ===================================================================== *)

Module CacheSpec.
Import Go Cache.

Local Open Scope string_scope.
Local Open Scope Z_scope.
Local Open Scope list_scope.

(** Metadata helpers that read a string or an integer and give the zero
    value otherwise, and an [Entry] marshaller on the JSON text printer. *)
Definition stringFromMap (m : gmap string value) (k : string) : string :=
  match m !! k with
  | Some (VString s) => s
  | _ => ""
  end.

Definition int64FromMap (m : gmap string value) (k : string) : Z :=
  match m !! k with
  | Some (VInt n) => n
  | _ => 0
  end.

Definition textEntry (e : Entry) : result string :=
  Ok (JsonText.print_value
        (VMap [ ("key", VString (Key e));
                ("response", Response e);
                ("cached_at", VInt (CachedAt e));
                ("expires_at", VInt (ExpiresAt e));
                ("hits", VInt (Hits e));
                ("provider_id", VString (ProviderID e));
                ("model_name", VString (ModelName e));
                ("tokens_saved", VInt (TokensSaved e)) ])).

Definition Hour : Duration := 60 * Minute.

Definition clock : Time := 63900000000000000000.

Definition meta (provider model : string) : gmap string value :=
  {[ "provider_id" := VString provider; "model_name" := VString model;
     "total_tokens" := VInt 100 ]}.

Definition emptyCache : RedisCache :=
  mkCache (mkRedis ∅ true) (mkConfig true Hour).

(** The cache one minute after provider p1 stored an answer for key k with a
    TTL of one hour. *)
Definition cacheWithP1 : RedisCache :=
  (RedisCache_Set stringFromMap int64FromMap textEntry emptyCache
     (clock - Minute) (clock - Minute) "k" (VString "answer of p1") Hour (meta "p1" "m1")).1.

(** The entry then stored for k. *)
Definition entryP1 : Entry :=
  newEntry stringFromMap int64FromMap emptyCache (clock - Minute) (clock - Minute) "k"
           (VString "answer of p1") Hour (meta "p1" "m1").

Definition entryP2 : Entry :=
  newEntry stringFromMap int64FromMap cacheWithP1 clock clock "k"
           (VString "answer of p2") Hour (meta "p2" "m2").

End CacheSpec.

Module LessonsSpec.
Import Go Lessons.

Local Open Scope string_scope.
Local Open Scope Z_scope.
Local Open Scope list_scope.

Definition buildLesson : Lesson :=
  mkLesson "build_failure" "Repeated build failures" "run go vet before building" 1.

(** A store with one lesson for every project and no similarity match for
    any query, and an embedder that returns a one-coordinate vector. *)
Definition noMatchDb : Database Z :=
  mkDatabase (fun _ _ _ => Ok [buildLesson]) (fun _ _ _ => Ok []).

Definition unitEmbedder : Embedder Z :=
  mkEmbedder (fun texts => Ok (map (fun _ => [1]) texts)).

Definition noMatchProvider : option (LessonsProvider Z) :=
  Some (mkProvider (Some noMatchDb) (Some unitEmbedder)).

End LessonsSpec.

Module StreamingSpec.
Import Go Streaming.

Local Open Scope string_scope.
Local Open Scope Z_scope.
Local Open Scope list_scope.

(** A context that is never cancelled, and one cancelled from pass [i] on. *)
Definition neverDone : nat -> option string := fun _ => None.
Definition doneFrom (i : nat) : nat -> option string :=
  fun j => if (i <=? j)%nat then Some "context canceled" else None.

Section Lines.
Variable StreamChunk : Type.
Variable json_Unmarshal : string -> option StreamChunk.

(** A line that carries a chunk: a data line other than the sentinel whose
    payload parses. *)
Definition carries_chunk (line : string) : bool :=
  String.prefix "data: " line
  && negb (String.eqb (strings_TrimPrefix line "data: ") "[DONE]")
  && bool_decide (is_Some (json_Unmarshal (strings_TrimPrefix line "data: "))).

(** A blank line or a comment line. *)
Definition blank_or_comment (line : string) : bool :=
  String.eqb line "" || String.prefix ":" line.

End Lines.

(** A toy chunk decoder and handler for running the reader: a payload is a
    chunk when it starts with an opening brace; the handler collects the
    payloads. *)
Definition braceChunk (data : string) : option string :=
  if String.prefix "{" data then Some data else None.
Definition collect (h : list string) (chunk : string) : list string * option string :=
  (h ++ [chunk], None).

End StreamingSpec.

Module MemorySpec.
Import Go Memory.

Local Open Scope string_scope.
Local Open Scope Z_scope.
Local Open Scope list_scope.

(** The bit patterns of 1.0, -2.5, 0.0, a NaN and -0.0. *)
Definition sampleVector : list Z :=
  [0x3F800000; 0xC0200000; 0x00000000; 0x7FC00001; 0x80000000].

(** [tokenize] and [hashEmbed] on the ASCII rows of the Unicode tables. *)
Definition asciiTokenize (text : string) : list (list rune) :=
  tokenize ascii_IsLetter ascii_IsDigit ascii_ToLower (runes_of_string text).

(** Exact arithmetic: the rounding that changes nothing. *)
Definition exact (x : R) : R := x.

(** Even coordinates only go down from 0 and odd ones only go up, and
    neither leaves the integers [float32] counts exactly. *)
Definition signed_counts (vec : list Z) : Prop :=
  length vec = 256%nat
  /\ forall i c, vec !! i = Some c ->
       if Z.odd (Z.of_nat i) then 0 <= c <= 2 ^ 24 else - 2 ^ 24 <= c <= 0.

Definition small_counts (cs : list Z) : Prop := Forall (fun c => - 2 ^ 24 <= c <= 2 ^ 24) cs.

(** The exact sum of squares of integer counts. *)
Definition sumsq (cs : list Z) : Z := foldr (fun c acc => c * c + acc) 0 cs.

(** [low k] and [high k] bound the factor that [k] roundings in a row, each
    of relative error at most 2^-24, can put on a non-negative quantity;
    [within k x y] says that [x] is [y] up to [k] such roundings. *)
Definition low (k : nat) : R := ((1 - u32r) ^ k)%R.
Definition high (k : nat) : R := ((1 + u32r) ^ k)%R.
Definition within (k : nat) (x y : R) : Prop := (low k * y <= x <= high k * y)%R.

End MemorySpec.

(* ===================================================================== *)
(** ** internal/dispatch/loop_detector.go: the progress summary *)
(* ===================================================================== *)

Module LoopSummary.
Import Go LoopDetector.

Local Open Scope string_scope.
Local Open Scope Z_scope.
Local Open Scope list_scope.

(** *** time.Duration: Round and String *)

Definition Microsecond : Duration := 1000.
Definition Millisecond : Duration := 1000 * Microsecond.

Definition uint64 (x : Z) : Z := x mod 2 ^ 64.

(** [lessThanHalf(x, y)]: [uint64(x)+uint64(x) < uint64(y)]. *)
Definition lessThanHalf (x y : Duration) : bool :=
  uint64 (uint64 x + uint64 x) <? uint64 y.

(** [d.Round(m)]: to the nearest multiple of [m], halfway values away from
    zero; the extreme durations when the result does not fit. *)
Definition Duration_Round (d m : Duration) : Duration :=
  if m <=? 0 then d
  else
    let r := Z.rem d m in
    if d <? 0 then
      let r := int_wrap (- r) in
      if lessThanHalf r m then int_add d r
      else
        let d1 := int_add (int_wrap (d - m)) r in
        if d1 <? d then d1 else minDuration
    else
      if lessThanHalf r m then int_wrap (d - r)
      else
        let d1 := int_wrap (int_add d m - r) in
        if d <? d1 then d1 else maxDuration.

Definition digit_char (d : Z) : ascii := ascii_of_nat (Z.to_nat (48 + d)).

(** The loop of [fmtFrac]: the digits of the fraction, least significant
    first, without the trailing zeros. *)
Fixpoint fracDigits (prec : nat) (v : Z) (print : bool) (out : string) : string * Z * bool :=
  match prec with
  | O => (out, v, print)
  | S prec' =>
      let digit := v mod 10 in
      let print := print || negb (digit =? 0) in
      let out := if print then String (digit_char digit) out else out in
      fracDigits prec' (v / 10) print out
  end.

(** [fmtFrac]: the fraction of [v/10^prec] with its decimal point, empty
    when the fraction is zero, and the integer part. *)
Definition fmtFrac (v : Z) (prec : nat) : string * Z :=
  let '(out, v, print) := fracDigits prec v false "" in
  (if print then "." +:+ out else out, v).

(** The micro sign, two bytes in UTF-8. *)
Definition micro : string := String (ascii_of_nat 194) (String (ascii_of_nat 181) "").

(** [d.String()]. *)
Definition Duration_String (d : Duration) : string :=
  let neg := d <? 0 in
  let u := Z.abs d in
  let body :=
    if u <? Second then
      if u =? 0 then "0s"
      else if u <? Microsecond then fmt_d u +:+ "ns"
      else if u <? Millisecond then
        let '(frac, v) := fmtFrac u 3 in fmt_d v +:+ frac +:+ micro +:+ "s"
      else
        let '(frac, v) := fmtFrac u 6 in fmt_d v +:+ frac +:+ "ms"
    else
      let '(frac, u) := fmtFrac u 9 in
      let out := fmt_d (u mod 60) +:+ frac +:+ "s" in
      let u := u / 60 in
      if 0 <? u then
        let out := fmt_d (u mod 60) +:+ "m" +:+ out in
        let u := u / 60 in
        if 0 <? u then fmt_d u +:+ "h" +:+ out else out
      else out in
  if neg then "-" +:+ body else body.

(** *** GetProgressSummary *)

Section Summary.
Context {J : Json}.

(** The text printed for parsed metrics; [now] is the reading of the clock
    in [time.Since]. *)
Definition summaryLine (metrics : ProgressMetrics) (now : Time) : string :=
  let timeSince :=
    if Time_IsZero (LastProgress metrics) then "never"
    else Duration_String (Duration_Round (time_Since now (LastProgress metrics)) Second)
         +:+ " ago" in
  "Files read: " +:+ fmt_d (FilesRead metrics)
  +:+ ", modified: " +:+ fmt_d (FilesModified metrics)
  +:+ ", tests: " +:+ fmt_d (TestsRun metrics)
  +:+ ", commands: " +:+ fmt_d (CommandsExecuted metrics)
  +:+ " (last: " +:+ timeSince +:+ ")".

Definition GetProgressSummary (bead : Bead) (now : Time) : string :=
  match Context bead with
  | None => "No progress data"
  | Some ctx =>
      let metricsJSON := ctx_get ctx "progress_metrics" in
      if String.eqb metricsJSON "" then "No progress data"
      else
        match unmarshal_metrics metricsJSON with
        | (_, Some _) => "Invalid progress data"
        | (metrics, None) => summaryLine metrics now
        end
  end.

End Summary.

(** The characters [hex.EncodeToString] produces: the digits and the
    letters a to f. *)
Definition is_hex (c : ascii) : bool :=
  let n := nat_of_ascii c in
  ((48 <=? n) && (n <=? 57))%nat || ((97 <=? n) && (n <=? 102))%nat.

End LoopSummary.

(* ===================================================================== *)
(** ** The stream reader: the chunks of a stream *)
(* ===================================================================== *)

Module StreamTrace.
Import Go Streaming.

Local Open Scope string_scope.
Local Open Scope Z_scope.
Local Open Scope list_scope.

Section Trace.
Variable StreamChunk : Type.
Variable json_Unmarshal : string -> option StreamChunk.

(** The chunk a line carries: the payload of a "data: " line, when it
    parses. *)
Definition chunk_of (line : string) : option StreamChunk :=
  if String.prefix "data: " line
  then json_Unmarshal (strings_TrimPrefix line "data: ")
  else None.

(** The chunks carried by the lines before the first "data: [DONE]". *)
Fixpoint payloads (lines : list string) : list StreamChunk :=
  match lines with
  | [] => []
  | line :: rest =>
      if String.eqb line "data: [DONE]" then []
      else
        match chunk_of line with
        | Some chunk => chunk :: payloads rest
        | None => payloads rest
        end
  end.

Definition has_sentinel (lines : list string) : bool :=
  existsb (String.eqb "data: [DONE]") lines.

(** The error of a reader that was never cancelled and whose handler never
    failed, from what the stream held. *)
Definition end_of_stream (sentinel : bool) (scanErr : option string) (chunks : Z)
  : option string :=
  if sentinel then None
  else
    match scanErr with
    | Some e =>
        if 0 <? chunks then
          Some ("stream connection lost after " +:+ fmt_d chunks +:+ " chunks: " +:+ e)
        else Some ("stream read error: " +:+ e)
    | None =>
        if chunks =? 0 then Some "stream ended without receiving any data" else None
    end.

End Trace.

(** A handler that collects the payloads and gives up on "{stop}". *)
Definition stopAt (h : list string) (chunk : string) : list string * option string :=
  if String.eqb chunk "{stop}" then (h, Some "enough") else (h ++ [chunk], None).

End StreamTrace.

(* ===================================================================== *)
(** ** internal/memory: the embedders and the cosine similarity *)
(* ===================================================================== *)

Module Embedders.
Import Go Memory.

Local Open Scope string_scope.
Local Open Scope Z_scope.
Local Open Scope list_scope.

Section Vectors.
Local Open Scope R_scope.

(** The two roundings, as in [normalize]; the vectors hold finite [float32]
    values, given as the real numbers they denote. *)
Variable rnd64 : R -> R.
Variable rnd32 : R -> R.

(** One pass of the loop of [CosineSimilarity]; the state is
    [(dot, normA, normB)]. *)
Definition cosStep (st : R * R * R) (ab : R * R) : R * R * R :=
  let '(dot, normA, normB) := st in
  let '(a, b) := ab in
  (rnd64 (dot + rnd64 (a * b)), rnd64 (normA + rnd64 (a * a)), rnd64 (normB + rnd64 (b * b))).

Definition CosineSimilarity (a b : list R) : R :=
  if negb (length a =? length b)%nat || (length a =? 0)%nat then 0
  else
    let '(dot, normA, normB) := fold_left cosStep (combine a b) (0, 0, 0) in
    let denom := rnd64 (rnd64 (sqrt normA) * rnd64 (sqrt normB)) in
    if Req_dec_T denom 0 then 0
    else rnd32 (rnd64 (dot / denom)).

End Vectors.

Section Embed.
Variable unicode_IsLetter : rune -> bool.
Variable unicode_IsDigit : rune -> bool.
Variable unicode_ToLower : rune -> rune.
Variable rnd64 : R -> R.
Variable rnd32 : R -> R.

(** The interface [Embedder]: one vector per text, or an error. *)
Record Embedder := mkEmbedder {
  Embed : list (list rune) -> result (list (list R));
}.

(** [HashEmbedder.Embed]. *)
Definition HashEmbedder_Embed (texts : list (list rune)) : result (list (list R)) :=
  Ok (map (hashEmbed unicode_IsLetter unicode_IsDigit unicode_ToLower rnd64 rnd32) texts).

(** [FallbackEmbedder.Embed]; [primary] may be nil. *)
Definition FallbackEmbedder_Embed (primary : option Embedder) (texts : list (list rune))
  : result (list (list R)) :=
  match primary with
  | Some p =>
      match Embed p texts with
      | Ok result => Ok result
      | Err _ => HashEmbedder_Embed texts
      end
  | None => HashEmbedder_Embed texts
  end.

(** The separators of [tokenize]. *)
Definition separator (r : rune) : bool :=
  negb (unicode_IsLetter r) && negb (unicode_IsDigit r) && negb (r =? 95).

End Embed.

(** The number of words hashed to coordinate [i], and the sign that
    coordinate carries. *)
Definition count_at (i : nat) (words : list (list rune)) : Z :=
  Z.of_nat (length (filter (fun w => wordIndex w = i) words)).

Definition sign_at (i : nat) : Z := if Z.odd (Z.of_nat i) then 1 else -1.

Definition is_byte (b : Z) : Prop := 0 <= b < 256.

End Embedders.

(* ===================================================================== *)
(** ** internal/dispatch/lessons_provider.go: the relevant lessons' text *)
(* ===================================================================== *)

Module LessonFormat.
Import Go Lessons.

Local Open Scope string_scope.
Local Open Scope Z_scope.
Local Open Scope list_scope.

(** The two header lines of [GetRelevantLessons]. *)
Definition relevantHeader : string :=
  "The following lessons are relevant to this task." +:+ nl
  +:+ "Apply them where appropriate:" +:+ nl +:+ nl.

(** The [entry] of one pass of its formatting loop. *)
Definition relevantEntry (l : Lesson) : string :=
  "### " +:+ strings_ToUpper (Category l) +:+ ": " +:+ Title l +:+ nl
  +:+ "- " +:+ Detail l +:+ nl +:+ nl.



(** A lesson whose entry is 1015 bytes long, and a store whose similarity
    search returns it twice. *)
Definition longLesson : Lesson :=
  mkLesson "build_failure" "Flaky build"
           (String.concat "" (repeat "0123456789" 98)) 1.

Definition twiceDb : Database Z :=
  mkDatabase (fun _ _ _ => Ok []) (fun _ _ _ => Ok [longLesson; longLesson]).

End LessonFormat.

(* ===================================================================== *)
(** ** internal/cache/redis.go: Get, Delete, Clear and the invalidations *)
(* ===================================================================== *)

Module CacheOps.
Import Go Cache.

Local Open Scope string_scope.
Local Open Scope Z_scope.
Local Open Scope list_scope.

(** The counters of [Stats] that the cache updates, [int64] each. *)
Record Stats := mkStats {
  StatsHits : Z;
  StatsMisses : Z;
  StatsTokensSaved : Z;
}.

(** [client.Get(ctx, key).Result()]: the value, [redis.Nil] for a key that
    is not there, or another error.  [kv] holds the keys that are live when
    the command arrives. *)
Inductive reply :=
| Value (val : string)
| Nil
| Failed (e : string).

Definition redis_Get (r : Redis) (key : string) : reply :=
  if reachable r then
    match kv r !! key with
    | Some (data, _) => Value data
    | None => Nil
    end
  else Failed "dial tcp: connection refused".

(** [client.Del(ctx, key)]; the result is not looked at. *)
Definition redis_Del (r : Redis) (key : string) : Redis :=
  if reachable r then mkRedis (delete key (kv r)) true else r.

(** [time.Until(t)]. *)
Definition time_Until (now t : Time) : Duration := Time_Sub t now.

Definition with_hits (e : Entry) (hits : Z) : Entry :=
  mkEntry (Key e) (Response e) (Metadata e) (CachedAt e) (ExpiresAt e) hits
          (ProviderID e) (ModelName e) (TokensSaved e).

Definition miss (stats : Stats) : Stats :=
  mkStats (StatsHits stats) (int_add (StatsMisses stats) 1) (StatsTokensSaved stats).

Section Ops.
(** [json.Unmarshal] and [json.Marshal] at [Entry]. *)
Variable unmarshal_entry : string -> result Entry.
Variable marshal_entry : Entry -> result string.

(** [RedisCache.Get]: the cache and the counters as the call leaves them,
    and the entry ([None] is the pair [nil, false]).  [now] is the reading
    of the clock in [time.Until]. *)
Definition RedisCache_Get (rc : RedisCache) (stats : Stats) (now : Time) (key : string)
  : RedisCache * Stats * option Entry :=
  if negb (Enabled (config rc)) then (rc, stats, None)
  else
    match redis_Get (client rc) ("cache:" +:+ key) with
    | Nil => (rc, miss stats, None)
    | Failed _ => (rc, miss stats, None)
    | Value val =>
        match unmarshal_entry val with
        | Err _ =>
            (mkCache (redis_Del (client rc) ("cache:" +:+ key)) (config rc), miss stats, None)
        | Ok entry =>
            let stats :=
              mkStats (int_add (StatsHits stats) 1) (StatsMisses stats)
                      (int_add (StatsTokensSaved stats) (TokensSaved entry)) in
            let entry := with_hits entry (int_add (Hits entry) 1) in
            let rc :=
              match marshal_entry entry with
              | Ok data =>
                  let ttl := time_Until now (ExpiresAt entry) in
                  if 0 <? ttl
                  then mkCache (redis_Set (client rc) ("cache:" +:+ key) data ttl).1 (config rc)
                  else rc
              | Err _ => rc
              end in
            (rc, stats, Some entry)
        end
    end.

(** [RedisCache.Delete]. *)
Definition RedisCache_Delete (rc : RedisCache) (key : string) : RedisCache :=
  if negb (Enabled (config rc)) then rc
  else mkCache (redis_Del (client rc) ("cache:" +:+ key)) (config rc).

(** [RedisCache.Clear]; [keys] is the sequence of keys the iterator of
    [Scan(ctx, 0, "cache:*", 0)] yields. *)
Definition RedisCache_Clear (rc : RedisCache) (keys : list string) : RedisCache :=
  if negb (Enabled (config rc)) then rc
  else mkCache (fold_left redis_Del keys (client rc)) (config rc).

(** One pass of the loop of [invalidateByMetadata]; the state is the server
    and [removed]. *)
Definition invalidateStep (field value : string) (st : Redis * Z) (key : string) : Redis * Z :=
  let '(r, removed) := st in
  match redis_Get r key with
  | Value val =>
      match unmarshal_entry val with
      | Ok entry =>
          let shouldInvalidate :=
            if String.eqb field "provider_id" then String.eqb (ProviderID entry) value
            else if String.eqb field "model_name" then String.eqb (ModelName entry) value
            else false in
          if shouldInvalidate then (redis_Del r key, int_add removed 1) else (r, removed)
      | Err _ => (r, removed)
      end
  | _ => (r, removed)
  end.

Definition invalidateByMetadata (rc : RedisCache) (keys : list string) (field value : string)
  : RedisCache * Z :=
  let '(r, removed) := fold_left (invalidateStep field value) keys (client rc, 0) in
  (mkCache r (config rc), removed).

Definition InvalidateByProvider (rc : RedisCache) (keys : list string) (providerID : string)
  : RedisCache * Z :=
  if negb (Enabled (config rc)) then (rc, 0)
  else invalidateByMetadata rc keys "provider_id" providerID.

Definition InvalidateByModel (rc : RedisCache) (keys : list string) (modelName : string)
  : RedisCache * Z :=
  if negb (Enabled (config rc)) then (rc, 0)
  else invalidateByMetadata rc keys "model_name" modelName.

(** One pass of the loop of [InvalidateByAge]. *)
Definition ageStep (threshold : Time) (st : Redis * Z) (key : string) : Redis * Z :=
  let '(r, removed) := st in
  match redis_Get r key with
  | Value val =>
      match unmarshal_entry val with
      | Ok entry =>
          if CachedAt entry <? threshold then (redis_Del r key, int_add removed 1)
          else (r, removed)
      | Err _ => (r, removed)
      end
  | _ => (r, removed)
  end.

Definition InvalidateByAge (rc : RedisCache) (now : Time) (keys : list string)
    (maxAge : Duration) : RedisCache * Z :=
  if negb (Enabled (config rc)) then (rc, 0)
  else
    let threshold := now + int_wrap (- maxAge) in
    let '(r, removed) := fold_left (ageStep threshold) keys (client rc, 0) in
    (mkCache r (config rc), removed).

(** [InvalidateByPattern]; [keys] is what the iterator of
    [Scan(ctx, 0, "cache:"+pattern+"*", 0)] yields. *)
Definition InvalidateByPattern (rc : RedisCache) (keys : list string) (pattern : string)
  : RedisCache * Z :=
  if negb (Enabled (config rc)) then (rc, 0)
  else
    let '(r, removed) :=
      fold_left (fun st key => (redis_Del st.1 key, int_add st.2 1)) keys (client rc, 0) in
    (mkCache r (config rc), removed).

End Ops.

(** What an invalidation by a test [p] on the entries does to the server,
    given the keys it was handed: nothing is added or changed; a key is gone
    only if it was handed over and held an entry that parses and passes the
    test; on a reachable server every such key is gone; and [removed] is the
    number of keys that are gone. *)
Definition removes_exactly (unmarshal_entry : string -> result Entry) (p : Entry -> bool)
    (keys : list string) (r r' : Redis) (removed : Z) : Prop :=
  (forall k v, kv r' !! k = Some v -> kv r !! k = Some v)
  /\ (forall k v, kv r !! k = Some v -> kv r' !! k = None ->
        k ∈ keys /\ exists e, unmarshal_entry v.1 = Ok e /\ p e = true)
  /\ (reachable r = true ->
      forall k v e, k ∈ keys -> kv r !! k = Some v -> unmarshal_entry v.1 = Ok e ->
                    p e = true -> kv r' !! k = None)
  /\ removed = Z.of_nat (size (kv r)) - Z.of_nat (size (kv r')).

End CacheOps.

Module CacheOpsSpec.
Import Go Cache CacheSpec CacheOps.

Local Open Scope string_scope.
Local Open Scope Z_scope.
Local Open Scope list_scope.

(** A decoder for running the cache: it reads back the texts [textEntry]
    prints for the listed entries and rejects every other text. *)
Definition readKnown (known : list Entry) (data : string) : result Entry :=
  match List.find (fun e => match textEntry e with
                            | Ok d => String.eqb d data
                            | Err _ => false
                            end) known with
  | Some e => Ok e
  | None => Err "invalid character"
  end.

Definition noStats : Stats := mkStats 0 0 0.

(** A server that holds the entry of p1 under k, an entry of p2 under k2 and
    a text that does not parse under k3. *)
Definition entryK2 : Entry :=
  newEntry stringFromMap int64FromMap emptyCache clock clock "k2"
           (VString "answer of p2") Hour (meta "p2" "m2").

Definition mixedCache : RedisCache :=
  let rc := (RedisCache_Set stringFromMap int64FromMap textEntry cacheWithP1 clock clock "k2"
               (VString "answer of p2") Hour (meta "p2" "m2")).1 in
  mkCache (mkRedis (<["cache:k3" := ("{broken", Hour)]> (kv (client rc))) true) (config rc).

Definition disabledCache : RedisCache :=
  mkCache (client mixedCache) (mkConfig false Hour).

End CacheOpsSpec.

(* ===================================================================== *)
(** ** internal/memory: the lesson extractor *)
(* ===================================================================== *)

Module Extractor.
Import Go.

Local Open Scope string_scope.
Local Open Scope Z_scope.
Local Open Scope list_scope.

Record ActionEntry := mkActionEntry {
  Iteration : Z;
  ActionType : string;
  Status : string;
  Message : string;
  Path : string;
}.

Record extractedLesson := mkExtracted {
  title : string;
  detail : string;
}.

(** [truncateStr]; the slice expression [s[:maxLen]] panics when [maxLen] is
    negative, which is [None]. *)
Definition truncateStr (s : string) (maxLen : Z) : option string :=
  if Z.of_nat (String.length s) <=? maxLen then Some s
  else if maxLen <? 0 then None
  else Some (String.substring 0 (Z.to_nat maxLen) s).

(** The loop of [extractBuildPatterns] and of [extractTestPatterns], which
    differ in the action type they look for; [failures] is the slice built so
    far. *)
Fixpoint failureMessages (actionType : string) (entries : list ActionEntry)
    (failures : list string) : option (list string) :=
  match entries with
  | [] => Some failures
  | e :: rest =>
      if String.eqb (ActionType e) actionType && String.eqb (Status e) "error" then
        match truncateStr (Message e) 200 with
        | Some message => failureMessages actionType rest (failures ++ [message])
        | None => None
        end
      else failureMessages actionType rest failures
  end.

Definition extractBuildPatterns (entries : list ActionEntry) : option (list extractedLesson) :=
  match failureMessages "build_project" entries [] with
  | None => None
  | Some failures =>
      if (length failures <? 2)%nat then Some []
      else
        Some [ mkExtracted
                 ("Repeated build failures (" +:+ fmt_d (Z.of_nat (length failures))
                  +:+ " times)")
                 ("Build failed multiple times: "
                  +:+ String.concat "; " (take (Nat.min (length failures) 3) failures)) ]
  end.

Definition extractTestPatterns (entries : list ActionEntry) : option (list extractedLesson) :=
  match failureMessages "run_tests" entries [] with
  | None => None
  | Some failures =>
      if (length failures <? 2)%nat then Some []
      else
        Some [ mkExtracted
                 ("Repeated test failures (" +:+ fmt_d (Z.of_nat (length failures))
                  +:+ " times)")
                 ("Tests failed multiple times: "
                  +:+ String.concat "; " (take (Nat.min (length failures) 3) failures)) ]
  end.

(** The em dash of the detail texts, three bytes in UTF-8. *)
Definition emDash : string :=
  String (ascii_of_nat 226) (String (ascii_of_nat 128) (String (ascii_of_nat 148) "")).

(** The first loop of [extractEditPatterns]: the map [pathFailures]. *)
Definition countEdit (pathFailures : gmap string Z) (e : ActionEntry) : gmap string Z :=
  if (String.eqb (ActionType e) "apply_patch" || String.eqb (ActionType e) "edit_code")
     && String.eqb (Status e) "error" then
    if negb (String.eqb (Path e) "")
    then <[Path e := int_add (default 0 (pathFailures !! Path e)) 1]> pathFailures
    else pathFailures
  else pathFailures.

Definition editLesson (path : string) (count : Z) : extractedLesson :=
  mkExtracted ("Repeated edit failures on " +:+ path)
              ("File " +:+ path +:+ " had " +:+ fmt_d count +:+ " edit failures " +:+ emDash
               +:+ " may need different approach").

(** [extractEditPatterns]; [range] lists the map in the order the second
    loop visits it. *)
Definition extractEditPatterns (range : gmap string Z -> list (string * Z))
    (entries : list ActionEntry) : list extractedLesson :=
  let pathFailures := fold_left countEdit entries ∅ in
  fold_left (fun lessons pc => if 2 <=? pc.2 then lessons ++ [editLesson pc.1 pc.2] else lessons)
            (range pathFailures) [].

Definition extractTerminalInsight (reason : string) (totalActions : Z) : option extractedLesson :=
  if String.eqb reason "max_iterations" then
    Some (mkExtracted "Task hit max iterations"
            ("Task exhausted all iterations with " +:+ fmt_d totalActions
             +:+ " total actions " +:+ emDash +:+ " may be too complex for single bead"))
  else if String.eqb reason "inner_loop" then
    Some (mkExtracted "Agent stuck in action loop"
            ("Agent repeated the same actions " +:+ emDash
             +:+ " needs clearer guidance or different approach"))
  else if String.eqb reason "parse_failures" then
    Some (mkExtracted "Agent produced unparseable responses"
            ("Agent failed to produce valid JSON actions " +:+ emDash
             +:+ " may need simpler prompt or different model"))
  else None.

(** [models.Lesson], the fields [ExtractFromLoop] sets. *)
Record Lesson := mkLesson {
  ID : string;
  ProjectID : string;
  Category : string;
  Title : string;
  Detail : string;
  SourceBeadID : string;
  CreatedAt : Time;
  RelevanceScore : Q;
}.

Section Loop.
Variable float32 : Type.

(** A call on the [LessonStore].  What the store answers only reaches the
    log. *)
Inductive storeCall :=
| StoreLessonWithEmbedding (lesson : Lesson) (embedding : list float32)
| CreateLesson (lesson : Lesson).

(** The extractor: whether it has a store, and its embedder, which may be
    nil. *)
Record Extractor := mkExtractor {
  store : bool;
  embedder : option (list string -> result (list (list float32)));
}.

Variable range : gmap string Z -> list (string * Z).
(** [uuid.New().String()] and [time.Now()] in the pass for the [i]-th
    lesson. *)
Variable uuid_New : nat -> string.
Variable time_Now : nat -> Time.

(** The body of the storing loop: the call it makes for one lesson. *)
Definition storeOne (e : Extractor) (projectID beadID : string) (i : nat) (l : extractedLesson)
  : storeCall :=
  let lesson :=
    mkLesson (uuid_New i) projectID "conversation_insight" (title l) (detail l) beadID
             (time_Now i) 1 in
  match embedder e with
  | Some embed =>
      match embed [title l +:+ " " +:+ detail l] with
      | Ok (embedding :: _) =>
          if (0 <? length embedding)%nat then StoreLessonWithEmbedding lesson embedding
          else CreateLesson lesson
      | _ => CreateLesson lesson
      end
  | None => CreateLesson lesson
  end.

(** [ExtractFromLoop]: the calls made on the store, in order; [None] is a
    panic. *)
Definition ExtractFromLoop (e : option Extractor) (projectID beadID : string)
    (entries : list ActionEntry) (terminalReason : string) : option (list storeCall) :=
  match e with
  | None => Some []
  | Some e =>
      if negb (store e) || (length entries =? 0)%nat then Some []
      else
        match extractBuildPatterns entries, extractTestPatterns entries with
        | Some build, Some test =>
            let lessons := build ++ test ++ extractEditPatterns range entries in
            let lessons :=
              match extractTerminalInsight terminalReason (Z.of_nat (length entries)) with
              | Some insight => lessons ++ [insight]
              | None => lessons
              end in
            Some (imap (storeOne e projectID beadID) lessons)
        | _, _ => None
        end
  end.

End Loop.

Arguments StoreLessonWithEmbedding {float32}.
Arguments CreateLesson {float32}.
Arguments mkExtractor {float32}.

(** The lesson a call carries. *)
Definition lesson_of {float32} (c : storeCall float32) : Lesson :=
  match c with
  | StoreLessonWithEmbedding lesson _ => lesson
  | CreateLesson lesson => lesson
  end.

(** The entries that count as failures of an action type, and the failed
    edits of a path. *)
Definition failed (actionType : string) (e : ActionEntry) : bool :=
  String.eqb (ActionType e) actionType && String.eqb (Status e) "error".

Definition failedEdit (path : string) (e : ActionEntry) : bool :=
  (String.eqb (ActionType e) "apply_patch" || String.eqb (ActionType e) "edit_code")
  && String.eqb (Status e) "error" && String.eqb (Path e) path.

Definition editFailures (path : string) (entries : list ActionEntry) : Z :=
  Z.of_nat (length (List.filter (failedEdit path) entries)).

(** Sample log entries. *)
Definition buildError (message : string) : ActionEntry :=
  mkActionEntry 1 "build_project" "error" message "".
Definition editError (path : string) : ActionEntry :=
  mkActionEntry 1 "edit_code" "error" "patch does not apply" path.

Definition sampleLog : list ActionEntry :=
  [ buildError "undefined: foo"; editError "main.go"; buildError "undefined: bar";
    editError "util.go"; editError "main.go";
    mkActionEntry 2 "build_project" "success" "" "" ].

End Extractor.

(* ===================================================================== *)
(** ** The loop detector: properties *)
(* ===================================================================== *)

Module SHA256Facts.
Import Go SHA256.

Example round_constants :
  length K = 64%nat /\ nth 0 K 0 = 0x428a2f98 /\ nth 63 K 0 = 0xc67178f2
  /\ nth 0 H0 0 = 0x6a09e667 /\ nth 7 H0 0 = 0x5be0cd19.
Proof. vm_compute. done. Qed.

(** The test vector of FIPS 180-2 for the one-block message abc, and the
    digest of the empty message. *)
Example sha256_abc :
  hex_EncodeToString (Sum256 (bytes_of_string "abc"))
  = "ba7816bf8f01cfea414140de5dae2223b00361a396177a9cb410ff61f20015ad"%string.
Proof. vm_compute. reflexivity. Qed.

Example sha256_empty :
  hex_EncodeToString (Sum256 [])
  = "e3b0c44298fc1c149afbf4c8996fb92427ae41e4649b934ca495991b7852b855"%string.
Proof. vm_compute. reflexivity. Qed.

End SHA256Facts.

Module LoopDetectorFacts.
Import Go LoopDetector LoopSpec.

Local Open Scope string_scope.
Local Open Scope Z_scope.
Local Open Scope list_scope.

(** *** Go integers *)

Lemma int_add_no_overflow (x : Z) :
  - 2 ^ 63 <= x < MaxInt -> int_add x 1 = x + 1.
Proof.
  intros Hx. unfold int_add, int_wrap, wrap_signed, MaxInt in *.
  rewrite Z.mod_small; lia.
Qed.

Lemma int_mul_2_small (x : Z) :
  0 <= x < 2 ^ 62 -> int_mul x 2 = 2 * x.
Proof.
  intros Hx. unfold int_mul, int_wrap, wrap_signed.
  rewrite Z.mod_small; lia.
Qed.

Lemma int_mul_2_large (x : Z) :
  2 ^ 62 <= x < 2 ^ 63 -> int_mul x 2 < 0.
Proof.
  intros Hx. unfold int_mul, int_wrap, wrap_signed.
  replace (x * 2 + 2 ^ (64 - 1)) with ((x * 2 - 2 ^ 63) + 1 * 2 ^ 64) by lia.
  rewrite Z.mod_add by lia. rewrite Z.mod_small; lia.
Qed.

(** *** The progress key *)

Section Keys.

Lemma progressKeyData_primary_target (action : ActionRecord) :
  progressKeyData action = ActionType action +:+ ":" +:+ primary_target action.
Proof.
  unfold progressKeyData, primary_target.
  destruct (ActionData action !! "command") as [[| | |command| |]|];
    destruct (ActionData action !! "file_path") as [[| | |filePath| |]|];
    reflexivity.
Qed.

(** C2, as amended.  The key is the hex of the first 8 bytes of the SHA-256
    of [type + ":" + primary_target], where the primary target is
    [data.command] when that is a string, else [data.file_path] when that is
    a string, else the [%v] rendering of the data; so an action with both
    strings is keyed by its command, and two actions with the same type and
    the same primary target get the same key whatever their other fields. *)
Theorem C2_progress_key_command_first :
  (forall action,
     generateProgressKey action
     = key_of (ActionType action +:+ ":" +:+ primary_target action))
  /\ (forall action filePath command,
        ActionData action !! "file_path" = Some (VString filePath) ->
        ActionData action !! "command" = Some (VString command) ->
        generateProgressKey action = key_of (ActionType action +:+ ":" +:+ command))
  /\ (forall a b,
        ActionType a = ActionType b -> primary_target a = primary_target b ->
        generateProgressKey a = generateProgressKey b).
Proof.
  assert (Hkey : forall action,
             generateProgressKey action
             = key_of (ActionType action +:+ ":" +:+ primary_target action)).
  { intros action. unfold generateProgressKey, key_of.
    by rewrite progressKeyData_primary_target. }
  split; [exact Hkey|]. split.
  - intros action filePath command _ Hc. rewrite Hkey.
    unfold primary_target. by rewrite Hc.
  - intros a b Hty Hpt. rewrite !Hkey. by rewrite Hty, Hpt.
Qed.

Lemma C2_witness :
  generateProgressKey editWithCommand = key_of "edit_file:ls"
  /\ generateProgressKey editWithCommand
     = generateProgressKey (mkAction 7 "agent-2" "edit_file" {[ "command" := VString "ls" ]} "r" "k").
Proof.
  destruct C2_progress_key_command_first as (_ & Hboth & Hsame). split.
  - apply (Hboth editWithCommand "a.go" "ls"); reflexivity.
  - apply Hsame; reflexivity.
Defined.

(** C2 as stated fails: with both a file path and a command in the data the
    key is not the one derived from the file path, and two actions with the
    same type and file path get different keys when their commands differ. *)
Lemma C2_counterexample :
  primary_target_by_file_path editWithCommand = "a.go"
  /\ generateProgressKey editWithCommand <> key_of "edit_file:a.go"
  /\ generateProgressKey editWithCommand
     <> generateProgressKey (act "edit_file" {[ "file_path" := VString "a.go" ]}).
Proof.
  split; [reflexivity|]. split; vm_compute; discriminate.
Qed.

Example key_read_file_test_go :
  generateProgressKey (readFile "test.go") = "4678e4c9b9f231d1".
Proof. vm_compute. reflexivity. Qed.

End Keys.


(** *** Recording *)

Section Recording.
Context {J : Json}.

Lemma bumpMetrics_classify (m : ProgressMetrics) (actionType : string) (now : Time) :
  bumpMetrics m actionType now
  = match classify actionType with
    | Some c => incremented c now m
    | None => m
    end.
Proof.
  unfold bumpMetrics, classify.
  assert (Hex : forall l, existsb (String.eqb actionType) l = bool_decide (actionType ∈ l)).
  { induction l as [|x l IH]; cbn [existsb].
    - symmetry. apply bool_decide_eq_false_2. by intros ?%elem_of_nil.
    - rewrite IH. destruct (String.eqb_spec actionType x) as [->|Hne]; simpl.
      + symmetry. apply bool_decide_eq_true_2. left.
      + destruct (decide (actionType ∈ l)) as [Hin|Hnin].
        * rewrite !bool_decide_eq_true_2; [done| by right | done].
        * rewrite !bool_decide_eq_false_2; [done| |done].
          by intros [?|?]%elem_of_cons. }
  rewrite !Hex.
  repeat (case_bool_decide; [by destruct m|]). by destruct m.
Qed.

Lemma last_drop_lt {A} (l : list A) (n : nat) :
  (n < length l)%nat -> last (drop n l) = last l.
Proof.
  intros Hn. rewrite !last_lookup, lookup_drop, length_drop.
  f_equal. lia.
Qed.

Lemma keep_last_50 {A} (l : list A) :
  let kept := if (50 <? length l)%nat then drop (length l - 50) l else l in
  kept = drop (length l - 50) l /\ (length kept <= 50)%nat.
Proof.
  simpl. destruct (Nat.ltb_spec 50 (length l)) as [Hlt|Hge].
  - split; [done|]. rewrite length_drop. lia.
  - replace (length l - 50)%nat with 0%nat by lia. rewrite drop_0. split; [done|lia].
Qed.

(** C4.  A call of [RecordAction] that returns no error leaves in the
    context the marshalled history [history'], which ends with the action
    just recorded (carrying its progress key), has at most 50 entries and is
    the most recent 50 of the previous history followed by that action; the
    metrics it stores have the counter of the action's class incremented and
    [last_progress] set to the current time, and are the previous metrics
    when the action belongs to no class. *)
Theorem C4_record_appends_truncates_and_counts
    (ld : LoopDetector) (bead bead' : Bead) (action : ActionRecord) (now : Time) :
  RecordAction ld bead action now = (bead', None) ->
  let recorded := with_key action (generateProgressKey action) in
  let previous := match getActionHistory bead with Ok h => h | Err _ => [] end in
  let metrics0 := loadMetrics (default ∅ (Context bead)) in
  let metrics' := bumpMetrics metrics0 (ActionType action) now in
  exists ctx' history' historyJSON,
    Context bead' = Some ctx'
    /\ marshal_history history' = Ok historyJSON
    /\ ctx' !! "action_history" = Some historyJSON
    /\ last history' = Some recorded
    /\ (length history' <= 50)%nat
    /\ history' = drop (length (previous ++ [recorded]) - 50) (previous ++ [recorded])
    /\ (forall metricsJSON,
          marshal_metrics metrics' = Ok metricsJSON ->
          ctx' !! "progress_metrics" = Some metricsJSON)
    /\ metrics' = match classify (ActionType action) with
                  | Some c => incremented c now metrics0
                  | None => metrics0
                  end.
Proof.
  intros Hrec recorded previous metrics0 metrics'.
  unfold RecordAction in Hrec.
  set (ctx := default ∅ (Context bead)) in *.
  assert (Hprev : match getActionHistory (mkBead (ID bead) (Some ctx)) with
                  | Ok h => h | Err _ => [] end = previous).
  { unfold previous, getActionHistory, ctx. simpl.
    destruct (Context bead) as [c|]; simpl; [done|].
    unfold ctx_get. by rewrite lookup_empty. }
  rewrite Hprev in Hrec. fold recorded in Hrec.
  destruct (keep_last_50 (previous ++ [recorded])) as [Hkept Hlen].
  set (kept := if (50 <? length (previous ++ [recorded]))%nat
               then drop (length (previous ++ [recorded]) - 50) (previous ++ [recorded])
               else previous ++ [recorded]) in *.
  destruct (marshal_history kept) as [historyJSON|e] eqn:Hm; [|discriminate].
  injection Hrec as Hbead.
  assert (Hload : loadMetrics (<["action_history" := historyJSON]> ctx) = metrics0).
  { unfold loadMetrics, metrics0, ctx_get. fold ctx. by rewrite lookup_insert_ne. }
  unfold updateProgressMetrics in Hbead. simpl in Hbead.
  rewrite Hload in Hbead. simpl in Hbead. fold metrics' in Hbead.
  assert (Hlast : last kept = Some recorded).
  { rewrite Hkept. rewrite last_drop_lt; [apply last_snoc|].
    rewrite length_app. simpl. lia. }
  destruct (marshal_metrics metrics') as [metricsJSON|e] eqn:Hmm; subst bead'.
  - exists (<["progress_metrics" := metricsJSON]> (<["action_history" := historyJSON]> ctx)),
      kept, historyJSON.
    split_and!; try done.
    + rewrite lookup_insert_ne by done. apply lookup_insert_eq.
    + intros ? [= <-]. apply lookup_insert_eq.
    + apply bumpMetrics_classify.
  - exists (<["action_history" := historyJSON]> ctx), kept, historyJSON.
    split_and!; try done.
    + apply lookup_insert_eq.
    + apply bumpMetrics_classify.
Qed.

(** *** A history that does not parse *)

(** C10.  When the stored [action_history] does not parse, [IsStuckInLoop]
    answers [(false, "")]; [RecordAction] starts over from the empty history:
    if the one-element history marshals, it is stored and no error is
    returned, and an error is returned only when that marshalling fails. *)
Theorem C10_corrupt_history_is_discarded
    (range : gmap string Z -> list (string * Z))
    (ld : LoopDetector) (bead : Bead) (action : ActionRecord) (now : Time) (e : string) :
  getActionHistory bead = Err e ->
  let recorded := with_key action (generateProgressKey action) in
  IsStuckInLoop range ld bead now = (false, "")
  /\ (forall historyJSON,
        marshal_history [recorded] = Ok historyJSON ->
        exists ctx',
          RecordAction ld bead action now = (mkBead (ID bead) (Some ctx'), None)
          /\ ctx' !! "action_history" = Some historyJSON)
  /\ (forall bead' err,
        RecordAction ld bead action now = (bead', Some err) ->
        exists e', marshal_history [recorded] = Err e'
                   /\ err = "failed to marshal action history: " +:+ e').
Proof.
  intros Hget recorded.
  assert (Hctx : exists ctx, Context bead = Some ctx).
  { unfold getActionHistory in Hget. destruct (Context bead); [eauto|discriminate]. }
  destruct Hctx as [ctx Hctx].
  assert (Hget' : getActionHistory (mkBead (ID bead) (Some ctx)) = Err e).
  { unfold getActionHistory in *. simpl. by rewrite Hctx in Hget. }
  split_and!.
  - unfold IsStuckInLoop. by rewrite Hget.
  - intros historyJSON Hm. unfold RecordAction.
    rewrite Hctx. simpl. rewrite Hget'. simpl. fold recorded. rewrite Hm.
    unfold updateProgressMetrics. simpl.
    destruct (marshal_metrics _) as [metricsJSON|?]; eexists; (split; [reflexivity|]).
    + rewrite lookup_insert_ne by done. apply lookup_insert_eq.
    + apply lookup_insert_eq.
  - intros bead' err. unfold RecordAction.
    rewrite Hctx. simpl. rewrite Hget'. simpl. fold recorded.
    destruct (marshal_history [recorded]) as [s|e']; [discriminate|].
    intros [= _ <-]. by exists e'.
Qed.

(** *** Sequences of calls *)

Lemma drop_drop_snoc {A} (l : list A) (x : A) (n : nat) :
  (0 < n)%nat ->
  drop (length (drop (length l - n) l ++ [x]) - n) (drop (length l - n) l ++ [x])
  = drop (length (l ++ [x]) - n) (l ++ [x]).
Proof.
  intros Hn. rewrite !length_app, length_drop. cbn [length].
  destruct (Nat.le_gt_cases (length l) n) as [Hle|Hgt].
  - replace (length l - n)%nat with 0%nat by lia. rewrite drop_0.
    by replace (length l - 0)%nat with (length l) by lia.
  - replace (length l - (length l - n) + 1 - n)%nat with 1%nat by lia.
    rewrite drop_app_le by (rewrite length_drop; lia). rewrite drop_drop.
    rewrite (drop_app_le l) by lia. do 2 f_equal. lia.
Qed.

(** With a codec that reads back what it stores, a call of [RecordAction]
    leaves the most recent 50 of the previous history and the new action. *)
Lemma RecordAction_history
    (ld : LoopDetector) (bead : Bead) (action : ActionRecord) (now : Time)
    (previous : list ActionRecord) :
  history_roundtrip ->
  getActionHistory bead = Ok previous ->
  (RecordAction ld bead action now).2 = None
  /\ getActionHistory (RecordAction ld bead action now).1
     = Ok (last50 (previous ++ [with_key action (generateProgressKey action)])).
Proof.
  intros Hrt Hget. unfold RecordAction.
  set (ctx := default ∅ (Context bead)).
  assert (Hget' : getActionHistory (mkBead (ID bead) (Some ctx)) = Ok previous).
  { unfold getActionHistory in *. unfold ctx. cbn [Context].
    destruct (Context bead) as [c|]; [done|]. cbn. unfold ctx_get.
    rewrite lookup_empty in *. done. }
  rewrite Hget'. set (recorded := with_key action (generateProgressKey action)).
  destruct (keep_last_50 (previous ++ [recorded])) as [Hkept _]. cbv zeta in Hkept.
  rewrite Hkept. fold (last50 (previous ++ [recorded])).
  destruct (Hrt (last50 (previous ++ [recorded]))) as (s & Hm & Hne & Hu).
  rewrite Hm. split; [done|]. cbn [fst].
  unfold updateProgressMetrics. cbn [Context ID default].
  assert (Hread : forall c : gmap string string,
             c !! "action_history" = Some s ->
             getActionHistory (mkBead (ID bead) (Some c))
             = Ok (last50 (previous ++ [recorded]))).
  { intros c Hc. unfold getActionHistory, ctx_get. cbn [Context]. rewrite Hc.
    change (default "" (Some s)) with s.
    destruct (String.eqb_spec s ""); [done|]. exact Hu. }
  destruct (marshal_metrics _); apply Hread.
  - rewrite lookup_insert_ne by done. apply lookup_insert_eq.
  - apply lookup_insert_eq.
Qed.

(** After any sequence of calls on such a codec, starting from an empty
    context, the stored history is the most recent 50 of the recorded
    actions. *)
Lemma recordAll_history (ld : LoopDetector) (actions : list ActionRecord) (now : Time) :
  history_roundtrip ->
  getActionHistory (recordAll ld actions now) = Ok (last50 (map keyed actions)).
Proof.
  intros Hrt. induction actions as [|a actions IH] using rev_ind.
  - cbn. unfold getActionHistory, ctx_get. cbn. by rewrite lookup_empty.
  - unfold recordAll in *. rewrite fold_left_app. cbn [fold_left].
    destruct (RecordAction_history ld _ a now _ Hrt IH) as [_ ->].
    rewrite map_app. cbn [map]. fold (keyed a). unfold last50. f_equal.
    apply drop_drop_snoc. lia.
Qed.

End Recording.


(** *** The counting loop and the runs of the window *)

Section Patterns.

Lemma countLoop_openRuns (th : Z) (l : list ActionRecord) pc lastKey cc :
  (let '(pc', lastKey', cc') := fold_left (countStep th) l (pc, lastKey, cc) in
   flush th pc' (lastKey', cc'))
  = fold_left (flush th) (openRuns lastKey cc (map ProgressKey l)) pc.
Proof.
  revert pc lastKey cc. induction l as [|a l IH]; intros pc lastKey cc; [done|].
  cbn [fold_left map openRuns]. unfold countStep at 2.
  destruct (String.eqb (ProgressKey a) lastKey); [apply IH|].
  rewrite IH. reflexivity.
Qed.

Lemma cons_run_head (k : string) (c : Z) (rs : list (string * Z)) :
  exists n tl, cons_run k c rs = (k, n) :: tl.
Proof.
  unfold cons_run. destruct rs as [|[k' n] tl]; [eauto|].
  destruct (String.eqb k k'); eauto.
Qed.

Lemma cons_run_cons_run_same (k : string) (c : Z) (rs : list (string * Z)) :
  cons_run k c (cons_run k 1 rs) = cons_run k (c + 1) rs.
Proof.
  unfold cons_run. destruct rs as [|[k' n] tl].
  - by rewrite String.eqb_refl.
  - destruct (String.eqb k k') eqn:E.
    + rewrite String.eqb_refl. f_equal. f_equal. lia.
    + by rewrite String.eqb_refl.
Qed.

Lemma openRuns_runs (lastKey : string) (cc : Z) (keys : list string) :
  openRuns lastKey cc keys = cons_run lastKey cc (runs keys).
Proof.
  revert lastKey cc. induction keys as [|k keys IH]; intros lastKey cc; [done|].
  cbn [openRuns runs]. destruct (String.eqb_spec k lastKey) as [->|Hne].
  - by rewrite IH, cons_run_cons_run_same.
  - rewrite IH. destruct (cons_run_head k 1 (runs keys)) as (n & tl & ->).
    cbn [cons_run]. destruct (String.eqb_spec lastKey k) as [->|_]; done.
Qed.

Lemma flush_zero (th : Z) (m : gmap string Z) (k : string) :
  1 <= th -> flush th m (k, 0) = m.
Proof.
  intros Hth. unfold flush. cbn [fst snd].
  destruct (Z.leb_spec th 0); [exfalso; lia|done].
Qed.

Lemma patternCounts_runs (th : Z) (recent : list ActionRecord) :
  1 <= th ->
  patternCounts th recent = fold_left (flush th) (runs (map ProgressKey recent)) ∅.
Proof.
  intros Hth. unfold patternCounts.
  pose proof (countLoop_openRuns th recent ∅ "" 0) as H.
  destruct (fold_left (countStep th) recent (∅, "", 0)) as [[pc lastKey] cc].
  unfold flush at 1 in H. cbn [fst snd] in H. rewrite H, openRuns_runs.
  unfold cons_run. destruct (runs (map ProgressKey recent)) as [|[k n] tl].
  - cbn [fold_left]. by rewrite flush_zero.
  - destruct (String.eqb_spec "" k) as [<-|_]; [done|].
    cbn [fold_left]. by rewrite flush_zero.
Qed.

(** Every run is at least one key long, and the runs add up to the keys. *)
Lemma runs_total (keys : list string) :
  Forall (fun kn => 1 <= snd kn) (runs keys)
  /\ foldr (fun kn acc => snd kn + acc) 0 (runs keys) = Z.of_nat (length keys).
Proof.
  induction keys as [|k keys [IH1 IH2]]; [split; [constructor|done]|].
  cbn [runs length]. unfold cons_run.
  destruct (runs keys) as [|[k' n] tl] eqn:E.
  - split; [constructor; [cbn; lia|constructor]|]. cbn in *. lia.
  - inversion IH1 as [|? ? Hn Htl]; subst. cbn [snd] in Hn.
    destruct (String.eqb k k'); split.
    + constructor; [cbn; lia|done].
    + cbn [foldr snd] in *. lia.
    + constructor; [cbn; lia|]. constructor; [cbn; lia|done].
    + cbn [foldr snd] in *. lia.
Qed.

Lemma runs_bounds (keys : list string) (k : string) (n : Z) :
  (k, n) ∈ runs keys -> 1 <= n <= Z.of_nat (length keys).
Proof.
  destruct (runs_total keys) as [Hpos Hsum]. revert Hpos Hsum.
  generalize (Z.of_nat (length keys)) as total.
  induction (runs keys) as [|[k' n'] tl IH]; intros total Hpos Hsum Hin.
  - by apply elem_of_nil in Hin.
  - inversion Hpos as [|? ? Hn Htl]; subst. cbn [foldr snd] in *.
    assert (0 <= foldr (fun kn acc => snd kn + acc) 0 tl).
    { clear -Htl. induction Htl as [|[? ?] ? ? ? IH']; cbn in *; lia. }
    apply elem_of_cons in Hin as [[= -> ->]|Hin]; [lia|].
    specialize (IH _ Htl eq_refl Hin). lia.
Qed.

(** The map after the loop, in terms of the runs [rs] fed to it. *)
Lemma flush_fold_lookup (th : Z) (rs : list (string * Z)) (m : gmap string Z) k n :
  fold_left (flush th) rs m !! k = Some n ->
  m !! k = Some n \/ ((k, n) ∈ rs /\ th <= n).
Proof.
  revert m. induction rs as [|[k' n'] rs IH]; intros m Hl; [by left|].
  cbn [fold_left] in Hl. apply IH in Hl as [Hl|[Hin Hn]].
  - unfold flush in Hl. cbn [fst snd] in Hl.
    destruct (Z.leb_spec th n'); [|by left].
    destruct (decide (k' = k)) as [->|Hne].
    + rewrite lookup_insert_eq in Hl. injection Hl as ->. right. split; [left|done].
    + rewrite lookup_insert_ne in Hl by done. by left.
  - right. split; [by right|done].
Qed.

Lemma flush_fold_keeps (th : Z) (rs : list (string * Z)) (m : gmap string Z) k :
  is_Some (m !! k) -> is_Some (fold_left (flush th) rs m !! k).
Proof.
  revert m. induction rs as [|[k' n'] rs IH]; intros m Hm; [done|].
  cbn [fold_left]. apply IH. unfold flush. cbn [fst snd].
  destruct (th <=? n'); [|done].
  destruct (decide (k' = k)) as [->|Hne].
  - rewrite lookup_insert_eq. eauto.
  - by rewrite lookup_insert_ne.
Qed.

Lemma flush_fold_member (th : Z) (rs : list (string * Z)) (m : gmap string Z) k n :
  (k, n) ∈ rs -> th <= n -> is_Some (fold_left (flush th) rs m !! k).
Proof.
  revert m. induction rs as [|[k' n'] rs IH]; intros m Hin Hn.
  - by apply elem_of_nil in Hin.
  - cbn [fold_left]. apply elem_of_cons in Hin as [[= <- <-]|Hin]; [|by apply IH].
    apply flush_fold_keeps. unfold flush. cbn [fst snd].
    rewrite (proj2 (Z.leb_le th n)) by done. rewrite lookup_insert_eq. eauto.
Qed.

(** When no key has two runs that reach the threshold, the map holds exactly
    those runs. *)
Lemma flush_fold_once (th : Z) (rs : list (string * Z)) (m : gmap string Z) k n :
  NoDup (map fst (filter (fun kn => th <= snd kn) rs)) ->
  (k, n) ∈ rs -> th <= n ->
  fold_left (flush th) rs m !! k = Some n.
Proof.
  revert m. induction rs as [|[k' n'] rs IH]; intros m Hnd Hin Hn.
  - by apply elem_of_nil in Hin.
  - cbn [fold_left]. rewrite filter_cons in Hnd. cbn [snd] in Hnd.
    apply elem_of_cons in Hin as [[= <- <-]|Hin].
    + rewrite decide_True in Hnd by done. cbn [map fst] in Hnd.
      apply NoDup_cons in Hnd as [Hnotin _].
      destruct (fold_left (flush th) rs (flush th m (k, n)) !! k) as [n2|] eqn:E.
      * apply flush_fold_lookup in E as [E|[Hin2 Hn2]].
        -- unfold flush in E. cbn [fst snd] in E.
           rewrite (proj2 (Z.leb_le th n)) in E by done.
           by rewrite lookup_insert_eq in E.
        -- exfalso. apply Hnotin. apply list_elem_of_fmap.
           exists (k, n2). split; [done|]. apply list_elem_of_filter. done.
      * exfalso. assert (Hs : is_Some (fold_left (flush th) rs (flush th m (k, n)) !! k)).
        { apply flush_fold_keeps. unfold flush. cbn [fst snd].
          rewrite (proj2 (Z.leb_le th n)) by done. rewrite lookup_insert_eq. eauto. }
        rewrite E in Hs. by destruct Hs.
    + apply IH; [|done|done]. destruct (decide (th <= n')).
      * cbn [map] in Hnd. by apply NoDup_cons in Hnd as [_ ?].
      * done.
Qed.

(** The selection loop returns an entry with the greatest count. *)
Lemma maxLoop_spec (l : list (string * Z)) (p0 : string) (c0 : Z) :
  let '(p, c) := fold_left maxStep l (p0, c0) in
  ((p, c) = (p0, c0) \/ (p, c) ∈ l)
  /\ c0 <= c
  /\ Forall (fun kn => snd kn <= c) l.
Proof.
  revert p0 c0. induction l as [|[k n] l IH]; intros p0 c0.
  - cbn. split_and!; [by left|lia|constructor].
  - cbn [fold_left]. unfold maxStep at 2.
    destruct (Z.ltb_spec c0 n) as [Hlt|Hge].
    + specialize (IH k n). destruct (fold_left maxStep l (k, n)) as [p c].
      destruct IH as (Hmem & Hle & Hall). split_and!.
      * right. destruct Hmem as [->|Hmem]; [left|by right].
      * lia.
      * constructor; [done|done].
    + specialize (IH p0 c0). destruct (fold_left maxStep l (p0, c0)) as [p c].
      destruct IH as (Hmem & Hle & Hall). split_and!.
      * destruct Hmem as [Heq|Hmem]; [by left|right; by right].
      * done.
      * constructor; [cbn; lia|done].
Qed.

Lemma range_lookup (range : gmap string Z -> list (string * Z)) (m : gmap string Z) k n :
  RangeOrder range -> (k, n) ∈ range m <-> m !! k = Some n.
Proof.
  intros Hr. rewrite (Hr m). apply elem_of_map_to_list.
Qed.

(** [findRepeatedPattern] in terms of the map: either the map is empty and
    the answer is [("", 0)], or the answer is an entry of the map with the
    greatest count. *)
Lemma findRepeatedPattern_map
    (range : gmap string Z -> list (string * Z)) (ld : LoopDetector)
    (history : list ActionRecord) :
  RangeOrder range -> 1 <= repeatThreshold ld ->
  let m := fold_left (flush (repeatThreshold ld)) (runs (recentKeys history)) ∅ in
  let '(p, c) := findRepeatedPattern range ld history in
  (forall k n, m !! k = Some n -> n <= c)
  /\ ((m = ∅ /\ (p, c) = ("", 0)) \/ (m !! p = Some c /\ repeatThreshold ld <= c)).
Proof.
  intros Hr Hth m. unfold findRepeatedPattern.
  destruct (Z.ltb_spec (Z.of_nat (length history)) (repeatThreshold ld)) as [Hshort|Hlong].
  - assert (Hm : m = ∅).
    { apply map_eq. intros k. rewrite lookup_empty.
      destruct (m !! k) as [n|] eqn:E; [|done].
      apply flush_fold_lookup in E as [E|[Hin Hn]]; [by rewrite lookup_empty in E|].
      apply runs_bounds in Hin. unfold recentKeys in Hin. rewrite length_map in Hin.
      assert ((length (recentWindow history) <= length history)%nat).
      { unfold recentWindow. destruct (15 <? length history)%nat; [|done].
        rewrite length_drop. lia. }
      lia. }
    rewrite Hm. split; [intros k n; by rewrite lookup_empty|by left].
  - rewrite patternCounts_runs by done. fold (recentKeys history). fold m.
    pose proof (maxLoop_spec (range m) "" 0) as Hspec.
    destruct (fold_left maxStep (range m) ("", 0)) as [p c].
    destruct Hspec as (Hmem & Hle & Hall).
    assert (Hbound : forall k n, m !! k = Some n -> n <= c).
    { intros k n Hkn. apply (range_lookup range) in Hkn; [|done].
      rewrite Forall_forall in Hall. by apply (Hall (k, n)). }
    assert (Hq : forall k n, m !! k = Some n -> repeatThreshold ld <= n).
    { intros k n Hkn. apply flush_fold_lookup in Hkn as [E|[_ ?]]; [|done].
      by rewrite lookup_empty in E. }
    split; [done|]. destruct Hmem as [[= -> ->]|Hmem].
    + left. split; [|done]. apply map_eq. intros k. rewrite lookup_empty.
      destruct (m !! k) as [n|] eqn:E; [|done].
      pose proof (Hbound _ _ E). pose proof (Hq _ _ E). lia.
    + right. apply (range_lookup range) in Hmem; [|done]. split; [done|by eapply Hq].
Qed.

End Patterns.


(** *** The stuck query *)

Section Stuck.
Context {J : Json}.

Lemma NewLoopDetector_valid : valid_detector NewLoopDetector.
Proof. unfold valid_detector. cbn. lia. Qed.

Lemma SetRepeatThreshold_valid (ld : LoopDetector) (threshold : Z) :
  threshold < 2 ^ 63 -> valid_detector (SetRepeatThreshold ld threshold).
Proof.
  intros Hlt. unfold valid_detector, SetRepeatThreshold. cbn.
  destruct (Z.ltb_spec threshold 2); lia.
Qed.

Lemma rangeForward_order : RangeOrder rangeForward.
Proof. intros m. reflexivity. Qed.

Lemma rangeBackward_order : RangeOrder rangeBackward.
Proof. intros m. unfold rangeBackward. apply reverse_Permutation. Qed.

(** With enough history the length guard lets the query through, also when
    [repeatThreshold*2] wraps around. *)
Lemma length_guard_passes (ld : LoopDetector) (len : Z) :
  valid_detector ld -> 2 * repeatThreshold ld <= len ->
  (len <? int_mul (repeatThreshold ld) 2) = false.
Proof.
  intros [Hlo Hhi] Hlen. apply Z.ltb_ge.
  destruct (Z_lt_le_dec (repeatThreshold ld) (2 ^ 62)).
  - rewrite int_mul_2_small by lia. lia.
  - pose proof (int_mul_2_large (repeatThreshold ld)). lia.
Qed.

Lemma recentWindow_length (history : list ActionRecord) :
  (length (recentWindow history) <= 15)%nat
  /\ (length (recentWindow history) <= length history)%nat.
Proof.
  unfold recentWindow. destruct (Nat.ltb_spec 15 (length history)).
  - rewrite length_drop. lia.
  - lia.
Qed.

(** The count [findRepeatedPattern] returns is at most the window's length. *)
Lemma findRepeatedPattern_count_le
    (range : gmap string Z -> list (string * Z)) (ld : LoopDetector)
    (history : list ActionRecord) :
  RangeOrder range -> 1 <= repeatThreshold ld ->
  (findRepeatedPattern range ld history).2 <= 15.
Proof.
  intros Hr Hth. pose proof (findRepeatedPattern_map range ld history Hr Hth) as H.
  cbv zeta in H. destruct (findRepeatedPattern range ld history) as [p c].
  destruct H as [_ [[_ [= _ ->]]|[Hpc _]]]; [cbn; lia|]. cbn.
  apply flush_fold_lookup in Hpc as [E|[Hin _]]; [by rewrite lookup_empty in E|].
  apply runs_bounds in Hin. unfold recentKeys in Hin. rewrite length_map in Hin.
  pose proof (recentWindow_length history). lia.
Qed.

(** Fewer than [2 * repeat_threshold] entries: not stuck. *)
Lemma IsStuckInLoop_short_history
    (range : gmap string Z -> list (string * Z)) (ld : LoopDetector) (bead : Bead)
    (now : Time) (history : list ActionRecord) :
  RangeOrder range -> valid_detector ld ->
  getActionHistory bead = Ok history ->
  Z.of_nat (length history) < 2 * repeatThreshold ld ->
  IsStuckInLoop range ld bead now = (false, "").
Proof.
  intros Hr [Hlo Hhi] Hget Hlen. unfold IsStuckInLoop. rewrite Hget.
  destruct (Z.ltb_spec (Z.of_nat (length history)) (int_mul (repeatThreshold ld) 2))
    as [_|Hge]; [done|].
  destruct (hasRecentProgress bead now); [done|].
  pose proof (findRepeatedPattern_count_le range ld history Hr ltac:(lia)) as Hc.
  destruct (findRepeatedPattern range ld history) as [p c]. cbn in Hc.
  destruct (Z.leb_spec (repeatThreshold ld) c) as [Hle|_]; [|done].
  exfalso. destruct (Z_lt_le_dec (repeatThreshold ld) (2 ^ 62)).
  - rewrite int_mul_2_small in Hge by lia. lia.
  - lia.
Qed.

Lemma time_Since_recent (now t : Time) :
  (time_Since now t <? 5 * Minute) = true <-> now - t < 5 * Minute.
Proof.
  unfold time_Since, Time_Sub, minDuration, maxDuration, Minute, Second.
  rewrite Z.ltb_lt.
  destruct (Z.ltb_spec (now - t) (- 2 ^ 63)); [lia|].
  destruct (Z.ltb_spec (2 ^ 63 - 1) (now - t)); lia.
Qed.

(** Progress less than five minutes ago: not stuck.  The clock reads at
    least five minutes past Go's zero time. *)
Lemma IsStuckInLoop_recent_progress
    (range : gmap string Z -> list (string * Z)) (ld : LoopDetector) (bead : Bead)
    (now : Time) (ctx : gmap string string) (metrics : ProgressMetrics) :
  5 * Minute <= now ->
  Context bead = Some ctx ->
  ctx_get ctx "progress_metrics" <> "" ->
  unmarshal_metrics (ctx_get ctx "progress_metrics") = (metrics, None) ->
  now - LastProgress metrics < 5 * Minute ->
  IsStuckInLoop range ld bead now = (false, "").
Proof.
  intros Hclock Hctx Hne Hparse Hrecent.
  assert (Hprog : hasRecentProgress bead now = true).
  { unfold hasRecentProgress. rewrite Hctx.
    destruct (String.eqb_spec (ctx_get ctx "progress_metrics") ""); [done|].
    rewrite Hparse. unfold Time_IsZero.
    destruct (Z.eqb_spec (LastProgress metrics) 0) as [Hz|_].
    - rewrite Hz in Hrecent. lia.
    - by apply time_Since_recent. }
  unfold IsStuckInLoop. destruct (getActionHistory bead) as [history|]; [|done].
  destruct (_ <? _); [done|]. by rewrite Hprog.
Qed.

(** Past the two guards the answer is read off the map of counted runs. *)
Lemma IsStuckInLoop_past_guards
    (range : gmap string Z -> list (string * Z)) (ld : LoopDetector) (bead : Bead)
    (now : Time) (history : list ActionRecord) :
  valid_detector ld ->
  getActionHistory bead = Ok history ->
  2 * repeatThreshold ld <= Z.of_nat (length history) ->
  hasRecentProgress bead now = false ->
  IsStuckInLoop range ld bead now
  = let '(pattern, count) := findRepeatedPattern range ld history in
    if repeatThreshold ld <=? count then (true, stuck_reason count pattern) else (false, "").
Proof.
  intros Hv Hget Hlen Hprog. unfold IsStuckInLoop.
  rewrite Hget, length_guard_passes, Hprog by done. reflexivity.
Qed.

(** Otherwise a run that reaches the threshold is detected; the count in the
    reason is the length of a run of the reported key.  It is the length of
    the longest run when no key has two runs that reach the threshold. *)
Lemma IsStuckInLoop_detects_run
    (range : gmap string Z -> list (string * Z)) (ld : LoopDetector) (bead : Bead)
    (now : Time) (history : list ActionRecord) :
  RangeOrder range -> valid_detector ld ->
  getActionHistory bead = Ok history ->
  2 * repeatThreshold ld <= Z.of_nat (length history) ->
  hasRecentProgress bead now = false ->
  qualifying (repeatThreshold ld) history <> [] ->
  exists pattern count,
    IsStuckInLoop range ld bead now = (true, stuck_reason count pattern)
    /\ (pattern, count) ∈ qualifying (repeatThreshold ld) history
    /\ (NoDup (map fst (qualifying (repeatThreshold ld) history)) ->
        Forall (fun kn => snd kn <= count) (runs (recentKeys history))).
Proof.
  intros Hr Hv Hget Hlen Hprog Hq.
  rewrite (IsStuckInLoop_past_guards range ld bead now history) by done.
  destruct Hv as [Hlo Hhi].
  pose proof (findRepeatedPattern_map range ld history Hr ltac:(lia)) as H.
  cbv zeta in H. destruct (findRepeatedPattern range ld history) as [p c].
  destruct H as [Hmax [[Hempty _]|[Hpc Hc]]].
  - exfalso. destruct (qualifying (repeatThreshold ld) history) as [|[k n] tl] eqn:E; [done|].
    assert (Hin : (k, n) ∈ qualifying (repeatThreshold ld) history) by (rewrite E; left).
    apply list_elem_of_filter in Hin as [Hn Hin]. cbn [snd] in Hn.
    pose proof (flush_fold_member (repeatThreshold ld) _ ∅ k n Hin Hn) as Hs.
    rewrite Hempty in Hs. rewrite lookup_empty in Hs. by destruct Hs.
  - exists p, c. rewrite (proj2 (Z.leb_le _ _) Hc). split; [done|]. split.
    + apply flush_fold_lookup in Hpc as [E|[Hin Hn]]; [by rewrite lookup_empty in E|].
      apply list_elem_of_filter. done.
    + intros Hnd. apply Forall_forall. intros [k n] Hin. cbn [snd].
      destruct (Z_lt_le_dec n (repeatThreshold ld)); [lia|].
      apply (Hmax k). by apply flush_fold_once.
Qed.

End Stuck.


(** *** Ties *)

Section Ties.
Context {J : Json}.

(** C3, as amended.  When the longest runs of the window reach the threshold
    and no key has two runs that do, the stuck query reports the key of one
    of the longest runs, with their common length; which of several tied keys
    it reports is decided by the order in which the map of counts is ranged
    over, not by recency. *)
Theorem C3_tie_reports_one_of_the_tied_keys
    (range : gmap string Z -> list (string * Z)) (ld : LoopDetector) (bead : Bead)
    (now : Time) (history : list ActionRecord) (longest : Z) :
  RangeOrder range -> valid_detector ld ->
  getActionHistory bead = Ok history ->
  2 * repeatThreshold ld <= Z.of_nat (length history) ->
  hasRecentProgress bead now = false ->
  NoDup (map fst (qualifying (repeatThreshold ld) history)) ->
  repeatThreshold ld <= longest ->
  Exists (fun kn => snd kn = longest) (runs (recentKeys history)) ->
  Forall (fun kn => snd kn <= longest) (runs (recentKeys history)) ->
  exists pattern,
    (pattern, longest) ∈ runs (recentKeys history)
    /\ IsStuckInLoop range ld bead now = (true, stuck_reason longest pattern).
Proof.
  intros Hr Hv Hget Hlen Hprog Hnd Hth Hex Hall.
  apply Exists_exists in Hex as ([k n] & Hin & Hn). cbn [snd] in Hn. subst n.
  assert (Hq : qualifying (repeatThreshold ld) history <> []).
  { intros E. assert (Hk : (k, longest) ∈ qualifying (repeatThreshold ld) history).
    { apply list_elem_of_filter. done. }
    rewrite E in Hk. by apply elem_of_nil in Hk. }
  destruct (IsStuckInLoop_detects_run range ld bead now history Hr Hv Hget Hlen Hprog Hq)
    as (p & c & Hres & Hpc & Hmax).
  apply list_elem_of_filter in Hpc as [_ Hpc].
  specialize (Hmax Hnd). rewrite Forall_forall in Hmax, Hall.
  pose proof (Hmax _ Hin) as H1. pose proof (Hall _ Hpc) as H2. cbn [snd] in *.
  assert (c = longest) as -> by lia. by exists p.
Qed.

End Ties.

(** *** Runs on the JSON text codec *)

Section Runs.
Import JsonText.

Example tiedBead_runs :
  getActionHistory tiedBead = Ok (map keyed tiedRepeat)
  /\ runs (recentKeys (map keyed tiedRepeat))
     = [(generateProgressKey (readFile "a.go"), 3); (generateProgressKey (readFile "b.go"), 3)].
Proof. split; vm_compute; reflexivity. Qed.

Example interruptedBead_runs :
  getActionHistory interruptedBead = Ok (map keyed interruptedRepeat)
  /\ runs (recentKeys (map keyed interruptedRepeat))
     = [(generateProgressKey (readFile "test.go"), 4);
        (generateProgressKey (readFile "other.go"), 1);
        (generateProgressKey (readFile "test.go"), 3)].
Proof. split; vm_compute; reflexivity. Qed.

Lemma range_singleton (range : gmap string Z -> list (string * Z)) (k : string) (n : Z) :
  RangeOrder range -> range {[ k := n ]} = [(k, n)].
Proof.
  intros Hr. apply Permutation_singleton_r. rewrite (Hr _).
  by rewrite map_to_list_singleton.
Qed.

(** C1 at the failing input.  After four reads of test.go, a read of
    other.go and three more reads of test.go, with the last progress ten
    minutes old and the default threshold 3, the stuck query answers
    "3 times" under every iteration order of the map, although the longest
    run of the reported key in the window has length 4: the later, shorter
    run of the same key has overwritten the count of the earlier one. *)
Theorem C1_reported_count_is_not_the_longest_run
    (range : gmap string Z -> list (string * Z)) :
  RangeOrder range ->
  IsStuckInLoop range NewLoopDetector interruptedBead clock10
  = (true, "Repeated action pattern 3 times without progress: 4678e4c9b9f231d1")
  /\ (generateProgressKey (readFile "test.go"), 4)
     ∈ runs (recentKeys (map keyed interruptedRepeat))
  /\ generateProgressKey (readFile "test.go") = "4678e4c9b9f231d1".
Proof.
  intros Hr. destruct interruptedBead_runs as [Hget Hruns]. split_and!.
  - rewrite (IsStuckInLoop_past_guards range _ _ _ (map keyed interruptedRepeat));
      [|apply NewLoopDetector_valid|exact Hget|vm_compute; discriminate|vm_compute; reflexivity].
    unfold findRepeatedPattern.
    replace (Z.of_nat (length (map keyed interruptedRepeat)) <? repeatThreshold NewLoopDetector)
      with false by (vm_compute; reflexivity).
    replace (patternCounts (repeatThreshold NewLoopDetector)
               (recentWindow (map keyed interruptedRepeat)))
      with ({[ "4678e4c9b9f231d1" := 3 ]} : gmap string Z) by (vm_compute; reflexivity).
    rewrite range_singleton by done. vm_compute. reflexivity.
  - rewrite Hruns. left.
  - vm_compute. reflexivity.
Qed.

Lemma C1_witness :
  IsStuckInLoop rangeBackward NewLoopDetector interruptedBead clock10
  = (true, "Repeated action pattern 3 times without progress: 4678e4c9b9f231d1").
Proof.
  exact (proj1 (C1_reported_count_is_not_the_longest_run rangeBackward rangeBackward_order)).
Defined.

(** The specification's first scenario: seven reads of test.go, last
    progress ten minutes old, threshold 3. *)
Example verbose_repeat_is_stuck :
  IsStuckInLoop rangeForward NewLoopDetector verboseBead clock10
  = (true, "Repeated action pattern 7 times without progress: 4678e4c9b9f231d1").
Proof. vm_compute. reflexivity. Qed.

Lemma C3_witness :
  exists pattern,
    (pattern, 3) ∈ runs (recentKeys (map keyed tiedRepeat))
    /\ IsStuckInLoop rangeBackward NewLoopDetector tiedBead clock10
       = (true, stuck_reason 3 pattern).
Proof.
  destruct tiedBead_runs as [Hget Hruns].
  apply (C3_tie_reports_one_of_the_tied_keys rangeBackward NewLoopDetector tiedBead clock10
           (map keyed tiedRepeat) 3).
  - apply rangeBackward_order.
  - apply NewLoopDetector_valid.
  - exact Hget.
  - vm_compute. discriminate.
  - vm_compute. reflexivity.
  - apply (bool_decide_unpack _). vm_compute. exact I.
  - vm_compute. discriminate.
  - rewrite Hruns. apply Exists_cons_hd. reflexivity.
  - rewrite Hruns. repeat constructor; cbn; lia.
Defined.

(** C3 as stated fails: three reads of a.go followed by three reads of b.go
    tie at 3, the most recent of the two runs is that of b.go, and an
    execution that ranges over the map in the order [rangeForward] reports
    the key of a.go. *)
Lemma C3_counterexample :
  RangeOrder rangeForward
  /\ runs (recentKeys (map keyed tiedRepeat))
     = [(generateProgressKey (readFile "a.go"), 3); (generateProgressKey (readFile "b.go"), 3)]
  /\ generateProgressKey (readFile "a.go") <> generateProgressKey (readFile "b.go")
  /\ IsStuckInLoop rangeForward NewLoopDetector tiedBead clock10
     = (true, stuck_reason 3 (generateProgressKey (readFile "a.go"))).
Proof.
  split_and!.
  - apply rangeForward_order.
  - apply tiedBead_runs.
  - vm_compute. discriminate.
  - vm_compute. reflexivity.
Qed.

(** With the other iteration order the same bead reports the key of b.go. *)
Example tied_repeat_other_order :
  IsStuckInLoop rangeBackward NewLoopDetector tiedBead clock10
  = (true, stuck_reason 3 (generateProgressKey (readFile "b.go"))).
Proof. vm_compute. reflexivity. Qed.

Lemma C4_witness :
  exists ctx' history',
    Context (RecordAction NewLoopDetector verboseBead (readFile "test.go") clock10).1 = Some ctx'
    /\ last history' = Some (keyed (readFile "test.go"))
    /\ (length history' <= 50)%nat.
Proof.
  destruct (C4_record_appends_truncates_and_counts NewLoopDetector verboseBead
              (RecordAction NewLoopDetector verboseBead (readFile "test.go") clock10).1
              (readFile "test.go") clock10)
    as (ctx' & history' & historyJSON & Hctx & _ & _ & Hlast & Hlen & _).
  - vm_compute. reflexivity.
  - exists ctx', history'. done.
Defined.

Lemma C10_witness :
  IsStuckInLoop rangeForward NewLoopDetector corruptBead clock0 = (false, "").
Proof.
  refine (proj1 (C10_corrupt_history_is_discarded rangeForward NewLoopDetector corruptBead
                   (readFile "test.go") clock0 "invalid character in JSON text" _)).
  vm_compute. reflexivity.
Defined.

(** One more action on a bead that holds fifty drops the oldest one. *)
Example history_limit :
  getActionHistory (RecordAction NewLoopDetector fullBead (readFile "other.go") clock0).1
  = Ok (repeat (keyed (readFile "test.go")) 49 ++ [keyed (readFile "other.go")]).
Proof. vm_compute. reflexivity. Qed.

(** Recording on the corrupt bead starts a fresh one-element history. *)
Example corruptBead_record :
  let r := RecordAction NewLoopDetector corruptBead (readFile "test.go") clock0 in
  r.2 = None /\ getActionHistory r.1 = Ok [keyed (readFile "test.go")].
Proof. split; vm_compute; reflexivity. Qed.

End Runs.

End LoopDetectorFacts.

(* ===================================================================== *)
(** ** The response cache: properties *)
(* ===================================================================== *)

Module CacheFacts.
Import Go Cache CacheSpec.

Local Open Scope string_scope.
Local Open Scope Z_scope.
Local Open Scope list_scope.

Section SetFacts.
Variable getStringFromMap : gmap string value -> string -> string.
Variable getInt64FromMap : gmap string value -> string -> Z.
Variable marshal_entry : Entry -> result string.

(** C5, as amended.  [Set] has no refusal and no refresh request: with the
    cache enabled, whatever is stored under the key - expired or not, of
    whichever provider and model - a call whose entry marshals and whose
    Redis command succeeds replaces it by the new entry, leaves the other
    keys alone and returns no error; the new entry carries [cached_at = now]
    and [expires_at = now + ttl] (the default TTL when [ttl] is 0), so every
    replacement by [Set] refreshes [cached_at]. *)
Theorem C5_set_overwrites_and_refreshes
    (rc : RedisCache) (now now' : Time) (key : string) (response : value)
    (ttl : Duration) (metadata : gmap string value) (data : string) :
  Enabled (config rc) = true ->
  reachable (client rc) = true ->
  let entry := newEntry getStringFromMap getInt64FromMap rc now now' key response ttl metadata in
  let ttl' := if ttl =? 0 then DefaultTTL (config rc) else ttl in
  marshal_entry entry = Ok data ->
  exists rc',
    RedisCache_Set getStringFromMap getInt64FromMap marshal_entry rc now now' key response
                   ttl metadata = (rc', None)
    /\ kv (client rc') !! ("cache:" +:+ key) = Some (data, ttl')
    /\ (forall other, other <> "cache:" +:+ key ->
                      kv (client rc') !! other = kv (client rc) !! other)
    /\ CachedAt entry = now
    /\ ExpiresAt entry = now' + ttl'
    /\ ProviderID entry = getStringFromMap metadata "provider_id"
    /\ ModelName entry = getStringFromMap metadata "model_name".
Proof.
  intros Hen Hreach entry ttl' Hm. unfold RedisCache_Set.
  rewrite Hen. cbn [negb]. fold ttl'.
  change (mkEntry key response metadata now (now' + ttl') 0
            (getStringFromMap metadata "provider_id")
            (getStringFromMap metadata "model_name")
            (getInt64FromMap metadata "total_tokens")) with entry.
  rewrite Hm. unfold redis_Set. rewrite Hreach.
  eexists. split; [reflexivity|]. cbn [client kv]. split_and!; try reflexivity.
  - apply lookup_insert_eq.
  - intros other Hne. by rewrite lookup_insert_ne.
Qed.

End SetFacts.

Lemma C5_witness :
  exists rc',
    RedisCache_Set stringFromMap int64FromMap textEntry cacheWithP1 clock clock "k"
                   (VString "answer of p2") Hour (meta "p2" "m2") = (rc', None)
    /\ CachedAt entryP2 = clock.
Proof.
  destruct (C5_set_overwrites_and_refreshes stringFromMap int64FromMap textEntry
              cacheWithP1 clock clock "k" (VString "answer of p2") Hour (meta "p2" "m2")
              (match textEntry entryP2 with Ok s => s | Err _ => "" end))
    as (rc' & Hset & _ & _ & Hcached & _); [reflexivity|reflexivity|reflexivity|].
  exists rc'. split; [exact Hset|exact Hcached].
Defined.

(** C5 as stated fails: the key k holds an entry of provider p1, model m1,
    that expires in 59 minutes; a [Set] for the same key with the metadata of
    provider p2, model m2 is not refused: it returns no error and the key now
    holds the entry of p2. *)
Lemma C5_counterexample :
  kv (client cacheWithP1) !! "cache:k"
  = Some (match textEntry entryP1 with Ok s => s | Err _ => "" end, Hour)
  /\ clock < ExpiresAt entryP1
  /\ (ProviderID entryP1, ModelName entryP1) <> (ProviderID entryP2, ModelName entryP2)
  /\ exists rc',
       RedisCache_Set stringFromMap int64FromMap textEntry cacheWithP1 clock clock "k"
                      (VString "answer of p2") Hour (meta "p2" "m2") = (rc', None)
       /\ kv (client rc') !! "cache:k"
          = Some (match textEntry entryP2 with Ok s => s | Err _ => "" end, Hour)
       /\ kv (client rc') !! "cache:k" <> kv (client cacheWithP1) !! "cache:k".
Proof.
  split_and!.
  - vm_compute. reflexivity.
  - vm_compute. reflexivity.
  - vm_compute. discriminate.
  - eexists. split_and!.
    + vm_compute. reflexivity.
    + vm_compute. reflexivity.
    + vm_compute. discriminate.
Qed.

End CacheFacts.

(* ===================================================================== *)
(** ** The lessons provider: properties *)
(* ===================================================================== *)

Module LessonsFacts.
Import Go Lessons LessonsSpec.

Local Open Scope string_scope.
Local Open Scope Z_scope.
Local Open Scope list_scope.

Section ProviderFacts.
Variable float32 : Type.

(** C6, as amended.  For a non-empty project and task context: when the
    embedding is produced and the similarity search succeeds with no lessons,
    [GetRelevantLessons] returns the empty string; it returns the output of
    the recency-based [GetLessonsForPrompt] when the embedder is missing,
    when the embedding fails or is empty, and when the search fails. *)
Theorem C6_empty_similarity_result_is_returned_as_empty
    (d : Database float32) (projectID taskContext : string) (topK : Z) :
  projectID <> "" -> taskContext <> "" ->
  let recency e := GetLessonsForPrompt (Some (mkProvider (Some d) e)) projectID in
  let relevant e := GetRelevantLessons (Some (mkProvider (Some d) e)) projectID taskContext topK in
  let k := if topK <=? 0 then 5 else topK in
  (forall e queryEmb rest,
     Embed _ e [taskContext] = Ok (queryEmb :: rest) -> queryEmb <> [] ->
     SearchLessonsBySimilarity _ d projectID queryEmb k = Ok [] ->
     relevant (Some e) = "")
  /\ relevant None = recency None
  /\ (forall e err, Embed _ e [taskContext] = Err err -> relevant (Some e) = recency (Some e))
  /\ (forall e, Embed _ e [taskContext] = Ok [] -> relevant (Some e) = recency (Some e))
  /\ (forall e rest, Embed _ e [taskContext] = Ok ([] :: rest) ->
                     relevant (Some e) = recency (Some e))
  /\ (forall e queryEmb rest err,
        Embed _ e [taskContext] = Ok (queryEmb :: rest) ->
        SearchLessonsBySimilarity _ d projectID queryEmb k = Err err ->
        relevant (Some e) = recency (Some e)).
Proof.
  intros Hp Ht recency relevant k.
  assert (Hpe : String.eqb projectID "" = false) by by apply String.eqb_neq.
  assert (Hte : String.eqb taskContext "" = false) by by apply String.eqb_neq.
  unfold relevant, recency, GetRelevantLessons. cbn [db embedder]. rewrite Hpe, Hte.
  fold k. split_and!.
  - intros e queryEmb rest He Hq Hs. rewrite He.
    destruct queryEmb as [|x q]; [done|]. cbn [length Nat.eqb]. by rewrite Hs.
  - reflexivity.
  - intros e err He. by rewrite He.
  - intros e He. by rewrite He.
  - intros e rest He. by rewrite He.
  - intros e queryEmb rest err He Hs. rewrite He.
    destruct (length queryEmb =? 0)%nat; [done|]. by rewrite Hs.
Qed.

End ProviderFacts.

Lemma C6_witness :
  GetRelevantLessons noMatchProvider "proj" "fix the build" 3 = "".
Proof.
  refine (proj1 (C6_empty_similarity_result_is_returned_as_empty Z noMatchDb "proj"
                   "fix the build" 3 _ _) unitEmbedder [1] [] _ _ _);
    [discriminate|discriminate|reflexivity|discriminate|reflexivity].
Defined.

(** C6 as stated fails: the store has a lesson for the project and the
    similarity search finds none; the recency-based retrieval formats the
    lesson, and [GetRelevantLessons] returns nothing. *)
Lemma C6_counterexample :
  SearchLessonsBySimilarity _ noMatchDb "proj" [1] 3 = Ok []
  /\ GetLessonsForPrompt noMatchProvider "proj"
     = "The following lessons were learned from previous work on this project." +:+ nl
       +:+ "Avoid repeating these mistakes:" +:+ nl +:+ nl
       +:+ "### BUILD_FAILURE: Repeated build failures" +:+ nl
       +:+ "- run go vet before building" +:+ nl +:+ nl
  /\ GetRelevantLessons noMatchProvider "proj" "fix the build" 3 = ""
  /\ GetRelevantLessons noMatchProvider "proj" "fix the build" 3
     <> GetLessonsForPrompt noMatchProvider "proj".
Proof.
  split_and!; [reflexivity|vm_compute; reflexivity|vm_compute; reflexivity|
               vm_compute; discriminate].
Qed.

End LessonsFacts.

(* ===================================================================== *)
(** ** The streaming reader: properties *)
(* ===================================================================== *)

Module StreamingFacts.
Import Go Streaming StreamingSpec.

Local Open Scope string_scope.
Local Open Scope Z_scope.
Local Open Scope list_scope.

Section ReaderFacts.
Variable StreamChunk : Type.
Variable json_Unmarshal : string -> option StreamChunk.
Variable H : Type.
Variable handler : H -> StreamChunk -> H * option string.

Abbreviation iteration := (iteration StreamChunk json_Unmarshal H handler).
Abbreviation scanLoop := (scanLoop StreamChunk json_Unmarshal H handler).
Abbreviation readStreamingResponse := (readStreamingResponse StreamChunk json_Unmarshal H handler).

(** The loop over [pre ++ rest] is the loop over [pre], then, if that is
    still running, the loop over [rest]. *)
Lemma scanLoop_app (ctx : nat -> option string) (pre rest : list string) (i : nat)
    (n : Z) (h : H) :
  scanLoop ctx i (pre ++ rest) n h
  = match scanLoop ctx i pre n h with
    | Continue n' h' => scanLoop ctx (i + length pre) rest n' h'
    | Return e h' => Return e h'
    end.
Proof.
  revert i n h. induction pre as [|line pre IH]; intros i n h.
  - cbn. by rewrite Nat.add_0_r.
  - cbn [app Streaming.scanLoop length].
    destruct (iteration (ctx i) line n h) as [n' h'|e h']; [|done].
    rewrite IH. by replace (S i + length pre)%nat with (i + S (length pre))%nat by lia.
Qed.

Lemma iteration_done (line : string) (n : Z) (h : H) :
  line = "data: [DONE]" -> iteration None line n h = Return None h.
Proof. intros ->. reflexivity. Qed.

Lemma iteration_skip (line : string) (n : Z) (h : H) :
  blank_or_comment line = true -> iteration None line n h = Continue n h.
Proof.
  unfold blank_or_comment, Streaming.iteration. by intros ->.
Qed.

Lemma substring_all (s : string) : String.substring 0 (String.length s) s = s.
Proof. induction s as [|c s IHs]; [done|]. cbn. by rewrite IHs. Qed.

Lemma TrimPrefix_app (p s : string) :
  String.prefix p s = true -> s = p +:+ strings_TrimPrefix s p.
Proof.
  unfold strings_TrimPrefix. revert s. induction p as [|a p IH]; intros s Hp.
  - destruct s as [|b s]; cbn; [done|]. by rewrite substring_all.
  - destruct s as [|b s]; [discriminate|]. cbn [String.prefix] in Hp.
    destruct (Ascii.ascii_dec a b) as [->|]; [|discriminate].
    specialize (IH s Hp). rewrite Hp in IH. cbn [String.prefix].
    destruct (Ascii.ascii_dec b b); [|done]. rewrite Hp.
    cbn [String.length Nat.sub String.substring].
    change (String b s = String b (p +:+ String.substring (String.length p)
                                      (String.length s - String.length p) s)).
    by rewrite <- IH.
Qed.

(** A data line whose payload is the sentinel is the line "data: [DONE]". *)
Lemma sentinel_line (line : string) :
  String.prefix "data: " line = true ->
  String.eqb (strings_TrimPrefix line "data: ") "[DONE]" = true ->
  line = "data: [DONE]".
Proof.
  intros Hp Ht. apply String.eqb_eq in Ht.
  rewrite (TrimPrefix_app _ _ Hp), Ht. reflexivity.
Qed.

(** Without cancellation, lines that carry no chunk and are not the sentinel
    leave the chunk count and the handler state as they are. *)
Lemma scanLoop_no_chunk (ctx : nat -> option string) (lines : list string) (i : nat)
    (n : Z) (h : H) :
  (forall j, (j < length lines)%nat -> ctx (i + j)%nat = None) ->
  Forall (fun line => line <> "data: [DONE]"
                      /\ carries_chunk _ json_Unmarshal line = false) lines ->
  scanLoop ctx i lines n h = Continue n h.
Proof.
  revert i. induction lines as [|line lines IH]; intros i Hctx Hall; [done|].
  inversion Hall as [|? ? [Hnd Hc] Hrest]; subst.
  cbn [Streaming.scanLoop]. pose proof (Hctx 0%nat ltac:(cbn; lia)) as H0.
  rewrite Nat.add_0_r in H0. rewrite H0.
  assert (Hit : iteration None line n h = Continue n h).
  { unfold Streaming.iteration, carries_chunk in *.
    destruct (String.eqb line "" || String.prefix ":" line); [done|].
    destruct (String.prefix "data: " line) eqn:Hp; [|done]. cbn [negb andb] in *.
    destruct (String.eqb (strings_TrimPrefix line "data: ") "[DONE]") eqn:Ht.
    - exfalso. apply Hnd. by apply sentinel_line.
    - cbn [negb andb] in Hc.
      destruct (json_Unmarshal (strings_TrimPrefix line "data: ")) as [c|]; [|done].
      apply bool_decide_eq_false in Hc. exfalso. apply Hc. eauto. }
  rewrite Hit. apply IH; [|done].
  intros j Hj. replace (S i + j)%nat with (i + S j)%nat by lia. apply Hctx. cbn. lia.
Qed.

(** When the context is never cancelled, a blank or comment line anywhere in
    the stream changes nothing. *)
Lemma scanLoop_never_done_index (lines : list string) (i j : nat) (n : Z) (h : H) :
  scanLoop neverDone i lines n h = scanLoop neverDone j lines n h.
Proof.
  revert i j n h. induction lines as [|line lines IH]; intros i j n h; [done|].
  cbn [Streaming.scanLoop]. unfold neverDone at 1 3.
  destruct (iteration None line n h); [apply IH|done].
Qed.

Lemma skipped_line_is_invisible (pre post : list string) (line : string)
    (scanErr : option string) (h : H) :
  blank_or_comment line = true ->
  readStreamingResponse neverDone (pre ++ line :: post) scanErr h
  = readStreamingResponse neverDone (pre ++ post) scanErr h.
Proof.
  intros Hline. unfold Streaming.readStreamingResponse. rewrite !scanLoop_app.
  destruct (scanLoop neverDone 0 pre 0 h) as [n h'|e h']; [|done].
  cbn [Streaming.scanLoop]. unfold neverDone at 1. rewrite iteration_skip by done.
  by rewrite (scanLoop_never_done_index post _ (0 + length pre)).
Qed.

(** C9.  (1) When the reader, still running after the lines [pre], reads the
    line "data: [DONE]", it returns nil at once, whatever follows.  (2) A
    blank line or a line beginning with ":" is skipped: the pass leaves the
    chunk count and the handler state unchanged.  (3) When the stream ends
    (the scanner reports no error) without the sentinel and without any
    chunk parsed, the error is "stream ended without receiving any data".
    (4) Cancellation observed when [n > 0] chunks have been received is
    returned as "stream interrupted after n chunks: " followed by the
    context's error. *)
Theorem C9_stream_reader_outcomes :
  (forall ctx pre post scanErr h n h',
     scanLoop ctx 0 pre 0 h = Continue n h' ->
     ctx (length pre) = None ->
     readStreamingResponse ctx (pre ++ "data: [DONE]" :: post) scanErr h = (None, h'))
  /\ (forall line n h,
        line = "" \/ String.prefix ":" line = true ->
        iteration None line n h = Continue n h)
  /\ (forall ctx lines h,
        (forall j, (j < length lines)%nat -> ctx j = None) ->
        Forall (fun line => line <> "data: [DONE]"
                            /\ carries_chunk _ json_Unmarshal line = false) lines ->
        readStreamingResponse ctx lines None h
        = (Some "stream ended without receiving any data", h))
  /\ (forall ctx pre line post scanErr h n h' e,
        scanLoop ctx 0 pre 0 h = Continue n h' ->
        0 < n ->
        ctx (length pre) = Some e ->
        readStreamingResponse ctx (pre ++ line :: post) scanErr h
        = (Some ("stream interrupted after " +:+ fmt_d n +:+ " chunks: " +:+ e), h')).
Proof.
  split_and!.
  - intros ctx pre post scanErr h n h' Hpre Hctx.
    unfold Streaming.readStreamingResponse. rewrite scanLoop_app, Hpre.
    cbn [Streaming.scanLoop Nat.add]. rewrite Hctx. by rewrite iteration_done.
  - intros line n h Hline. apply iteration_skip. unfold blank_or_comment.
    destruct Hline as [-> | ->]; [done|]. by rewrite orb_true_r.
  - intros ctx lines h Hctx Hall. unfold Streaming.readStreamingResponse.
    by rewrite (scanLoop_no_chunk ctx lines 0 0 h Hctx Hall).
  - intros ctx pre line post scanErr h n h' e Hpre Hn Hctx.
    unfold Streaming.readStreamingResponse. rewrite scanLoop_app, Hpre.
    cbn [Streaming.scanLoop Nat.add]. rewrite Hctx. unfold Streaming.iteration.
    by rewrite (proj2 (Z.ltb_lt 0 n) Hn).
Qed.

End ReaderFacts.

Lemma C9_witness :
  readStreamingResponse string braceChunk (list string) collect neverDone
    ([": keep-alive"; "data: {a}"; ""] ++ "data: [DONE]" :: ["data: {b}"]) None []
  = (None, ["{a}"])
  /\ readStreamingResponse string braceChunk (list string) collect neverDone
       [""; ": ping"; "event: x"; "data: oops"] None []
     = (Some "stream ended without receiving any data", [])
  /\ readStreamingResponse string braceChunk (list string) collect (doneFrom 2)
       (["data: {a}"; "data: {b}"] ++ "data: {c}" :: ["data: [DONE]"]) None []
     = (Some "stream interrupted after 2 chunks: context canceled", ["{a}"; "{b}"]).
Proof.
  destruct (C9_stream_reader_outcomes string braceChunk (list string) collect)
    as (Hdone & _ & Hend & Hcancel).
  split_and!.
  - apply (Hdone neverDone _ _ None [] 1 ["{a}"]); reflexivity.
  - apply (Hend neverDone).
    + reflexivity.
    + repeat constructor; discriminate.
  - apply (Hcancel (doneFrom 2) _ _ _ None [] 2 ["{a}"; "{b}"] "context canceled");
      [reflexivity|lia|reflexivity].
Defined.

End StreamingFacts.

(* ===================================================================== *)
(** ** The embedder: properties *)
(* ===================================================================== *)

Module MemoryFacts.
Import Go Memory MemorySpec.

Local Open Scope string_scope.
Local Open Scope Z_scope.
Local Open Scope list_scope.

(** *** The BLOB encoding *)

Section Blob.

Lemma Uint32_PutUint32 (v : Z) (rest : list Z) :
  is_float32 v -> Uint32 (PutUint32 v ++ rest) = v.
Proof.
  intros [Hlo Hhi]. unfold Uint32, PutUint32. cbn [app nth].
  apply Z.bits_inj'. intros n Hn.
  rewrite !Z.lor_spec, !Z.shiftl_spec by lia.
  change 256 with (2 ^ 8).
  assert (Hhigh : forall m, 32 <= m -> Z.testbit v m = false).
  { intros m Hm. rewrite <- (Z.mod_small v (2 ^ 32)) by lia.
    apply Z.mod_pow2_bits_high. lia. }
  destruct (Z_lt_le_dec n 8).
  - rewrite Z.mod_pow2_bits_low by lia.
    rewrite !(Z.testbit_neg_r _ (n - _)) by lia. by rewrite !orb_false_r.
  - rewrite (Z.mod_pow2_bits_high v) by lia. cbn [orb].
    destruct (Z_lt_le_dec n 16).
    + rewrite Z.mod_pow2_bits_low by lia. rewrite Z.shiftr_spec by lia.
      rewrite !(Z.testbit_neg_r _ (n - _)) by lia.
      rewrite !orb_false_r. f_equal. lia.
    + rewrite (Z.mod_pow2_bits_high _ 8 (n - 8)) by lia. cbn [orb].
      destruct (Z_lt_le_dec n 24).
      * rewrite Z.mod_pow2_bits_low by lia. rewrite Z.shiftr_spec by lia.
        rewrite !(Z.testbit_neg_r _ (n - _)) by lia.
        rewrite !orb_false_r. f_equal. lia.
      * rewrite (Z.mod_pow2_bits_high _ 8 (n - 16)) by lia. cbn [orb].
        destruct (Z_lt_le_dec n 32).
        -- rewrite Z.mod_pow2_bits_low by lia. rewrite Z.shiftr_spec by lia.
           f_equal. lia.
        -- rewrite Z.mod_pow2_bits_high by lia. symmetry. apply Hhigh. lia.
Qed.

Lemma decode_loop (vec : list Z) :
  Forall is_float32 vec ->
  map (fun i => Uint32 (drop (i * 4) (flat_map PutUint32 vec))) (seq 0 (length vec)) = vec.
Proof.
  induction 1 as [|v vec Hv Hvec IH]; [done|].
  cbn [length seq map flat_map]. f_equal.
  - cbn [Nat.mul drop]. by apply Uint32_PutUint32.
  - rewrite <- seq_shift, map_map. rewrite <- IH at 2.
    apply map_ext. intros i. f_equal.
Qed.

Lemma encoded_length (vec : list Z) :
  length (flat_map PutUint32 vec) = (4 * length vec)%nat.
Proof. induction vec as [|v vec IH]; [done|]. cbn [flat_map length app PutUint32]. lia. Qed.

(** C8.  Decoding the encoding of a vector of [float32] values gives the
    vector back, element for element. *)
Theorem C8_decode_encode (vec : list Z) :
  Forall is_float32 vec -> DecodeEmbedding (EncodeEmbedding vec) = vec.
Proof.
  intros Hvec. unfold EncodeEmbedding.
  destruct vec as [|v vec]; [reflexivity|].
  change (length (v :: vec) =? 0)%nat with false. cbv iota.
  unfold DecodeEmbedding. rewrite encoded_length.
  replace (4 * length (v :: vec) =? 0)%nat with false by (symmetry; apply Nat.eqb_neq; cbn; lia).
  replace ((4 * length (v :: vec)) mod 4 =? 0)%nat with true.
  2:{ symmetry. apply Nat.eqb_eq. rewrite Nat.mul_comm. apply Nat.Div0.mod_mul. }
  cbn [negb orb].
  replace (4 * length (v :: vec) / 4)%nat with (length (v :: vec)).
  2:{ rewrite Nat.mul_comm. symmetry. apply Nat.div_mul. lia. }
  by apply decode_loop.
Qed.

Lemma C8_witness :
  DecodeEmbedding (EncodeEmbedding sampleVector) = sampleVector.
Proof.
  apply C8_decode_encode. unfold sampleVector, is_float32.
  repeat constructor; lia.
Defined.

Example encode_sample :
  EncodeEmbedding [0x3F800000; 0xC0200000] = [0; 0; 128; 63; 0; 0; 32; 192].
Proof. reflexivity. Qed.

Example decode_bad_length : DecodeEmbedding [1; 2; 3] = [].
Proof. reflexivity. Qed.

End Blob.


(** *** The hash embedder *)

(** *** The two hashes agree on their lowest bit *)

Section Parity.

Lemma odd_u32 (x : Z) : Z.odd (u32 x) = Z.odd x.
Proof.
  unfold u32. rewrite <- !Z.bit0_odd. apply Z.mod_pow2_bits_low. lia.
Qed.

Lemma odd_lxor (a b : Z) : Z.odd (Z.lxor a b) = xorb (Z.odd a) (Z.odd b).
Proof. rewrite <- !Z.bit0_odd. apply Z.lxor_spec. Qed.

Lemma odd_times_prime (h : Z) : Z.odd (h * prime32) = Z.odd h.
Proof. rewrite Z.odd_mul. change (Z.odd prime32) with true. apply andb_true_r. Qed.

Lemma fnv_parity_from (bs : list Z) (h h' : Z) :
  Z.odd h = Z.odd h' ->
  Z.odd (fold_left (fun h b => u32 (Z.lxor h b * prime32)) bs h)
  = Z.odd (fold_left (fun h b => Z.lxor (u32 (h * prime32)) b) bs h').
Proof.
  revert h h'. induction bs as [|b bs IH]; intros h h' Hh; [done|].
  cbn [fold_left]. apply IH.
  rewrite odd_u32, odd_times_prime, !odd_lxor, odd_u32, odd_times_prime.
  by rewrite Hh.
Qed.

Lemma fnv_parity (bs : list Z) : Z.odd (fnv32a bs) = Z.odd (fnv32 bs).
Proof. by apply fnv_parity_from. Qed.

Lemma fnv32a_nonneg (bs : list Z) : 0 <= fnv32a bs.
Proof.
  unfold fnv32a. generalize offset32 (eq_refl : (0 <=? offset32) = true).
  induction bs as [|b bs IH]; intros h Hh; cbn [fold_left].
  - by apply Z.leb_le.
  - apply IH. apply Z.leb_le. unfold u32. apply Z.mod_pos_bound. lia.
Qed.

(** The sign of a word is fixed by the parity of its index: -1 at the even
    indices, +1 at the odd ones. *)
Lemma wordSign_by_index (w : list rune) :
  (wordIndex w < 256)%nat
  /\ wordSign w = (if Z.odd (Z.of_nat (wordIndex w)) then 1 else -1).
Proof.
  unfold wordIndex, wordSign, hashDimensions.
  pose proof (fnv32a_nonneg (word_bytes w)) as Hnn.
  pose proof (Z.mod_pos_bound (fnv32a (word_bytes w)) 256 ltac:(lia)) as Hb.
  split; [lia|]. rewrite Z2Nat.id by lia.
  change 256 with (2 ^ 8). rewrite <- (Z.bit0_odd (_ mod _)).
  rewrite Z.mod_pow2_bits_low by lia. rewrite Z.bit0_odd, fnv_parity.
  rewrite (Zmod_odd (fnv32 (word_bytes w))).
  by destruct (Z.odd (fnv32 (word_bytes w))).
Qed.

End Parity.

(** *** The vector before normalisation *)

Section Accumulate.

Lemma signed_counts_zero : signed_counts (repeat 0 (Z.to_nat hashDimensions)).
Proof.
  split; [by rewrite repeat_length|].
  intros i c Hc. apply list_elem_of_lookup_2, list_elem_of_In, repeat_spec in Hc.
  subst c. destruct (Z.odd _); lia.
Qed.

Lemma addWord_counts (vec : list Z) (w : list rune) :
  signed_counts vec ->
  signed_counts (addWord vec w)
  /\ (exists c, addWord vec w !! wordIndex w = Some c /\ c <> 0)
  /\ (forall i c, vec !! i = Some c -> c <> 0 ->
        exists c', addWord vec w !! i = Some c' /\ c' <> 0).
Proof.
  intros [Hlen Hinv]. destruct (wordSign_by_index w) as [Hidx Hsign].
  unfold addWord.
  destruct (lookup_lt_is_Some_2 vec (wordIndex w) ltac:(lia)) as [c0 Hc0].
  rewrite (list_lookup_total_correct _ _ _ Hc0).
  pose proof (Hinv _ _ Hc0) as Hr0.
  set (c1 := f32_add_unit c0 (wordSign w)).
  assert (Hc1 : (if Z.odd (Z.of_nat (wordIndex w)) then 0 <= c1 <= 2 ^ 24
                 else - 2 ^ 24 <= c1 <= 0) /\ c1 <> 0
                /\ (c0 <> 0 -> c1 <> 0)).
  { unfold c1, f32_add_unit. rewrite Hsign.
    destruct (Z.odd (Z.of_nat (wordIndex w))).
    - destruct (Z.leb_spec (- 2 ^ 24) (c0 + 1)); cbn [andb];
        [destruct (Z.leb_spec (c0 + 1) (2 ^ 24))|]; lia.
    - destruct (Z.leb_spec (- 2 ^ 24) (c0 + -1)); cbn [andb];
        [destruct (Z.leb_spec (c0 + -1) (2 ^ 24))|]; lia. }
  destruct Hc1 as (Hrange & Hnz & Hkeep).
  split_and!.
  - split; [by rewrite length_insert|].
    intros i c Hi. destruct (decide (wordIndex w = i)) as [<-|Hne].
    + rewrite list_lookup_insert_eq in Hi by lia. by injection Hi as <-.
    + rewrite list_lookup_insert_ne in Hi by done. by apply Hinv.
  - exists c1. split; [|done]. apply list_lookup_insert_eq. lia.
  - intros i c Hi Hc. destruct (decide (wordIndex w = i)) as [<-|Hne].
    + exists c1. split; [apply list_lookup_insert_eq; lia|].
      rewrite Hc0 in Hi. injection Hi as ->. by apply Hkeep.
    + exists c. split; [|done]. by rewrite list_lookup_insert_ne.
Qed.

Lemma accumulate_from (words : list (list rune)) (vec : list Z) :
  signed_counts vec ->
  signed_counts (fold_left addWord words vec)
  /\ ((words <> [] \/ exists i c, vec !! i = Some c /\ c <> 0) ->
      exists i c, fold_left addWord words vec !! i = Some c /\ c <> 0).
Proof.
  revert vec. induction words as [|w words IH]; intros vec Hvec.
  - split; [done|]. by intros [?|?].
  - cbn [fold_left]. destruct (addWord_counts vec w Hvec) as (Hvec' & Hnew & _).
    destruct (IH _ Hvec') as [Hfinal Hsome]. split; [done|].
    intros _. apply Hsome. right. destruct Hnew as (c & ? & ?). eauto.
Qed.

(** With at least one word some coordinate is not zero: contributions to a
    coordinate all have the same sign and cannot cancel. *)
Lemma accumulate_counts (words : list (list rune)) :
  signed_counts (accumulate words)
  /\ (words <> [] -> exists i c, accumulate words !! i = Some c /\ c <> 0).
Proof.
  destruct (accumulate_from words _ signed_counts_zero) as [H1 H2].
  split; [done|]. intros Hw. apply H2. by left.
Qed.

End Accumulate.

(** *** Rounding errors *)

Section RoundingErrors.
Local Open Scope R_scope.

(** The relative error of every rounding of the embedder is at most [u]. *)
Abbreviation u := u32r.

Lemma u_value : u = / 16777216.
Proof. unfold u32r. f_equal. lra. Qed.

Lemma u64_le_u : u64 <= u.
Proof. unfold u64, u32r. apply Rinv_le_contravar; [lra|]. apply Rle_pow; [lra|lia]. Qed.

Lemma float_rounding_weaken (rnd : R -> R) :
  float_rounding u64 rnd -> float_rounding u rnd.
Proof.
  intros [H0 Hr]. split; [done|]. intros x Hx.
  eapply Rle_trans; [by apply Hr|].
  apply Rmult_le_compat_r; [apply Rabs_pos|apply u64_le_u].
Qed.

Lemma low_high_bounds (k : nat) :
  (k <= 600)%nat -> 0.9999 <= low k <= 1 /\ 1 <= high k <= 1.0001.
Proof.
  intros Hk. assert (HINR : INR k <= 600) by (apply (le_INR k 600) in Hk; simpl in Hk; lra).
  pose proof (pos_INR k) as Hpos. pose proof u_value as Hu.
  assert (Hlow : 1 - INR k * u <= low k <= 1).
  { unfold low. clear Hk HINR. induction k as [|k IH].
    - simpl. lra.
    - rewrite S_INR in *. assert (0 <= INR k) by apply pos_INR.
      destruct IH as [IH1 IH2]; [lra|].
      change ((1 - u) ^ S k) with ((1 - u) * (1 - u) ^ k).
      assert (0 <= (1 - u) ^ k) by (apply pow_le; lra).
      split; [|nra]. nra. }
  assert (Hhigh : 1 <= high k <= 1 + 2 * INR k * u).
  { unfold high. clear Hlow. induction k as [|k IH].
    - simpl. lra.
    - rewrite S_INR in *. assert (0 <= INR k) by apply pos_INR.
      assert (Hk' : (k <= 600)%nat) by lia.
      destruct (IH Hk') as [IH1 IH2]; [lra|lra|].
      change ((1 + u) ^ S k) with ((1 + u) * (1 + u) ^ k).
      split; [nra|]. nra. }
  rewrite Hu in Hlow, Hhigh. lra.
Qed.

Lemma low_S (k : nat) : low (S k) = (1 - u) * low k.
Proof. reflexivity. Qed.

Lemma high_S (k : nat) : high (S k) = (1 + u) * high k.
Proof. reflexivity. Qed.

Lemma low_anti (k k' : nat) : (k <= k')%nat -> low k' <= low k.
Proof.
  pose proof u_value. induction 1 as [|k' Hle IH]; [lra|].
  rewrite low_S. assert (0 <= low k') by (apply pow_le; lra). nra.
Qed.

Lemma high_mono (k k' : nat) : (k <= k')%nat -> high k <= high k'.
Proof.
  pose proof u_value. induction 1 as [|k' Hle IH]; [lra|].
  rewrite high_S. assert (0 <= high k') by (apply pow_le; lra). nra.
Qed.

Lemma within_refl (y : R) : within 0 y y.
Proof. unfold within, low, high. simpl. lra. Qed.

Lemma within_weaken (k k' : nat) (x y : R) :
  (k <= k')%nat -> 0 <= y -> within k x y -> within k' x y.
Proof.
  intros Hk Hy [H1 H2]. pose proof (low_anti _ _ Hk). pose proof (high_mono _ _ Hk).
  split; nra.
Qed.

Lemma within_add (k : nat) (x1 y1 x2 y2 : R) :
  within k x1 y1 -> within k x2 y2 -> within k (x1 + x2) (y1 + y2).
Proof. unfold within. intros [? ?] [? ?]. split; nra. Qed.

Section OneRounding.
Variable rnd : R -> R.
Hypothesis Hrnd : float_rounding u rnd.

Lemma rnd_abs (x : R) :
  / 2 ^ 126 <= Rabs x <= 2 ^ 127 ->
  (1 - u) * Rabs x <= Rabs (rnd x) <= (1 + u) * Rabs x.
Proof.
  intros Hx. destruct Hrnd as [_ Hr]. specialize (Hr x Hx).
  pose proof u_value. revert Hr. unfold Rabs.
  destruct (Rcase_abs (rnd x - x)), (Rcase_abs x), (Rcase_abs (rnd x)); intros; nra.
Qed.

Lemma range_ok (y x : R) :
  / 2 ^ 100 <= y <= 2 ^ 100 -> 0.999 * y <= x <= 1.001 * y ->
  / 2 ^ 126 <= x <= 2 ^ 127.
Proof.
  intros [Hy1 Hy2] [Hx1 Hx2].
  assert (H1 : / 2 ^ 126 <= 0.999 * / 2 ^ 100).
  { replace (2 ^ 126) with (2 ^ 100 * 2 ^ 26) by (rewrite <- pow_add; reflexivity).
    rewrite Rinv_mult. assert (0 < / 2 ^ 100) by (apply Rinv_0_lt_compat, pow_lt; lra).
    assert (/ 2 ^ 26 <= 0.999) by lra. nra. }
  assert (H2 : 1.001 * 2 ^ 100 <= 2 ^ 127).
  { replace (2 ^ 127) with (2 ^ 100 * 2 ^ 27) by (rewrite <- pow_add; reflexivity).
    assert (0 < 2 ^ 100) by (apply pow_lt; lra).
    assert (1.001 <= 2 ^ 27) by lra. nra. }
  nra.
Qed.

Lemma within_rnd (k : nat) (x y : R) :
  (k < 600)%nat ->
  y = 0 \/ / 2 ^ 100 <= y <= 2 ^ 100 ->
  within k x y -> within (S k) (rnd x) y.
Proof.
  intros Hk Hy [H1 H2]. destruct (low_high_bounds k ltac:(lia)) as [Hl Hh].
  pose proof u_value as Hu.
  destruct Hy as [->|Hy].
  - assert (x = 0) as -> by lra. destruct Hrnd as [-> _]. unfold within. lra.
  - assert (0 < y). { assert (0 < / 2 ^ 100) by (apply Rinv_0_lt_compat, pow_lt; lra). lra. }
    assert (Hx : / 2 ^ 126 <= x <= 2 ^ 127) by (apply (range_ok y); [done|nra]).
    pose proof (rnd_abs x) as Habs. rewrite (Rabs_pos_eq x) in Habs by nra.
    specialize (Habs Hx). unfold within. rewrite low_S, high_S.
    assert (0 <= rnd x).
    { destruct Hrnd as [_ Hr]. specialize (Hr x). rewrite (Rabs_pos_eq x) in Hr by nra.
      specialize (Hr Hx). revert Hr. unfold Rabs. destruct (Rcase_abs (rnd x - x)); nra. }
    rewrite Rabs_pos_eq in Habs by done. split; nra.
Qed.

End OneRounding.

End RoundingErrors.

Section Normalize.
Local Open Scope R_scope.

Variable rnd64 : R -> R.
Variable rnd32 : R -> R.
Hypothesis Hrnd64 : float_rounding u32r rnd64.
Hypothesis Hrnd32 : float_rounding u32r rnd32.

Lemma sumsq_bounds (cs : list Z) :
  small_counts cs -> (0 <= sumsq cs <= Z.of_nat (length cs) * 2 ^ 48)%Z.
Proof.
  induction 1 as [|c cs Hc Hcs IH]; cbn [sumsq foldr length]; [lia|].
  fold (sumsq cs). nia.
Qed.

Lemma sumsq_pos (cs : list Z) :
  (exists i c, cs !! i = Some c /\ c <> 0%Z) -> (1 <= sumsq cs)%Z.
Proof.
  intros (i & c & Hi & Hc). revert i Hi. induction cs as [|c' cs IH]; intros i Hi; [done|].
  cbn [sumsq foldr]. fold (sumsq cs).
  assert (0 <= sumsq cs)%Z.
  { clear. induction cs as [|? ? ?]; cbn [sumsq foldr]; [lia|]. fold (sumsq cs). nia. }
  destruct i as [|i]; cbn in Hi.
  - injection Hi as ->. nia.
  - specialize (IH i Hi). nia.
Qed.

Lemma IZR_zero_or_big (z : Z) :
  (0 <= z <= 2 ^ 60)%Z -> IZR z = 0 \/ / 2 ^ 100 <= IZR z <= 2 ^ 100.
Proof.
  intros [Hlo Hhi]. destruct (Z.eq_dec z 0%Z) as [->|Hne]; [by left|right].
  assert (H1 : 1 <= IZR z) by (apply IZR_le; lia).
  assert (H2 : IZR z <= 2 ^ 60).
  { rewrite pow_IZR. apply IZR_le. change (Z.of_nat 60) with 60%Z. lia. }
  assert (/ 2 ^ 100 <= 1).
  { rewrite <- Rinv_1. apply Rinv_le_contravar; [lra|]. apply pow_R1_Rle. lra. }
  assert (2 ^ 60 <= 2 ^ 100) by (apply Rle_pow; [lra|lia]).
  lra.
Qed.

(** The computed sum of squares is the exact one up to two roundings per
    coordinate. *)
Lemma sumSquares_from (cs : list Z) (k : nat) (acc : R) (s : Z) :
  small_counts cs ->
  (0 <= s)%Z -> (s + sumsq cs <= 2 ^ 60)%Z ->
  (k + 2 * length cs <= 600)%nat ->
  within k acc (IZR s) ->
  within (k + 2 * length cs)
         (fold_left (fun sum v => rnd64 (sum + rnd64 (v * v))) (map IZR cs) acc)
         (IZR (s + sumsq cs)).
Proof.
  intros Hcs. revert k acc s. induction Hcs as [|c cs Hc Hcs IH]; intros k acc s Hs Hsum Hk Hacc.
  - cbn. rewrite Nat.add_0_r, Z.add_0_r. done.
  - cbn [map fold_left length sumsq foldr] in *. fold (sumsq cs) in *.
    assert (Hsq : (0 <= sumsq cs)%Z) by (apply sumsq_bounds; done).
    assert (Hcc : (0 <= c * c <= 2 ^ 48)%Z) by nia.
    replace (k + 2 * S (length cs))%nat with (S (S k) + 2 * length cs)%nat by lia.
    replace (s + (c * c + sumsq cs))%Z with ((s + c * c) + sumsq cs)%Z by lia.
    apply IH; [lia|lia|lia|].
    apply (within_rnd rnd64 Hrnd64); [lia|apply IZR_zero_or_big; lia|].
    rewrite plus_IZR. apply within_add.
    + apply (within_weaken k); [lia|apply IZR_le; lia|done].
    + apply (within_weaken 1); [lia|apply IZR_le; lia|].
      rewrite <- mult_IZR.
      apply (within_rnd rnd64 Hrnd64); [lia|apply IZR_zero_or_big; lia|apply within_refl].
Qed.

Lemma low_double (n : nat) : low (2 * n) = low n * low n.
Proof. unfold low. replace (2 * n)%nat with (n + n)%nat by lia. apply pow_add. Qed.

Lemma high_double (n : nat) : high (2 * n) = high n * high n.
Proof. unfold high. replace (2 * n)%nat with (n + n)%nat by lia. apply pow_add. Qed.

Lemma within_sqrt (n : nat) (x y : R) :
  (n <= 600)%nat -> 0 <= y -> within (2 * n) x y -> within n (sqrt x) (sqrt y).
Proof.
  intros Hn Hy [H1 H2]. destruct (low_high_bounds n Hn) as [Hl Hh].
  rewrite low_double in H1. rewrite high_double in H2. split.
  - rewrite <- (sqrt_square (low n)) by lra. rewrite <- sqrt_mult_alt by nra.
    by apply sqrt_le_1_alt.
  - rewrite <- (sqrt_square (high n)) by lra. rewrite <- sqrt_mult_alt by nra.
    by apply sqrt_le_1_alt.
Qed.

End Normalize.

Section NormalizeNorm.
Local Open Scope R_scope.

Variable rnd64 : R -> R.
Variable rnd32 : R -> R.
Hypothesis Hrnd64 : float_rounding u32r rnd64.
Hypothesis Hrnd32 : float_rounding u32r rnd32.

(** One coordinate of the result: the count [c] divided by the computed norm
    and rounded twice, against the exact [c / sigma]. *)
Lemma coordinate_error (c : Z) (sigma norm : R) :
  (- 2 ^ 24 <= c <= 2 ^ 24)%Z ->
  1 <= sigma <= 2 ^ 28 ->
  0.9999 * sigma <= norm <= 1.0001 * sigma ->
  let r := rnd32 (rnd64 (IZR c / norm)) in
  0.998 * (IZR c * IZR c) <= (sigma * sigma) * (r * r) <= 1.003 * (IZR c * IZR c).
Proof.
  intros Hc Hsigma Hnorm r.
  destruct (Z.eq_dec c 0%Z) as [->|Hne].
  - unfold r. replace (0 / norm) with 0 by (unfold Rdiv; ring).
    destruct Hrnd64 as [-> _]. destruct Hrnd32 as [-> _]. lra.
  - set (v := IZR c) in *. set (a := Rabs v).
    assert (Ha : 1 <= a <= 2 ^ 24).
    { unfold a, v. rewrite <- abs_IZR. split.
      - apply (IZR_le 1). lia.
      - rewrite pow_IZR. apply IZR_le. change (Z.of_nat 24) with 24%Z. lia. }
    assert (Hnpos : 0 < norm) by lra.
    set (rho := sigma * / norm).
    assert (Hrho : 0.9999 <= rho <= 1.0002).
    { assert (Hinv : 0 < / norm) by by apply Rinv_0_lt_compat.
      assert (Heq : rho * norm = sigma).
      { unfold rho. field. lra. }
      split; nra. }
    set (x := v / norm).
    assert (Hx : Rabs x = a * / norm).
    { unfold x, Rdiv, a. rewrite Rabs_mult. f_equal. apply Rabs_pos_eq.
      left. by apply Rinv_0_lt_compat. }
    assert (Hsx : sigma * Rabs x = a * rho) by (rewrite Hx; unfold rho; ring).
    set (y := a * / sigma).
    assert (Hsy : sigma * y = a) by (unfold y; field; lra).
    assert (Hy : / 2 ^ 100 <= y <= 2 ^ 100).
    { assert (Hsi : / 2 ^ 28 <= / sigma <= 1).
      { split.
        - apply Rinv_le_contravar; lra.
        - rewrite <- Rinv_1. apply Rinv_le_contravar; lra. }
      assert (0 < / 2 ^ 28) by (apply Rinv_0_lt_compat, pow_lt; lra).
      assert (/ 2 ^ 100 <= / 2 ^ 28).
      { apply Rinv_le_contravar; [apply pow_lt; lra|]. apply Rle_pow; [lra|lia]. }
      assert (2 ^ 24 <= 2 ^ 100) by (apply Rle_pow; [lra|lia]).
      unfold y. split; nra. }
    assert (Hypos : 0 < y).
    { assert (0 < / 2 ^ 100) by (apply Rinv_0_lt_compat, pow_lt; lra). lra. }
    assert (Hxy : 0.9999 * y <= Rabs x <= 1.0002 * y).
    { assert (Rabs x = rho * y).
      { rewrite Hx. unfold rho, y. field. lra. }
      nra. }
    pose proof u_value as Hu.
    assert (Hxr : 0.999 * y <= Rabs x <= 1.001 * y) by lra.
    pose proof (rnd_abs rnd64 Hrnd64 x (range_ok y _ Hy Hxr)) as Hq.
    set (q := rnd64 x) in *.
    assert (Hqy : 0.999 * y <= Rabs q <= 1.001 * y) by (rewrite Hu in Hq; lra).
    pose proof (rnd_abs rnd32 Hrnd32 q (range_ok y _ Hy Hqy)) as Hr.
    change (rnd32 q) with r in Hr.
    assert (Hsr : 0.9995 * a <= sigma * Rabs r <= 1.0005 * a).
    { rewrite Hu in Hq, Hr.
      assert (Hry : 0.9997 * y <= Rabs r <= 1.0004 * y) by lra.
      assert (0 <= sigma * (Rabs r - 0.9997 * y)) by (apply Rmult_le_pos; lra).
      assert (0 <= sigma * (1.0004 * y - Rabs r)) by (apply Rmult_le_pos; lra).
      rewrite <- Hsy. lra. }
    replace (sigma * sigma * (r * r)) with ((sigma * Rabs r) * (sigma * Rabs r)).
    2:{ assert (Hrr : Rabs r * Rabs r = r * r).
        { rewrite <- Rabs_mult. apply Rabs_pos_eq. nra. }
        rewrite <- Hrr. ring. }
    replace (v * v) with (a * a).
    2:{ unfold a. rewrite <- Rabs_mult. apply Rabs_pos_eq. nra. }
    set (t := sigma * Rabs r) in *.
    assert (0 <= (t - 0.9995 * a) * (t + 0.9995 * a)) by (apply Rmult_le_pos; lra).
    assert (0 <= (1.0005 * a - t) * (1.0005 * a + t)) by (apply Rmult_le_pos; lra).
    assert (0 <= a * a) by nra.
    split; lra.
Qed.

Lemma squares_error (cs : list Z) (sigma norm : R) :
  small_counts cs ->
  1 <= sigma <= 2 ^ 28 ->
  0.9999 * sigma <= norm <= 1.0001 * sigma ->
  0.998 * IZR (sumsq cs)
  <= (sigma * sigma) * squares (map (fun v => rnd32 (rnd64 (v / norm))) (map IZR cs))
  <= 1.003 * IZR (sumsq cs).
Proof.
  intros Hcs Hsigma Hnorm. induction Hcs as [|c cs Hc Hcs IH].
  - cbn. lra.
  - cbn [map squares fold_right sumsq foldr]. fold (sumsq cs).
    fold (squares (map (fun v => rnd32 (rnd64 (v / norm))) (map IZR cs))).
    pose proof (coordinate_error c sigma norm Hc Hsigma Hnorm) as Hco. cbv zeta in Hco.
    rewrite plus_IZR, mult_IZR. nra.
Qed.

(** The norm of the normalised vector when some count is not zero. *)
Lemma normalize_norm (cs : list Z) :
  small_counts cs -> length cs = 256%nat ->
  (exists i c, cs !! i = Some c /\ c <> 0%Z) ->
  0.99 <= l2norm (normalize rnd64 rnd32 (map IZR cs)) <= 1.01.
Proof.
  intros Hcs Hlen Hnz.
  pose proof (sumsq_pos cs Hnz) as Hpos.
  pose proof (sumsq_bounds cs Hcs) as [_ Hub]. rewrite Hlen in Hub.
  change (Z.of_nat 256 * 2 ^ 48)%Z with (2 ^ 56)%Z in Hub.
  set (S := IZR (sumsq cs)).
  assert (HS : 1 <= S <= 2 ^ 56).
  { unfold S. split; [by apply (IZR_le 1)|].
    rewrite pow_IZR. apply IZR_le. change (Z.of_nat 56) with 56%Z. lia. }
  set (sigma := sqrt S).
  assert (Hsigma : 1 <= sigma <= 2 ^ 28).
  { unfold sigma. split.
    - rewrite <- sqrt_1. apply sqrt_le_1_alt. lra.
    - replace (2 ^ 28) with (sqrt (2 ^ 28 * 2 ^ 28)).
      + apply sqrt_le_1_alt. rewrite <- pow_add. apply HS.
      + apply sqrt_square. apply pow_le. lra. }
  assert (Hss : sigma * sigma = S) by (apply sqrt_sqrt; lra).
  pose proof (sumSquares_from rnd64 Hrnd64 cs 0 0 0 Hcs ltac:(lia) ltac:(cbn; lia)
                ltac:(rewrite Hlen; cbn; lia) (within_refl 0)) as Hsum.
  cbn [Nat.add] in Hsum. rewrite Z.add_0_l, Hlen in Hsum.
  fold (sumSquares rnd64 (map IZR cs)) in Hsum. fold S in Hsum.
  apply (within_sqrt 256) in Hsum; [|lia|lra]. fold sigma in Hsum.
  apply (within_rnd rnd64 Hrnd64) in Hsum; [|lia|].
  2:{ right. assert (/ 2 ^ 100 <= 1).
      { rewrite <- Rinv_1. apply Rinv_le_contravar; [lra|]. apply pow_R1_Rle. lra. }
      assert (2 ^ 28 <= 2 ^ 100) by (apply Rle_pow; [lra|lia]). lra. }
  destruct (low_high_bounds 257 ltac:(lia)) as [Hl Hh].
  unfold within in Hsum.
  set (norm := rnd64 (sqrt (sumSquares rnd64 (map IZR cs)))) in *.
  assert (Hnorm : 0.9999 * sigma <= norm <= 1.0001 * sigma) by nra.
  unfold normalize. fold norm.
  destruct (Req_dec_T norm 0) as [Hz|_]; [lra|].
  pose proof (squares_error cs sigma norm Hcs Hsigma Hnorm) as Herr.
  rewrite Hss in Herr. fold S in Herr. unfold l2norm.
  set (total := squares _) in *.
  assert (Htotal : 0.998 <= total <= 1.003) by nra.
  split.
  - replace 0.99 with (sqrt (0.99 * 0.99)) by (apply sqrt_square; lra).
    apply sqrt_le_1_alt. lra.
  - replace 1.01 with (sqrt (1.01 * 1.01)) by (apply sqrt_square; lra).
    apply sqrt_le_1_alt. lra.
Qed.

Lemma normalize_length (vec : list R) :
  length (normalize rnd64 rnd32 vec) = length vec.
Proof.
  unfold normalize. destruct (Req_dec_T _ 0); [done|]. by rewrite length_map.
Qed.

End NormalizeNorm.

(** *** hashEmbed *)

Section HashEmbed.
Variable unicode_IsLetter : rune -> bool.
Variable unicode_IsDigit : rune -> bool.
Variable unicode_ToLower : rune -> rune.
Variable rnd64 : R -> R.
Variable rnd32 : R -> R.

Abbreviation tokenize := (tokenize unicode_IsLetter unicode_IsDigit unicode_ToLower).
Abbreviation hashEmbed :=
  (hashEmbed unicode_IsLetter unicode_IsDigit unicode_ToLower rnd64 rnd32).

(** The surviving tokens have at least two bytes and are not stop words. *)
Lemma tokenize_survivors (text : list rune) (w : list rune) :
  w ∈ tokenize text ->
  2 <= Z.of_nat (length (word_bytes w)) /\ isStopWord w = false.
Proof.
  unfold Memory.tokenize. intros [Hw _]%list_elem_of_filter.
  apply Is_true_true, andb_true_iff in Hw as [H1 H2].
  split; [by apply Z.leb_le|by apply negb_true_iff].
Qed.

Lemma squares_zeros (n : nat) : squares (repeat 0%R n) = 0%R.
Proof. induction n as [|n IH]; cbn [repeat squares fold_right]; [done|]. fold (squares (repeat 0%R n)). rewrite IH. lra. Qed.

Lemma signed_counts_small (vec : list Z) : signed_counts vec -> small_counts vec.
Proof.
  intros [_ Hinv]. apply Forall_lookup. intros i c Hc. specialize (Hinv i c Hc).
  destruct (Z.odd (Z.of_nat i)); lia.
Qed.

(** C7.  On any text, with [float64] and [float32] roundings of relative
    error at most 2^-53 and 2^-24, the hash embedder returns 256 coordinates;
    when at least one token survives, their L2 norm is in [0.99, 1.01]; when
    none does, they are all zero and the norm is 0. *)
Theorem C7_hash_embedding_norm (text : list rune) :
  float_rounding u64 rnd64 -> float_rounding u32r rnd32 ->
  length (hashEmbed text) = 256%nat
  /\ (tokenize text <> [] -> (0.99 <= l2norm (hashEmbed text) <= 1.01)%R)
  /\ (tokenize text = [] ->
      hashEmbed text = repeat 0%R 256 /\ l2norm (hashEmbed text) = 0%R).
Proof.
  intros H64%float_rounding_weaken H32. unfold Memory.hashEmbed.
  destruct (accumulate_counts (tokenize text)) as [Hcounts Hnz].
  destruct (tokenize text) as [|w ws] eqn:Hwords.
  - cbn [length Nat.eqb]. split_and!; [reflexivity|done|].
    intros _. split; [reflexivity|].
    change (map IZR (repeat 0 (Z.to_nat hashDimensions))) with (repeat 0%R 256).
    unfold l2norm. rewrite squares_zeros. apply sqrt_0.
  - cbn [length Nat.eqb]. split_and!.
    + rewrite normalize_length, length_map. apply Hcounts.
    + intros _. apply (normalize_norm rnd64 rnd32 H64 H32).
      * by apply signed_counts_small.
      * apply Hcounts.
      * by apply Hnz.
    + done.
Qed.

End HashEmbed.

Lemma exact_rounding (u : R) : (0 <= u)%R -> float_rounding u exact.
Proof.
  intros Hu. split; [reflexivity|]. intros x _. unfold exact.
  rewrite Rminus_diag, Rabs_R0. apply Rmult_le_pos; [done|apply Rabs_pos].
Qed.

Lemma C7_witness :
  (0.99 <= l2norm (Memory.hashEmbed ascii_IsLetter ascii_IsDigit ascii_ToLower exact exact
                     (runes_of_string "build failure in Go compiler")) <= 1.01)%R.
Proof.
  refine (proj1 (proj2 (C7_hash_embedding_norm ascii_IsLetter ascii_IsDigit ascii_ToLower
                          exact exact (runes_of_string "build failure in Go compiler") _ _)) _).
  - apply exact_rounding. unfold u64. left. apply Rinv_0_lt_compat, pow_lt. lra.
  - apply exact_rounding. unfold u32r. left. apply Rinv_0_lt_compat, pow_lt. lra.
  - vm_compute. discriminate.
Defined.

Example tokenize_sample :
  asciiTokenize "Build failure in the Go_compiler: x 42!"
  = map runes_of_string ["build"; "failure"; "go_compiler"; "42"].
Proof. vm_compute. reflexivity. Qed.

Example tokenize_stop_words_only : asciiTokenize "It is on the a, I." = [].
Proof. vm_compute. reflexivity. Qed.

(** The two words fall on coordinate 229, an odd one, and both add 1. *)
Example accumulate_sample :
  map wordIndex (asciiTokenize "test cache") = [229%nat; 229%nat]
  /\ accumulate (asciiTokenize "test cache") !! 229%nat = Some 2.
Proof. split; vm_compute; reflexivity. Qed.

End MemoryFacts.

(* ===================================================================== *)
(** ** The loop detector: further properties *)
(* ===================================================================== *)

Module LoopDetectorMore.
Import Go SHA256 LoopDetector LoopSpec LoopSummary LoopDetectorFacts.

Local Open Scope string_scope.
Local Open Scope Z_scope.
Local Open Scope list_scope.

Section Queries.
Context {J : Json}.

Lemma qualifying_member (th : Z) (history : list ActionRecord) (k : string) (n : Z) :
  fold_left (flush th) (runs (recentKeys history)) ∅ !! k = Some n ->
  (k, n) ∈ qualifying th history.
Proof.
  intros Hl. apply flush_fold_lookup in Hl as [E|[Hin Hn]]; [by rewrite lookup_empty in E|].
  by apply list_elem_of_filter.
Qed.

(** X1.  For a detector whose threshold is at least 2 and a bead whose
    history parses, [IsStuckInLoop] answers true exactly when the history has
    at least twice the threshold entries, there is no progress in the last
    five minutes, and the last 15 actions contain a run of one progress key
    that reaches the threshold; this holds under every iteration order of the
    map of counts. *)
Theorem X1_stuck_exactly_when_a_run_reaches_the_threshold
    (range : gmap string Z -> list (string * Z)) (ld : LoopDetector) (bead : Bead)
    (now : Time) (history : list ActionRecord) :
  RangeOrder range -> valid_detector ld ->
  getActionHistory bead = Ok history ->
  (IsStuckInLoop range ld bead now).1 = true
  <-> (2 * repeatThreshold ld <= Z.of_nat (length history)
       /\ hasRecentProgress bead now = false
       /\ qualifying (repeatThreshold ld) history <> []).
Proof.
  intros Hr Hv Hget. split.
  - intros Hstuck.
    destruct (Z_lt_le_dec (Z.of_nat (length history)) (2 * repeatThreshold ld)) as [Hshort|Hlen].
    { by rewrite (IsStuckInLoop_short_history range ld bead now history) in Hstuck. }
    destruct (hasRecentProgress bead now) eqn:Hprog.
    { unfold IsStuckInLoop in Hstuck. rewrite Hget, Hprog in Hstuck.
      by destruct (_ <? _) in Hstuck. }
    split_and!; [done|done|].
    rewrite (IsStuckInLoop_past_guards range ld bead now history) in Hstuck by done.
    destruct Hv as [Hlo _].
    pose proof (findRepeatedPattern_map range ld history Hr ltac:(lia)) as H.
    cbv zeta in H. destruct (findRepeatedPattern range ld history) as [p c].
    destruct H as [_ [[_ [= -> ->]]|[Hpc _]]].
    + destruct (Z.leb_spec (repeatThreshold ld) 0); [lia|done].
    + apply qualifying_member in Hpc. intros E. rewrite E in Hpc.
      by apply elem_of_nil in Hpc.
  - intros (Hlen & Hprog & Hq).
    destruct (IsStuckInLoop_detects_run range ld bead now history Hr Hv Hget Hlen Hprog Hq)
      as (p & c & -> & _). done.
Qed.

(** X3.  The counting loop looks at the last 15 actions only, so a detector
    whose threshold is above 15 never answers true. *)
Theorem X3_threshold_above_the_window_never_fires
    (range : gmap string Z -> list (string * Z)) (ld : LoopDetector) (bead : Bead)
    (now : Time) :
  RangeOrder range -> 15 < repeatThreshold ld ->
  IsStuckInLoop range ld bead now = (false, "").
Proof.
  intros Hr Hth. unfold IsStuckInLoop.
  destruct (getActionHistory bead) as [history|]; [|done].
  destruct (_ <? _); [done|]. destruct (hasRecentProgress bead now); [done|].
  pose proof (findRepeatedPattern_count_le range ld history Hr ltac:(lia)) as Hc.
  destruct (findRepeatedPattern range ld history) as [p c]. cbn [snd] in Hc.
  destruct (Z.leb_spec (repeatThreshold ld) c); [lia|done].
Qed.

(** X2.  Recording an action of a tracked type counts as progress: when the
    stored metrics read back as written, the bead is not reported stuck at
    any time less than five minutes after the call, whatever its history. *)
Theorem X2_tracked_action_suppresses_detection
    (range : gmap string Z -> list (string * Z)) (ld : LoopDetector) (bead : Bead)
    (action : ActionRecord) (t now : Time) (metricsJSON : string) :
  let metrics' :=
    bumpMetrics (loadMetrics (default ∅ (Context bead))) (ActionType action) t in
  classify (ActionType action) <> None ->
  t <> 0 ->
  (RecordAction ld bead action t).2 = None ->
  marshal_metrics metrics' = Ok metricsJSON ->
  metricsJSON <> "" ->
  unmarshal_metrics metricsJSON = (metrics', None) ->
  now - t < 5 * Minute ->
  IsStuckInLoop range ld (RecordAction ld bead action t).1 now = (false, "").
Proof.
  intros metrics' Hclass Ht Hok Hm Hne Hu Hnow.
  assert (Hlast : LastProgress metrics' = t).
  { unfold metrics'. rewrite bumpMetrics_classify.
    destruct (classify (ActionType action)) as [c|]; [|done]. by destruct c. }
  assert (Hprog : hasRecentProgress (RecordAction ld bead action t).1 now = true).
  { unfold RecordAction in *.
    set (ctx := default ∅ (Context bead)) in *.
    destruct (marshal_history _) as [historyJSON|e]; [|discriminate].
    cbn [fst]. unfold updateProgressMetrics. cbn [Context ID default Datatypes.id].
    assert (Hload : loadMetrics (<["action_history" := historyJSON]> ctx) = loadMetrics ctx).
    { unfold loadMetrics, ctx_get. by rewrite lookup_insert_ne. }
    rewrite Hload. unfold with_key. cbn [ActionType]. fold metrics'. rewrite Hm.
    unfold hasRecentProgress, ctx_get. cbn [Context]. rewrite lookup_insert_eq.
    change (default "" (Some metricsJSON)) with metricsJSON.
    destruct (String.eqb_spec metricsJSON ""); [done|].
    rewrite Hu, Hlast. unfold Time_IsZero.
    destruct (Z.eqb_spec t 0); [done|]. by apply time_Since_recent. }
  unfold IsStuckInLoop. destruct (getActionHistory _) as [history|]; [|done].
  destruct (_ <? _); [done|]. by rewrite Hprog.
Qed.

(** X4.  [ResetProgress] clears the bead: afterwards the history reads as
    empty, there is no recent progress, a detector with a threshold of at
    least 2 does not report the bead stuck, and the summary is "No progress
    data".  Every other key of the context is left as it was. *)
Theorem X4_reset_clears_history_and_metrics
    (range : gmap string Z -> list (string * Z)) (ld : LoopDetector) (bead : Bead)
    (now : Time) :
  RangeOrder range -> valid_detector ld ->
  getActionHistory (ResetProgress bead) = Ok []
  /\ hasRecentProgress (ResetProgress bead) now = false
  /\ IsStuckInLoop range ld (ResetProgress bead) now = (false, "")
  /\ GetProgressSummary (ResetProgress bead) now = "No progress data"
  /\ ID (ResetProgress bead) = ID bead
  /\ (forall k, k <> "action_history" -> k <> "progress_metrics" ->
        default ∅ (Context (ResetProgress bead)) !! k = default ∅ (Context bead) !! k).
Proof.
  intros Hr Hv.
  assert (Hget : getActionHistory (ResetProgress bead) = Ok []).
  { unfold ResetProgress, getActionHistory. destruct (Context bead) as [ctx|] eqn:E.
    - cbn [Context]. unfold ctx_get.
      rewrite lookup_delete_ne by done. by rewrite lookup_delete_eq.
    - by rewrite E. }
  assert (Hprog : hasRecentProgress (ResetProgress bead) now = false).
  { unfold ResetProgress, hasRecentProgress. destruct (Context bead) as [ctx|] eqn:E.
    - cbn [Context]. unfold ctx_get. by rewrite lookup_delete_eq.
    - by rewrite E. }
  split_and!; [done|done| | | |].
  - apply (IsStuckInLoop_short_history range ld _ now []); [done|done|done|].
    destruct Hv. cbn. lia.
  - unfold ResetProgress, GetProgressSummary. destruct (Context bead) as [ctx|] eqn:E.
    + cbn [Context]. unfold ctx_get. by rewrite lookup_delete_eq.
    + by rewrite E.
  - unfold ResetProgress. by destruct (Context bead).
  - intros k Hk1 Hk2. unfold ResetProgress.
    destruct (Context bead) as [ctx|] eqn:E; [|by rewrite E].
    cbn [Context default Datatypes.id]. by rewrite !lookup_delete_ne.
Qed.

(** X5.  [RecordAction] writes the keys "action_history" and
    "progress_metrics" and nothing else: the bead keeps its ID and every
    other entry of its context, whether the call succeeds or fails. *)
Theorem X5_record_touches_only_its_two_keys
    (ld : LoopDetector) (bead : Bead) (action : ActionRecord) (now : Time) (k : string) :
  k <> "action_history" -> k <> "progress_metrics" ->
  ID (RecordAction ld bead action now).1 = ID bead
  /\ default ∅ (Context (RecordAction ld bead action now).1) !! k
     = default ∅ (Context bead) !! k.
Proof.
  intros Hk1 Hk2. unfold RecordAction.
  set (ctx := default ∅ (Context bead)).
  destruct (marshal_history _) as [historyJSON|e]; cbn [fst]; [|done].
  unfold updateProgressMetrics. cbn [Context ID default Datatypes.id].
  destruct (marshal_metrics _) as [metricsJSON|e]; cbn [Context ID default Datatypes.id]; split; try done.
  - by rewrite !lookup_insert_ne.
  - by rewrite lookup_insert_ne.
Qed.

End Queries.

(** *** The shape of a progress key *)

Lemma compress_length (h block : list Z) : length (compress h block) = 8%nat.
Proof. reflexivity. Qed.

Lemma digest_words (bs : list (list Z)) (h : list Z) :
  length h = 8%nat -> length (fold_left compress bs h) = 8%nat.
Proof.
  revert h. induction bs as [|b bs IH]; intros h Hh; [done|].
  cbn [fold_left]. apply IH, compress_length.
Qed.

Lemma be_bytes_4 (x : Z) :
  exists b0 b1 b2 b3,
    be_bytes 4 x = [b0; b1; b2; b3]
    /\ Forall (fun b => 0 <= b < 256) [b0; b1; b2; b3].
Proof.
  unfold be_bytes. cbn [seq rev app map].
  do 4 eexists. split; [reflexivity|].
  repeat constructor; apply Z.mod_pos_bound; lia.
Qed.

Lemma Sum256_bytes (msg : list Z) :
  length (Sum256 msg) = 32%nat /\ Forall (fun b => 0 <= b < 256) (Sum256 msg).
Proof.
  unfold Sum256.
  pose proof (digest_words (blocks (length (pad msg) / 64) (pad msg)) H0 eq_refl) as Hlen.
  destruct (fold_left compress _ H0) as [|w0 [|w1 [|w2 [|w3 [|w4 [|w5 [|w6 [|w7 [|? ?]]]]]]]]];
    try discriminate.
  cbn [flat_map].
  destruct (be_bytes_4 w0) as (? & ? & ? & ? & -> & H0').
  destruct (be_bytes_4 w1) as (? & ? & ? & ? & -> & H1').
  destruct (be_bytes_4 w2) as (? & ? & ? & ? & -> & H2').
  destruct (be_bytes_4 w3) as (? & ? & ? & ? & -> & H3').
  destruct (be_bytes_4 w4) as (? & ? & ? & ? & -> & H4').
  destruct (be_bytes_4 w5) as (? & ? & ? & ? & -> & H5').
  destruct (be_bytes_4 w6) as (? & ? & ? & ? & -> & H6').
  destruct (be_bytes_4 w7) as (? & ? & ? & ? & -> & H7').
  split; [reflexivity|].
  repeat (apply Forall_app; split; [done|]). constructor.
Qed.

Lemma hex_digit_is_hex (d : Z) : 0 <= d < 16 -> is_hex (hex_digit d) = true.
Proof.
  intros Hd. assert (Hcases : d ∈ (map Z.of_nat (seq 0 16))).
  { apply list_elem_of_fmap. exists (Z.to_nat d). split; [lia|].
    apply list_elem_of_In, in_seq. lia. }
  cbn in Hcases. repeat (apply elem_of_cons in Hcases as [->|Hcases]; [reflexivity|]).
  by apply elem_of_nil in Hcases.
Qed.

Lemma hex_EncodeToString_shape (bs : list Z) :
  Forall (fun b => 0 <= b < 256) bs ->
  String.length (hex_EncodeToString bs) = (2 * length bs)%nat
  /\ forallb is_hex (list_ascii_of_string (hex_EncodeToString bs)) = true.
Proof.
  induction 1 as [|b bs Hb Hbs [IH1 IH2]]; [done|].
  cbn [hex_EncodeToString String.length length list_ascii_of_string forallb].
  rewrite IH1, IH2, !hex_digit_is_hex.
  - split; [lia|done].
  - apply Z.mod_pos_bound. lia.
  - split; [apply Z.div_pos; lia|apply Z.div_lt_upper_bound; lia].
Qed.

(** X6.  A progress key is always 16 lower-case hexadecimal digits. *)
Theorem X6_progress_key_is_16_hex_digits (action : ActionRecord) :
  String.length (generateProgressKey action) = 16%nat
  /\ forallb is_hex (list_ascii_of_string (generateProgressKey action)) = true.
Proof.
  unfold generateProgressKey.
  destruct (Sum256_bytes (bytes_of_string (progressKeyData action))) as [Hlen Hall].
  destruct (hex_EncodeToString_shape
              (take 8 (Sum256 (bytes_of_string (progressKeyData action))))) as [H1 H2].
  { by apply Forall_take. }
  rewrite H1, length_take, Hlen. done.
Qed.

Section Witnesses.
Import JsonText.

Lemma X1_witness :
  (IsStuckInLoop rangeForward NewLoopDetector verboseBead clock10).1 = true
  <-> (2 * repeatThreshold NewLoopDetector
         <= Z.of_nat (length (map keyed verboseRepeat))
       /\ hasRecentProgress verboseBead clock10 = false
       /\ qualifying (repeatThreshold NewLoopDetector) (map keyed verboseRepeat) <> []).
Proof.
  apply (X1_stuck_exactly_when_a_run_reaches_the_threshold rangeForward NewLoopDetector
           verboseBead clock10 (map keyed verboseRepeat)).
  - apply rangeForward_order.
  - apply NewLoopDetector_valid.
  - vm_compute. reflexivity.
Defined.

Lemma X3_witness :
  IsStuckInLoop rangeForward (SetRepeatThreshold NewLoopDetector 16) verboseBead clock10
  = (false, "").
Proof.
  apply (X3_threshold_above_the_window_never_fires rangeForward).
  - apply rangeForward_order.
  - cbn. lia.
Defined.

Lemma X2_witness :
  IsStuckInLoop rangeForward NewLoopDetector
    (RecordAction NewLoopDetector verboseBead (readFile "test.go") clock10).1
    (clock10 + 4 * Minute)
  = (false, "").
Proof.
  apply (X2_tracked_action_suppresses_detection rangeForward NewLoopDetector verboseBead
           (readFile "test.go") clock10 (clock10 + 4 * Minute)
           (match text_marshal_metrics
                    (bumpMetrics (loadMetrics (default ∅ (Context verboseBead)))
                                 "read_file" clock10) with
            | Ok s => s | Err _ => "" end)).
  - vm_compute. discriminate.
  - vm_compute. discriminate.
  - vm_compute. reflexivity.
  - vm_compute. reflexivity.
  - vm_compute. discriminate.
  - vm_compute. reflexivity.
  - vm_compute. reflexivity.
Defined.

Lemma X4_witness :
  getActionHistory (ResetProgress verboseBead) = Ok []
  /\ IsStuckInLoop rangeForward NewLoopDetector (ResetProgress verboseBead) clock10
     = (false, "").
Proof.
  destruct (X4_reset_clears_history_and_metrics rangeForward NewLoopDetector verboseBead
              clock10 rangeForward_order NewLoopDetector_valid) as (H1 & _ & H3 & _).
  split; [exact H1|exact H3].
Defined.

Lemma X5_witness :
  default ∅ (Context (RecordAction NewLoopDetector
                        (mkBead "bead-1" (Some {[ "owner" := "agent-1" ]}))
                        (readFile "test.go") clock0).1) !! "owner"
  = Some "agent-1".
Proof.
  destruct (X5_record_touches_only_its_two_keys NewLoopDetector
              (mkBead "bead-1" (Some {[ "owner" := "agent-1" ]}))
              (readFile "test.go") clock0 "owner") as [_ H]; [done|done|].
  rewrite H. reflexivity.
Defined.

(** The summary of the bead with seven reads, ten minutes after the last
    progress, and of a bead without metrics. *)
Example summary_sample :
  GetProgressSummary verboseBead clock10
  = "Files read: 7, modified: 0, tests: 0, commands: 0 (last: 10m0s ago)"
  /\ GetProgressSummary (mkBead "b" None) clock10 = "No progress data".
Proof. split; vm_compute; reflexivity. Qed.

Example duration_strings :
  map Duration_String [0; 1500 * Millisecond; 90 * Second; 3 * 60 * Minute + 5 * Second;
                       - 2 * Second; 1500; maxDuration]
  = ["0s"; "1.5s"; "1m30s"; "3h0m5s"; "-2s"; "1.5" +:+ micro +:+ "s";
     "2562047h47m16.854775807s"].
Proof. vm_compute. reflexivity. Qed.

Example duration_rounding :
  map (fun d => Duration_Round d Second)
      [1499999999; 1500000000; - 1500000000; 0; maxDuration; minDuration]
  = [Second; 2 * Second; - 2 * Second; 0; maxDuration; minDuration].
Proof. vm_compute. reflexivity. Qed.

End Witnesses.

End LoopDetectorMore.

(* ===================================================================== *)
(** ** The stream reader: further properties *)
(* ===================================================================== *)

Module StreamingMore.
Import Go Streaming StreamingSpec StreamTrace StreamingFacts.

Local Open Scope string_scope.
Local Open Scope Z_scope.
Local Open Scope list_scope.

Section ReaderMore.
Variable StreamChunk : Type.
Variable json_Unmarshal : string -> option StreamChunk.
Variable H : Type.
Variable handler : H -> StreamChunk -> H * option string.

Abbreviation iteration := (iteration StreamChunk json_Unmarshal H handler).
Abbreviation scanLoop := (scanLoop StreamChunk json_Unmarshal H handler).
Abbreviation readStreamingResponse := (readStreamingResponse StreamChunk json_Unmarshal H handler).
Abbreviation chunk_of := (chunk_of StreamChunk json_Unmarshal).
Abbreviation payloads := (payloads StreamChunk json_Unmarshal).

(** One pass over a line that is not the sentinel, without cancellation. *)
Lemma iteration_chunk_of (line : string) (n : Z) (h : H) :
  line <> "data: [DONE]" ->
  iteration None line n h
  = match chunk_of line with
    | None => Continue n h
    | Some chunk =>
        match handler h chunk with
        | (h', Some e) =>
            Return (Some ("handler error after " +:+ fmt_d (n + 1) +:+ " chunks: " +:+ e)) h'
        | (h', None) => Continue (n + 1) h'
        end
    end.
Proof.
  intros Hnd. unfold Streaming.iteration, StreamTrace.chunk_of.
  destruct (String.eqb line "" || String.prefix ":" line) eqn:Hskip.
  - destruct (String.prefix "data: " line) eqn:Hp; [|done].
    exfalso. apply orb_true_iff in Hskip as [E|E].
    + apply String.eqb_eq in E. by subst.
    + apply (TrimPrefix_app "data: ") in Hp. apply (TrimPrefix_app ":") in E.
      rewrite Hp in E at 1. discriminate E.
  - destruct (String.prefix "data: " line) eqn:Hp; [|done]. cbn [negb].
    destruct (String.eqb (strings_TrimPrefix line "data: ") "[DONE]") eqn:Ht; [|done].
    exfalso. apply Hnd. by apply sentinel_line.
Qed.

Lemma scanLoop_payloads (lines : list string) (i : nat) (n : Z) (h : H) :
  (forall h c, (handler h c).2 = None) ->
  scanLoop neverDone i lines n h
  = let h' := fold_left (fun h c => (handler h c).1) (payloads lines) h in
    if has_sentinel lines then Return None h'
    else Continue (n + Z.of_nat (length (payloads lines))) h'.
Proof.
  intros Hok. revert i n h. induction lines as [|line lines IH]; intros i n h.
  - cbn. by rewrite Z.add_0_r.
  - cbn [Streaming.scanLoop StreamTrace.payloads has_sentinel existsb]. unfold neverDone at 1.
    rewrite (String.eqb_sym "data: [DONE]" line).
    destruct (String.eqb_spec line "data: [DONE]") as [->|Hnd]; [done|].
    rewrite iteration_chunk_of by done. cbn [orb]. fold (has_sentinel lines).
    destruct (chunk_of line) as [c|]; [|apply IH].
    pose proof (Hok h c) as Hc. destruct (handler h c) as [h' [e|]] eqn:Hh; [done|].
    rewrite IH. cbn [fold_left length]. rewrite Hh. cbn [fst]. cbv zeta.
    destruct (has_sentinel lines); [done|]. f_equal. lia.
Qed.

(** X7.  When the context is never cancelled and the handler never fails,
    the handler receives exactly the chunks carried by the lines before the
    first "data: [DONE]", once each and in stream order; the result is nil
    when the sentinel was read, and otherwise decided by the scanner's error
    and the number of those chunks. *)
Theorem X7_chunks_reach_the_handler_once_and_in_order
    (lines : list string) (scanErr : option string) (h : H) :
  (forall h c, (handler h c).2 = None) ->
  readStreamingResponse neverDone lines scanErr h
  = (end_of_stream (has_sentinel lines) scanErr (Z.of_nat (length (payloads lines))),
     fold_left (fun h c => (handler h c).1) (payloads lines) h).
Proof.
  intros Hok. unfold Streaming.readStreamingResponse, end_of_stream.
  rewrite scanLoop_payloads by done. cbv zeta.
  destruct (has_sentinel lines); [done|]. rewrite Z.add_0_l.
  destruct scanErr as [e|].
  - by destruct (0 <? _).
  - by destruct (_ =? 0).
Qed.

(** X8.  When the handler returns an error for a chunk, the reader stops
    there: it returns "handler error after n chunks: ..." with [n] counting
    that chunk, and neither the lines that follow nor the scanner's error
    are looked at. *)
Theorem X8_handler_error_ends_the_stream
    (ctx : nat -> option string) (pre post : list string) (line : string)
    (scanErr : option string) (h h' h'' : H) (n : Z) (chunk : StreamChunk) (e : string) :
  scanLoop ctx 0 pre 0 h = Continue n h' ->
  ctx (length pre) = None ->
  line <> "data: [DONE]" ->
  chunk_of line = Some chunk ->
  handler h' chunk = (h'', Some e) ->
  readStreamingResponse ctx (pre ++ line :: post) scanErr h
  = (Some ("handler error after " +:+ fmt_d (n + 1) +:+ " chunks: " +:+ e), h'').
Proof.
  intros Hpre Hctx Hnd Hc Hh. unfold Streaming.readStreamingResponse.
  rewrite scanLoop_app, Hpre. cbn [Streaming.scanLoop Nat.add]. rewrite Hctx.
  rewrite iteration_chunk_of by done. by rewrite Hc, Hh.
Qed.

(** X9.  A line that carries no chunk and is not the sentinel (a blank line,
    a comment, another SSE field, a data line whose payload does not parse)
    can be added to or removed from a stream without changing what the
    reader returns or what the handler sees, as long as the context is not
    cancelled. *)
Theorem X9_lines_without_a_chunk_are_invisible
    (pre post : list string) (line : string) (scanErr : option string) (h : H) :
  line <> "data: [DONE]" ->
  chunk_of line = None ->
  readStreamingResponse neverDone (pre ++ line :: post) scanErr h
  = readStreamingResponse neverDone (pre ++ post) scanErr h.
Proof.
  intros Hnd Hc. unfold Streaming.readStreamingResponse. rewrite !scanLoop_app.
  destruct (scanLoop neverDone 0 pre 0 h) as [n h'|e h']; [|done].
  cbn [Streaming.scanLoop]. unfold neverDone at 1.
  rewrite iteration_chunk_of by done. rewrite Hc.
  by rewrite (scanLoop_never_done_index _ _ _ _ post _ (0 + length pre)).
Qed.

End ReaderMore.

Lemma X7_witness :
  readStreamingResponse string braceChunk (list string) collect neverDone
    ["data: {a}"; ": ping"; "data: oops"; "data: {b}"; "data: [DONE]"; "data: {c}"] None []
  = (None, ["{a}"; "{b}"]).
Proof.
  rewrite (X7_chunks_reach_the_handler_once_and_in_order string braceChunk (list string)
             collect); [reflexivity|]. intros h c. reflexivity.
Defined.

Lemma X8_witness :
  readStreamingResponse string braceChunk (list string) stopAt neverDone
    (["data: {a}"] ++ "data: {stop}" :: ["data: {b}"; "data: [DONE]"]) None []
  = (Some "handler error after 2 chunks: enough", ["{a}"]).
Proof.
  apply (X8_handler_error_ends_the_stream string braceChunk (list string) stopAt neverDone
           ["data: {a}"] ["data: {b}"; "data: [DONE]"] "data: {stop}" None
           [] ["{a}"] ["{a}"] 1 "{stop}" "enough");
    [reflexivity|reflexivity|discriminate|reflexivity|reflexivity].
Defined.

Lemma X9_witness :
  readStreamingResponse string braceChunk (list string) collect neverDone
    (["data: {a}"] ++ "data: not json" :: ["data: {b}"]) (Some "unexpected EOF") []
  = readStreamingResponse string braceChunk (list string) collect neverDone
      (["data: {a}"] ++ ["data: {b}"]) (Some "unexpected EOF") [].
Proof.
  apply (X9_lines_without_a_chunk_are_invisible string braceChunk (list string) collect);
    [discriminate|reflexivity].
Defined.

End StreamingMore.

(* ===================================================================== *)
(** ** The embedders: further properties *)
(* ===================================================================== *)

Module MemoryMore.
Import Go Memory MemorySpec Embedders MemoryFacts.

Local Open Scope string_scope.
Local Open Scope Z_scope.
Local Open Scope list_scope.

(** *** The BLOB encoding, read back *)

Section BlobMore.

Lemma byte_high_bits (b n : Z) : is_byte b -> 8 <= n -> Z.testbit b n = false.
Proof.
  intros [Hlo Hhi] Hn. rewrite <- (Z.mod_small b (2 ^ 8)) by lia.
  apply Z.mod_pow2_bits_high. lia.
Qed.

Lemma PutUint32_Uint32 (b0 b1 b2 b3 : Z) (rest : list Z) :
  is_byte b0 -> is_byte b1 -> is_byte b2 -> is_byte b3 ->
  PutUint32 (Uint32 (b0 :: b1 :: b2 :: b3 :: rest)) = [b0; b1; b2; b3]
  /\ is_float32 (Uint32 (b0 :: b1 :: b2 :: b3 :: rest)).
Proof.
  intros H0 H1 H2 H3. unfold Uint32. cbn [nth].
  set (v := Z.lor (Z.lor (Z.lor b0 (Z.shiftl b1 8)) (Z.shiftl b2 16)) (Z.shiftl b3 24)).
  assert (Hbit : forall n, 0 <= n ->
            Z.testbit v n
            = Z.testbit b0 n || Z.testbit b1 (n - 8) || Z.testbit b2 (n - 16)
              || Z.testbit b3 (n - 24)).
  { intros n Hn. unfold v. by rewrite !Z.lor_spec, !Z.shiftl_spec by lia. }
  assert (Hbyte : forall k b, (k = 0 /\ b = b0) \/ (k = 8 /\ b = b1)
                              \/ (k = 16 /\ b = b2) \/ (k = 24 /\ b = b3) ->
            Z.shiftr v k mod 256 = b).
  { intros k b Hk. change 256 with (2 ^ 8). apply Z.bits_inj'. intros n Hn.
    assert (is_byte b) by (destruct Hk as [[_ ->]|[[_ ->]|[[_ ->]|[_ ->]]]]; done).
    destruct (Z_lt_le_dec n 8).
    - rewrite Z.mod_pow2_bits_low, Z.shiftr_spec, Hbit by lia.
      destruct Hk as [[-> ->]|[[-> ->]|[[-> ->]|[-> ->]]]].
      + rewrite (Z.testbit_neg_r _ (n + 0 - 8)), (Z.testbit_neg_r _ (n + 0 - 16)),
          (Z.testbit_neg_r _ (n + 0 - 24)) by lia.
        rewrite !orb_false_r. f_equal. lia.
      + rewrite (byte_high_bits b0), (Z.testbit_neg_r _ (n + 8 - 16)),
          (Z.testbit_neg_r _ (n + 8 - 24)) by (done || lia).
        rewrite !orb_false_r. cbn [orb]. f_equal. lia.
      + rewrite (byte_high_bits b0), (byte_high_bits b1) by (done || lia).
        rewrite (Z.testbit_neg_r _ (n + 16 - 24)) by lia.
        rewrite !orb_false_r. cbn [orb]. f_equal. lia.
      + rewrite (byte_high_bits b0), (byte_high_bits b1), (byte_high_bits b2)
          by (done || lia).
        cbn [orb]. f_equal. lia.
    - rewrite Z.mod_pow2_bits_high by lia. symmetry. by apply byte_high_bits. }
  split.
  - unfold PutUint32. rewrite <- (Z.shiftr_0_r v) at 1.
    rewrite (Hbyte 0 b0), (Hbyte 8 b1), (Hbyte 16 b2), (Hbyte 24 b3); [done|tauto..].
  - assert (Hnn : 0 <= v).
    { unfold v. destruct H0, H1, H2, H3.
      repeat (apply Z.lor_nonneg; split); try apply Z.shiftl_nonneg; lia. }
    split; [done|].
    destruct (Z.eq_dec v 0) as [->|Hnz]; [lia|].
    apply Z.log2_lt_pow2; [lia|].
    destruct (Z_lt_le_dec (Z.log2 v) 32) as [|Hge]; [done|exfalso].
    pose proof (Z.bit_log2 v ltac:(lia)) as Htop.
    rewrite Hbit in Htop by lia.
    rewrite (byte_high_bits b0), (byte_high_bits b1), (byte_high_bits b2),
      (byte_high_bits b3) in Htop by (done || lia). done.
Qed.

Lemma encode_loop (m : nat) (data : list Z) :
  length data = (4 * m)%nat -> Forall is_byte data ->
  flat_map PutUint32 (map (fun i => Uint32 (drop (i * 4) data)) (seq 0 m)) = data
  /\ Forall is_float32 (map (fun i => Uint32 (drop (i * 4) data)) (seq 0 m)).
Proof.
  revert data. induction m as [|m IH]; intros data Hlen Hall.
  - destruct data; [done|discriminate].
  - destruct data as [|b0 [|b1 [|b2 [|b3 rest]]]]; try (cbn in Hlen; lia).
    apply Forall_cons in Hall as [H0 Hall]. apply Forall_cons in Hall as [H1 Hall].
    apply Forall_cons in Hall as [H2 Hall]. apply Forall_cons in Hall as [H3 Hall].
    destruct (PutUint32_Uint32 b0 b1 b2 b3 rest H0 H1 H2 H3) as [Hput Hf].
    destruct (IH rest ltac:(cbn in Hlen; lia) Hall) as [IH1 IH2].
    cbn [seq map flat_map]. rewrite <- seq_shift, map_map.
    change (drop (0 * 4) (b0 :: b1 :: b2 :: b3 :: rest)) with (b0 :: b1 :: b2 :: b3 :: rest).
    rewrite Hput.
    assert (Hshift : map (fun i => Uint32 (drop (S i * 4) (b0 :: b1 :: b2 :: b3 :: rest)))
                         (seq 0 m)
                     = map (fun i => Uint32 (drop (i * 4) rest)) (seq 0 m)).
    { apply map_ext. intros i. reflexivity. }
    rewrite Hshift, IH1. split; [done|]. by constructor.
Qed.

(** X10.  Encoding the decoding of a BLOB gives the same bytes back, when
    its size is a multiple of four; the decoded values are [float32] bit
    patterns, one for every four bytes. *)
Theorem X10_encode_decode (data : list Z) :
  Forall is_byte data -> (length data mod 4 = 0)%nat ->
  EncodeEmbedding (DecodeEmbedding data) = data
  /\ Forall is_float32 (DecodeEmbedding data)
  /\ length (DecodeEmbedding data) = (length data / 4)%nat.
Proof.
  intros Hall Hmod. unfold DecodeEmbedding.
  destruct data as [|b data]; [done|].
  change (length (b :: data) =? 0)%nat with false.
  rewrite (proj2 (Nat.eqb_eq _ _) Hmod). cbn [negb orb].
  set (m := (length (b :: data) / 4)%nat).
  assert (Hlen : length (b :: data) = (4 * m)%nat).
  { unfold m. pose proof (Nat.div_mod_eq (length (b :: data)) 4). lia. }
  destruct (encode_loop m (b :: data) Hlen Hall) as [Henc Hf].
  split_and!; [|done|by rewrite length_map, length_seq].
  unfold EncodeEmbedding. rewrite length_map, length_seq.
  destruct m as [|m]; [cbn in Hlen; lia|]. exact Henc.
Qed.

(** X11.  [DecodeEmbedding] returns no values at all exactly when the BLOB
    is empty or its size is not a multiple of four: a damaged BLOB is not
    decoded in part. *)
Theorem X11_decode_rejects_damaged_blobs (data : list Z) :
  DecodeEmbedding data = [] <-> (length data = 0%nat \/ (length data mod 4 <> 0)%nat).
Proof.
  unfold DecodeEmbedding. split.
  - intros Hd. destruct (Nat.eqb_spec (length data) 0) as [|Hne]; [by left|].
    destruct (Nat.eqb_spec (length data mod 4) 0) as [Hz|]; [|by right].
    exfalso. cbn [negb orb] in Hd. apply (f_equal length) in Hd.
    rewrite length_map, length_seq in Hd. cbn [length] in Hd.
    pose proof (Nat.div_mod_eq (length data) 4). lia.
  - intros [->|Hne]; [done|].
    destruct (Nat.eqb_spec (length data mod 4) 0); [done|].
    by rewrite orb_true_r.
Qed.

End BlobMore.

(** *** What the hashed vector counts *)

Section Counts.

(** X12.  The second hash adds nothing: FNV-1 and FNV-1a agree on their
    lowest bit, so the sign of a word is fixed by the coordinate it is
    hashed to, -1 at the even coordinates and +1 at the odd ones. *)
Theorem X12_sign_is_fixed_by_the_coordinate (w : list rune) :
  (wordIndex w < 256)%nat /\ wordSign w = sign_at (wordIndex w).
Proof.
  unfold wordIndex, wordSign, sign_at, hashDimensions.
  pose proof (fnv32a_nonneg (word_bytes w)) as Hnn.
  pose proof (Z.mod_pos_bound (fnv32a (word_bytes w)) 256 ltac:(lia)) as Hb.
  split; [lia|]. rewrite Z2Nat.id by lia.
  change 256 with (2 ^ 8). rewrite <- (Z.bit0_odd (_ mod _)).
  rewrite Z.mod_pow2_bits_low by lia. rewrite Z.bit0_odd, fnv_parity.
  rewrite (Zmod_odd (fnv32 (word_bytes w))).
  by destruct (Z.odd (fnv32 (word_bytes w))).
Qed.

Lemma count_at_cons (i : nat) (w : list rune) (words : list (list rune)) :
  count_at i (w :: words)
  = (if decide (wordIndex w = i) then 1 else 0) + count_at i words.
Proof.
  unfold count_at. rewrite filter_cons.
  destruct (decide (wordIndex w = i)); cbn [length]; lia.
Qed.

Lemma count_at_nonneg (i : nat) (words : list (list rune)) : 0 <= count_at i words.
Proof. unfold count_at. lia. Qed.

Lemma count_at_le (i : nat) (words : list (list rune)) :
  count_at i words <= Z.of_nat (length words).
Proof.
  unfold count_at. pose proof (length_filter (fun w => wordIndex w = i) words). lia.
Qed.

Lemma accumulate_counts_from (words : list (list rune)) (vec : list Z) (base : nat -> Z) :
  length vec = 256%nat ->
  (forall i, (i < 256)%nat -> vec !! i = Some (sign_at i * base i)) ->
  (forall i, 0 <= base i) ->
  (forall i, base i + count_at i words <= 2 ^ 24) ->
  forall i, (i < 256)%nat ->
    fold_left addWord words vec !! i = Some (sign_at i * (base i + count_at i words)).
Proof.
  revert vec base. induction words as [|w words IH]; intros vec base Hlen Hvec Hnn Hmax i Hi.
  - cbn [fold_left]. unfold count_at. cbn. rewrite Z.add_0_r. by apply Hvec.
  - cbn [fold_left].
    destruct (wordSign_by_index w) as [Hidx Hsign]. fold (sign_at (wordIndex w)) in Hsign.
    set (base' := fun j => if decide (wordIndex w = j) then base j + 1 else base j).
    rewrite (IH (addWord vec w) base').
    + f_equal. rewrite count_at_cons. unfold base'.
      destruct (decide (wordIndex w = i)); lia.
    + unfold addWord. by rewrite length_insert.
    + intros j Hj. unfold addWord, base'.
      destruct (decide (wordIndex w = j)) as [<-|Hne].
      * rewrite list_lookup_insert_eq by lia. f_equal.
        rewrite (list_lookup_total_correct _ _ _ (Hvec _ Hidx)), Hsign.
        unfold f32_add_unit.
        pose proof (Hnn (wordIndex w)). pose proof (Hmax (wordIndex w)) as Hm.
        rewrite count_at_cons, decide_True in Hm by done.
        pose proof (count_at_nonneg (wordIndex w) words).
        assert (Hin : - 2 ^ 24 <= sign_at (wordIndex w) * base (wordIndex w)
                                  + sign_at (wordIndex w) <= 2 ^ 24).
        { unfold sign_at. destruct (Z.odd _); lia. }
        rewrite (proj2 (Z.leb_le _ _) (proj1 Hin)), (proj2 (Z.leb_le _ _) (proj2 Hin)).
        cbn [andb]. lia.
      * rewrite list_lookup_insert_ne by done. by apply Hvec.
    + intros j. unfold base'. pose proof (Hnn j). destruct (decide _); lia.
    + intros j. pose proof (Hmax j) as Hm. rewrite count_at_cons in Hm. unfold base'.
      destruct (decide (wordIndex w = j)); lia.
    + done.
Qed.

(** X13.  With at most 2^24 words, every coordinate of the vector before
    normalisation is the number of words hashed to it, negated at the even
    coordinates: contributions to a coordinate never cancel. *)
Theorem X13_coordinates_count_the_words (words : list (list rune)) (i : nat) :
  Z.of_nat (length words) <= 2 ^ 24 -> (i < 256)%nat ->
  accumulate words !! i = Some (sign_at i * count_at i words).
Proof.
  intros Hlen Hi. unfold accumulate.
  rewrite (accumulate_counts_from words _ (fun _ => 0)); [done| | | | |done].
  - by rewrite repeat_length.
  - intros j Hj. rewrite Z.mul_0_r.
    destruct (lookup_lt_is_Some_2 (repeat 0 (Z.to_nat hashDimensions)) j) as [c Hc].
    { by rewrite repeat_length. }
    rewrite Hc. f_equal. apply list_elem_of_lookup_2, list_elem_of_In, repeat_spec in Hc.
    done.
  - done.
  - intros j. pose proof (count_at_le j words). lia.
Qed.

End Counts.

(** *** The order of the words *)

Section WordOrder.

Lemma addWord_comm (vec : list Z) (w1 w2 : list rune) :
  addWord (addWord vec w1) w2 = addWord (addWord vec w2) w1.
Proof.
  destruct (wordSign_by_index w1) as [_ Hs1]. destruct (wordSign_by_index w2) as [_ Hs2].
  unfold addWord. destruct (decide (wordIndex w1 = wordIndex w2)) as [Heq|Hne].
  - rewrite Hs1, Hs2, Heq. reflexivity.
  - rewrite !list_lookup_total_insert_ne by done.
    by rewrite list_insert_insert_ne.
Qed.

Lemma fold_addWord_perm (words words' : list (list rune)) :
  words ≡ₚ words' ->
  forall vec, fold_left addWord words vec = fold_left addWord words' vec.
Proof.
  induction 1 as [|w l l' _ IH|w1 w2 l|l1 l2 l3 _ IH1 _ IH2]; intros vec.
  - done.
  - cbn [fold_left]. apply IH.
  - cbn [fold_left]. by rewrite addWord_comm.
  - by rewrite IH1.
Qed.

End WordOrder.

(** *** tokenize *)

Section Tokens.
Variable unicode_IsLetter : rune -> bool.
Variable unicode_IsDigit : rune -> bool.
Variable unicode_ToLower : rune -> rune.
Variable rnd64 : R -> R.
Variable rnd32 : R -> R.

Abbreviation tokenize := (tokenize unicode_IsLetter unicode_IsDigit unicode_ToLower).
Abbreviation hashEmbed :=
  (hashEmbed unicode_IsLetter unicode_IsDigit unicode_ToLower rnd64 rnd32).
Abbreviation separator := (separator unicode_IsLetter unicode_IsDigit).

Lemma fieldsFrom_fields (f : rune -> bool) (s cur : list rune) (w : list rune) :
  Forall (fun r => f r = false) cur ->
  w ∈ fieldsFrom f s cur ->
  w <> [] /\ Forall (fun r => f r = false /\ r ∈ cur ++ s) w.
Proof.
  revert cur. induction s as [|r s IH]; intros cur Hcur Hw.
  - cbn in Hw. destruct cur as [|c cur]; [by apply elem_of_nil in Hw|].
    apply list_elem_of_singleton in Hw as ->. split.
    + intros E. apply (f_equal length) in E. rewrite length_rev in E. discriminate.
    + apply Forall_forall. intros x Hx. apply list_elem_of_In, in_rev, list_elem_of_In in Hx.
      rewrite Forall_forall in Hcur. split; [by apply Hcur|].
      by rewrite app_nil_r.
  - cbn [fieldsFrom] in Hw. destruct (f r) eqn:Hfr.
    + assert (Hrest : w ∈ fieldsFrom f s [] ->
                      w <> [] /\ Forall (fun x => f x = false /\ x ∈ cur ++ r :: s) w).
      { intros Hin. destruct (IH [] ltac:(constructor) Hin) as [Hne Hall].
        split; [done|]. eapply Forall_impl; [exact Hall|].
        intros x [Hx Hmem]. split; [done|]. cbn [app] in Hmem.
        apply elem_of_app. right. by right. }
      destruct cur as [|c cur]; [by apply Hrest|].
      apply elem_of_cons in Hw as [->|Hw]; [|by apply Hrest]. split.
      * intros E. apply (f_equal length) in E. rewrite length_rev in E. discriminate.
      * apply Forall_forall. intros x Hx.
        apply list_elem_of_In, in_rev, list_elem_of_In in Hx.
        rewrite Forall_forall in Hcur. split; [by apply Hcur|].
        apply elem_of_app. by left.
    + destruct (IH (r :: cur) ltac:(by constructor) Hw) as [Hne Hall].
      split; [done|]. eapply Forall_impl; [exact Hall|].
      intros x [Hx Hmem]. split; [done|].
      apply elem_of_app in Hmem as [Hmem|Hmem].
      * apply elem_of_cons in Hmem as [->|Hmem].
        -- apply elem_of_app. right. left.
        -- apply elem_of_app. by left.
      * apply elem_of_app. right. by right.
Qed.

(** X14.  Every token is a non-empty run of lower-cased runes of the text
    that are letters, digits or underscores; it has at least two bytes and
    is not a stop word. *)
Theorem X14_tokens_are_words (text : list rune) (w : list rune) :
  w ∈ tokenize text ->
  Forall (fun r => separator r = false /\ r ∈ map unicode_ToLower text) w
  /\ 2 <= Z.of_nat (length (word_bytes w))
  /\ isStopWord w = false.
Proof.
  intros Hw. unfold Memory.tokenize in Hw.
  apply list_elem_of_filter in Hw as [Hkeep Hfield].
  apply Is_true_true, andb_true_iff in Hkeep as [H1 H2].
  apply fieldsFrom_fields in Hfield as [_ Hall]; [|constructor].
  split_and!; [exact Hall|by apply Z.leb_le|by apply negb_true_iff].
Qed.

Lemma fieldsFrom_split (f : rune -> bool) (a b cur : list rune) (sep : rune) :
  f sep = true ->
  fieldsFrom f (a ++ sep :: b) cur = fieldsFrom f a cur ++ fieldsFrom f b [].
Proof.
  intros Hsep. revert cur. induction a as [|r a IH]; intros cur.
  - cbn [app fieldsFrom]. rewrite Hsep. by destruct cur.
  - cbn [app fieldsFrom]. destruct (f r); [|apply IH].
    destruct cur; by rewrite IH.
Qed.

Lemma tokenize_split (a b : list rune) (sep : rune) :
  separator (unicode_ToLower sep) = true ->
  tokenize (a ++ sep :: b) = tokenize a ++ tokenize b.
Proof.
  intros Hsep. unfold Memory.tokenize, strings_FieldsFunc.
  rewrite map_app. cbn [map]. rewrite fieldsFrom_split by exact Hsep.
  apply filter_app.
Qed.

(** X15.  A separator splits a text: the tokens of [a], a separator and [b]
    are the tokens of [a] followed by the tokens of [b]. *)
Theorem X15_tokens_of_a_split_text (a b : list rune) (sep : rune) :
  separator (unicode_ToLower sep) = true ->
  tokenize (a ++ sep :: b) = tokenize a ++ tokenize b.
Proof.
  intros Hsep. unfold Memory.tokenize, strings_FieldsFunc.
  rewrite map_app. cbn [map]. rewrite fieldsFrom_split by exact Hsep.
  apply filter_app.
Qed.

(** X16.  The embedding of a text depends on the tokens only as a bag: two
    texts whose tokens are the same up to their order have the same
    embedding; in particular the two sides of a separator can be swapped. *)
Theorem X16_embedding_ignores_word_order (a b : list rune) (sep : rune) :
  (forall text text', tokenize text ≡ₚ tokenize text' -> hashEmbed text = hashEmbed text')
  /\ (separator (unicode_ToLower sep) = true ->
      hashEmbed (a ++ sep :: b) = hashEmbed (b ++ sep :: a)).
Proof.
  assert (Hperm : forall text text',
             tokenize text ≡ₚ tokenize text' -> hashEmbed text = hashEmbed text').
  { intros text text' Hp. unfold Memory.hashEmbed.
    rewrite (Permutation_length Hp). unfold accumulate.
    by rewrite (fold_addWord_perm _ _ Hp). }
  split; [exact Hperm|]. intros Hsep. apply Hperm.
  rewrite !tokenize_split by done. apply Permutation_app_comm.
Qed.

End Tokens.

(** *** The cosine similarity *)

Section Cosine.
Local Open Scope R_scope.
Variable rnd64 : R -> R.
Variable rnd32 : R -> R.

Abbreviation cosStep := (cosStep rnd64).
Abbreviation CosineSimilarity := (CosineSimilarity rnd64 rnd32).

Lemma cos_fold_swap (a b : list R) (dot normA normB : R) :
  fold_left cosStep (combine b a) (dot, normB, normA)
  = let '(dot', normA', normB') := fold_left cosStep (combine a b) (dot, normA, normB) in
    (dot', normB', normA').
Proof.
  revert b dot normA normB. induction a as [|x a IH]; intros b dot normA normB.
  - by destruct b.
  - destruct b as [|y b]; [done|]. cbn [combine fold_left Embedders.cosStep].
    rewrite (Rmult_comm y x). apply IH.
Qed.

Lemma CosineSimilarity_comm (a b : list R) : CosineSimilarity a b = CosineSimilarity b a.
Proof.
  unfold Embedders.CosineSimilarity. rewrite (Nat.eqb_sym (length b)).
  destruct (Nat.eqb_spec (length a) (length b)) as [Hlen|]; [|done].
  rewrite <- Hlen. cbn [negb orb]. destruct (length a =? 0)%nat; [done|].
  rewrite (cos_fold_swap a b 0 0 0).
  destruct (fold_left cosStep (combine a b) (0, 0, 0)) as [[dot normA] normB].
  by rewrite (Rmult_comm (rnd64 (sqrt normB))).
Qed.

(** X17.  The cosine similarity is symmetric, rounding included: the two
    arguments can be exchanged without changing the result. *)
Theorem X17_cosine_similarity_is_symmetric (a b : list R) :
  CosineSimilarity a b = CosineSimilarity b a.
Proof.
  unfold Embedders.CosineSimilarity. rewrite (Nat.eqb_sym (length b)).
  destruct (Nat.eqb_spec (length a) (length b)) as [Hlen|]; [|done].
  rewrite <- Hlen. cbn [negb orb]. destruct (length a =? 0)%nat; [done|].
  rewrite (cos_fold_swap a b 0 0 0).
  destruct (fold_left cosStep (combine a b) (0, 0, 0)) as [[dot normA] normB].
  by rewrite (Rmult_comm (rnd64 (sqrt normB))).
Qed.

Lemma cos_fold_zero (a b : list R) (dot normB : R) :
  rnd64 0 = 0 -> Forall (fun x => x = 0) a ->
  exists dot' normB', fold_left cosStep (combine a b) (dot, 0, normB) = (dot', 0, normB').
Proof.
  intros H0 Ha. revert b dot normB. induction Ha as [|x a -> Ha IH]; intros b dot normB.
  - eauto.
  - destruct b as [|y b]; [cbn; eauto|]. cbn [combine fold_left Embedders.cosStep].
    rewrite !Rmult_0_l, !H0, Rplus_0_l, H0. apply IH.
Qed.

Lemma CosineSimilarity_zero_left (a b : list R) :
  rnd64 0 = 0 -> Forall (fun x => x = 0) a -> CosineSimilarity a b = 0.
Proof.
  intros H0 Ha. unfold Embedders.CosineSimilarity.
  destruct (negb _ || _); [done|].
  destruct (cos_fold_zero a b 0 0 H0 Ha) as (dot & normB & ->).
  rewrite sqrt_0, H0, Rmult_0_l, H0. by destruct (Req_dec_T 0 0).
Qed.

(** X18.  The similarity is 0, and nothing is divided by zero, when the
    vectors differ in length, when they are empty, and when either of them
    is all zeros. *)
Theorem X18_cosine_similarity_of_degenerate_vectors (a b : list R) :
  rnd64 0 = 0 ->
  length a <> length b \/ a = [] \/ Forall (fun x => x = 0) a \/ Forall (fun x => x = 0) b ->
  CosineSimilarity a b = 0.
Proof.
  intros H0 [Hlen|[->|[Ha|Hb]]].
  - unfold Embedders.CosineSimilarity. by destruct (Nat.eqb_spec (length a) (length b)).
  - unfold Embedders.CosineSimilarity. cbn [length]. by rewrite orb_true_r.
  - by apply CosineSimilarity_zero_left.
  - rewrite CosineSimilarity_comm. by apply CosineSimilarity_zero_left.
Qed.

End Cosine.

(** *** The embedders *)

Section EmbedMore.
Variable unicode_IsLetter : rune -> bool.
Variable unicode_IsDigit : rune -> bool.
Variable unicode_ToLower : rune -> rune.
Variable rnd64 : R -> R.
Variable rnd32 : R -> R.

Abbreviation hashEmbed' :=
  (Memory.hashEmbed unicode_IsLetter unicode_IsDigit unicode_ToLower rnd64 rnd32).
Abbreviation HashEmbedder_Embed :=
  (HashEmbedder_Embed unicode_IsLetter unicode_IsDigit unicode_ToLower rnd64 rnd32).
Abbreviation FallbackEmbedder_Embed :=
  (FallbackEmbedder_Embed unicode_IsLetter unicode_IsDigit unicode_ToLower rnd64 rnd32).

Lemma hashEmbed_length (text : list rune) : length (hashEmbed' text) = 256%nat.
Proof.
  unfold Memory.hashEmbed. destruct (length _ =? 0)%nat.
  - by rewrite length_map, repeat_length.
  - rewrite normalize_length, length_map.
    apply (accumulate_counts (Memory.tokenize _ _ _ text)).
Qed.

(** X19.  [FallbackEmbedder.Embed] never returns an error.  When there is no
    primary embedder, or the primary one fails, the result is the hash
    embedding: one vector of 256 coordinates for every text. *)
Theorem X19_fallback_embedder_never_fails
    (primary : option Embedder) (texts : list (list rune)) :
  exists vectors,
    FallbackEmbedder_Embed primary texts = Ok vectors
    /\ ((primary = None \/ exists p e, primary = Some p /\ Embed p texts = Err e) ->
        vectors = map hashEmbed' texts
        /\ length vectors = length texts
        /\ Forall (fun v => length v = 256%nat) vectors).
Proof.
  assert (Hhash : length (map hashEmbed' texts) = length texts
                  /\ Forall (fun v => length v = 256%nat) (map hashEmbed' texts)).
  { split; [apply length_map|]. apply Forall_fmap, Forall_forall.
    intros text _. apply hashEmbed_length. }
  unfold Embedders.FallbackEmbedder_Embed, Embedders.HashEmbedder_Embed.
  destruct primary as [p|].
  - destruct (Embed p texts) as [vectors|e] eqn:Hp.
    + exists vectors. split; [done|].
      intros [?|(p' & e & [= <-] & He)]; [done|]. by rewrite Hp in He.
    + eexists. split; [done|]. intros _. by destruct Hhash.
  - eexists. split; [done|]. intros _. by destruct Hhash.
Qed.

End EmbedMore.

(** *** Runs on the ASCII tables *)

Lemma X10_witness :
  EncodeEmbedding (DecodeEmbedding [0; 0; 128; 63; 0; 0; 32; 192])
  = [0; 0; 128; 63; 0; 0; 32; 192].
Proof.
  apply (X10_encode_decode [0; 0; 128; 63; 0; 0; 32; 192]).
  - unfold is_byte. repeat constructor; lia.
  - reflexivity.
Defined.

Lemma X13_witness :
  accumulate (asciiTokenize "fix the build then run the build") !! 1%nat
  = Some (sign_at 1 * count_at 1 (asciiTokenize "fix the build then run the build")).
Proof.
  apply X13_coordinates_count_the_words; [vm_compute; discriminate|lia].
Defined.

Lemma X14_witness :
  Forall (fun r => separator ascii_IsLetter ascii_IsDigit r = false
                   /\ r ∈ map ascii_ToLower (runes_of_string "Fix the_build!"))
         (runes_of_string "the_build").
Proof.
  apply (X14_tokens_are_words ascii_IsLetter ascii_IsDigit ascii_ToLower
           (runes_of_string "Fix the_build!") (runes_of_string "the_build")).
  vm_compute. right. left.
Defined.

Lemma X15_witness :
  asciiTokenize "fix build, run tests"
  = asciiTokenize "fix build" ++ asciiTokenize " run tests".
Proof.
  apply (X15_tokens_of_a_split_text ascii_IsLetter ascii_IsDigit ascii_ToLower
           (runes_of_string "fix build") (runes_of_string " run tests") 44).
  reflexivity.
Defined.

Lemma X16_witness :
  Memory.hashEmbed ascii_IsLetter ascii_IsDigit ascii_ToLower exact exact
    (runes_of_string "fix build" ++ 44 :: runes_of_string " run tests")
  = Memory.hashEmbed ascii_IsLetter ascii_IsDigit ascii_ToLower exact exact
      (runes_of_string " run tests" ++ 44 :: runes_of_string "fix build").
Proof.
  apply (X16_embedding_ignores_word_order ascii_IsLetter ascii_IsDigit ascii_ToLower
           exact exact).
  reflexivity.
Defined.

Lemma X18_witness :
  Embedders.CosineSimilarity exact exact [0; 0]%R [1; 2]%R = 0%R.
Proof.
  apply (X18_cosine_similarity_of_degenerate_vectors exact exact); [reflexivity|].
  right. right. left. by repeat constructor.
Defined.

(** Two tokens at one coordinate add up. *)
Example count_sample :
  asciiTokenize "build the Build; BUILD it" = map runes_of_string ["build"; "build"; "build"]
  /\ Z.abs (accumulate (asciiTokenize "build the Build; BUILD it")
              !!! wordIndex (runes_of_string "build")) = 3.
Proof. split; vm_compute; reflexivity. Qed.

End MemoryMore.

(* ===================================================================== *)
(** ** The lessons provider: further properties *)
(* ===================================================================== *)

Module LessonsMore.
Import Go Lessons LessonsSpec LessonFormat.

Local Open Scope string_scope.
Local Open Scope Z_scope.
Local Open Scope list_scope.




Section Relevant.
Variable float32 : Type.


End Relevant.


(** Two entries of 1015 bytes: only the first is kept. *)
Example second_long_lesson_is_dropped :
  GetRelevantLessons (Some (mkProvider (Some twiceDb) (Some unitEmbedder)))
    "proj" "fix the build" 3
  = relevantHeader +:+ relevantEntry longLesson
  /\ String.length (relevantEntry longLesson) = 1015%nat.
Proof. split; vm_compute; reflexivity. Qed.

End LessonsMore.

(* ===================================================================== *)
(** ** The response cache: further properties *)
(* ===================================================================== *)

Module CacheMore.
Import Go Cache CacheSpec CacheOps CacheOpsSpec.

Local Open Scope string_scope.
Local Open Scope Z_scope.
Local Open Scope list_scope.

Section GetFacts.
Variable getStringFromMap : gmap string value -> string -> string.
Variable getInt64FromMap : gmap string value -> string -> Z.
Variable unmarshal_entry : string -> result Entry.
Variable marshal_entry : Entry -> result string.

Abbreviation Get := (RedisCache_Get unmarshal_entry marshal_entry).

(** The call returned the cache it was given. *)
Ltac unchanged :=
  split_and!;
  [reflexivity
  |reflexivity
  |intros Hnone; first [exact Hnone|discriminate Hnone|assumption]
  |intros ? ? Hsome; left;
   first [exact Hsome
         |match goal with
          | Hkey : _ = None |- _ => discriminate (eq_trans (eq_sym Hkey) Hsome)
          | Hkey : _ = Some _ |- _ => exact (eq_trans (eq_sym Hkey) Hsome)
          end]].
Abbreviation SetEntry := (RedisCache_Set getStringFromMap getInt64FromMap marshal_entry).

(** X21.  With the cache enabled, the server reachable and a codec that
    reads the new entry back, a [Get] that follows a [Set] of the same key is
    a hit: it returns the entry [Set] built with a hit count of 1, adds one
    to the hits and the entry's tokens to the tokens saved, and leaves the
    misses alone. *)
Theorem X21_get_after_set_is_a_hit
    (rc : RedisCache) (stats : Stats) (now now' now'' : Time) (key : string)
    (response : value) (ttl : Duration) (metadata : gmap string value) (data : string) :
  Enabled (config rc) = true ->
  reachable (client rc) = true ->
  let entry := newEntry getStringFromMap getInt64FromMap rc now now' key response ttl metadata in
  marshal_entry entry = Ok data ->
  unmarshal_entry data = Ok entry ->
  let stored := SetEntry rc now now' key response ttl metadata in
  stored.2 = None
  /\ exists rc',
       Get stored.1 stats now'' key
       = (rc',
          mkStats (int_add (StatsHits stats) 1) (StatsMisses stats)
                  (int_add (StatsTokensSaved stats) (getInt64FromMap metadata "total_tokens")),
          Some (with_hits entry 1)).
Proof.
  intros Hen Hreach entry Hm Hu stored.
  assert (Hstored : stored
                    = (mkCache (mkRedis (<["cache:" +:+ key :=
                                             (data, if ttl =? 0 then DefaultTTL (config rc)
                                                    else ttl)]> (kv (client rc))) true)
                               (config rc), None)).
  { unfold stored, RedisCache_Set. rewrite Hen. cbn [negb]. cbv zeta.
    pose proof Hm as Hm'. unfold entry, newEntry in Hm'. cbv zeta in Hm'.
    rewrite Hm'. unfold redis_Set. by rewrite Hreach. }
  rewrite Hstored. cbn [fst snd]. split; [done|].
  unfold RedisCache_Get. cbn [config client]. rewrite Hen. cbn [negb].
  unfold redis_Get. cbn [reachable kv]. rewrite lookup_insert_eq, Hu.
  eexists. reflexivity.
Qed.

(** X22.  A [Get] changes nothing on the server but the key it looks up, and
    it never creates that key.  When it leaves a value under the key that
    was not there before, that value is the entry it returns, stored with a
    positive expiration that ends no later than the entry's [ExpiresAt]: a
    hit does not extend the life of an entry. *)
Theorem X22_get_does_not_extend_the_lifetime
    (rc rc' : RedisCache) (stats stats' : Stats) (now : Time) (key : string)
    (result : option Entry) :
  Get rc stats now key = (rc', stats', result) ->
  config rc' = config rc
  /\ (forall other, other <> "cache:" +:+ key ->
        kv (client rc') !! other = kv (client rc) !! other)
  /\ (kv (client rc) !! ("cache:" +:+ key) = None ->
      kv (client rc') !! ("cache:" +:+ key) = None)
  /\ (forall data ttl,
        kv (client rc') !! ("cache:" +:+ key) = Some (data, ttl) ->
        kv (client rc) !! ("cache:" +:+ key) = Some (data, ttl)
        \/ exists entry,
             result = Some entry /\ marshal_entry entry = Ok data
             /\ 0 < ttl /\ now + ttl <= ExpiresAt entry).
Proof.
  unfold RedisCache_Get. destruct (Enabled (config rc)); cbn [negb].
  2:{ intros [= <- _ _]. unchanged. }
  unfold redis_Get. destruct (reachable (client rc)) eqn:Hreach.
  2:{ intros [= <- _ _]. unchanged. }
  destruct (kv (client rc) !! ("cache:" +:+ key)) as [[val ttl0]|] eqn:Hkey.
  2:{ intros [= <- _ _]. unchanged. }
  destruct (unmarshal_entry val) as [entry|e].
  - destruct (marshal_entry _) as [data'|e] eqn:Hm.
    2:{ intros [= <- _ _]. unchanged. }
    destruct (Z.ltb_spec 0 (time_Until now (ExpiresAt (with_hits entry (int_add (Hits entry) 1)))))
      as [Hpos|Hneg].
    2:{ intros [= <- _ _]. unchanged. }
    unfold redis_Set. rewrite Hreach. intros [= <- _ <-]. cbn [config client kv fst].
    split_and!; [done| |done|].
    + intros other Hne. by rewrite lookup_insert_ne.
    + intros data ttl. rewrite lookup_insert_eq. intros [= <- <-]. right.
      eexists. split_and!; [reflexivity|exact Hm|exact Hpos|].
      unfold time_Until, Time_Sub, minDuration, maxDuration in *.
      cbn [ExpiresAt with_hits] in *. cbv zeta in *.
      destruct (Z.ltb_spec (ExpiresAt entry - now) (- 2 ^ 63)); [lia|].
      destruct (Z.ltb_spec (2 ^ 63 - 1) (ExpiresAt entry - now)); lia.
  - unfold redis_Del. rewrite Hreach. intros [= <- _ _]. cbn [config client kv].
    split_and!; [done| |done|].
    + intros other Hne. by rewrite lookup_delete_ne.
    + intros data ttl. by rewrite lookup_delete_eq.
Qed.

(** X23.  A value that does not parse is evicted: the [Get] that finds it
    deletes the key and counts a miss, and the next [Get] of the key is a
    plain miss that leaves the server as it is. *)
Theorem X23_corrupt_entry_is_evicted
    (rc : RedisCache) (stats : Stats) (now now' : Time) (key data e : string)
    (ttl : Duration) :
  Enabled (config rc) = true ->
  reachable (client rc) = true ->
  kv (client rc) !! ("cache:" +:+ key) = Some (data, ttl) ->
  unmarshal_entry data = Err e ->
  let rc' := mkCache (mkRedis (delete ("cache:" +:+ key) (kv (client rc))) true) (config rc) in
  Get rc stats now key = (rc', miss stats, None)
  /\ Get rc' (miss stats) now' key = (rc', miss (miss stats), None).
Proof.
  intros Hen Hreach Hkey Hu rc'. subst rc'. split.
  - unfold RedisCache_Get, redis_Get, redis_Del.
    by rewrite Hen, Hreach, Hkey, Hu.
  - unfold RedisCache_Get, redis_Get. cbn [config client reachable kv].
    by rewrite Hen, lookup_delete_eq.
Qed.

Lemma fold_Del_lookup (keys : list string) (r : Redis) (k : string) :
  reachable r = true ->
  reachable (fold_left redis_Del keys r) = true
  /\ kv (fold_left redis_Del keys r) !! k = if decide (k ∈ keys) then None else kv r !! k.
Proof.
  revert r. induction keys as [|key keys IH]; intros r Hreach.
  - split; [done|]. rewrite decide_False; [done|]. apply not_elem_of_nil.
  - cbn [fold_left]. unfold redis_Del at 2 4. rewrite Hreach.
    destruct (IH (mkRedis (delete key (kv r)) true) eq_refl) as [H1 H2].
    split; [done|]. rewrite H2. cbn [kv].
    destruct (decide (k ∈ keys)) as [Hin|Hnin].
    + rewrite decide_True; [done|]. by right.
    + destruct (decide (k = key)) as [->|Hne].
      * rewrite decide_True by left. apply lookup_delete_eq.
      * rewrite decide_False by (intros [?|?]%elem_of_cons; done).
        by rewrite lookup_delete_ne.
Qed.

(** X24.  With the cache enabled and the server reachable, [Delete] removes
    the key it is given and [Clear] the keys the scan yields, and neither
    touches any other key; a [Get] of a deleted key is a miss. *)
Theorem X24_delete_and_clear_remove_only_what_they_are_given
    (rc : RedisCache) (stats : Stats) (now : Time) (key : string) (keys : list string) :
  Enabled (config rc) = true ->
  reachable (client rc) = true ->
  Get (RedisCache_Delete rc key) stats now key = (RedisCache_Delete rc key, miss stats, None)
  /\ (forall k, kv (client (RedisCache_Delete rc key)) !! k
                = if decide (k = "cache:" +:+ key) then None else kv (client rc) !! k)
  /\ (forall k, kv (client (RedisCache_Clear rc keys)) !! k
                = if decide (k ∈ keys) then None else kv (client rc) !! k).
Proof.
  intros Hen Hreach. unfold RedisCache_Delete, RedisCache_Clear. rewrite Hen. cbn [negb].
  unfold redis_Del at 1 2 3. rewrite Hreach. split_and!.
  - unfold RedisCache_Get, redis_Get. cbn [config client reachable kv].
    by rewrite Hen, lookup_delete_eq.
  - intros k. cbn [client kv]. destruct (decide (k = "cache:" +:+ key)) as [->|Hne].
    + apply lookup_delete_eq.
    + by rewrite lookup_delete_ne.
  - intros k. cbn [client]. by apply fold_Del_lookup.
Qed.

(** *** The invalidations *)

Section Scans.
Variable p : Entry -> bool.
Variable step : Redis * Z -> string -> Redis * Z.
Hypothesis step_eq : forall r n key,
  step (r, n) key
  = match redis_Get r key with
    | Value val =>
        match unmarshal_entry val with
        | Ok entry => if p entry then (redis_Del r key, int_add n 1) else (r, n)
        | Err _ => (r, n)
        end
    | _ => (r, n)
    end.

Lemma scan_step (r : Redis) (n : Z) (key : string) :
  (step (r, n) key = (r, n)
   /\ (reachable r = true ->
       forall v e, kv r !! key = Some v -> unmarshal_entry v.1 = Ok e -> p e = false))
  \/ (exists v e, reachable r = true /\ kv r !! key = Some v
                  /\ unmarshal_entry v.1 = Ok e /\ p e = true
                  /\ step (r, n) key = (mkRedis (delete key (kv r)) true, int_add n 1)).
Proof.
  rewrite step_eq. unfold redis_Get, redis_Del.
  destruct (reachable r) eqn:Hreach; [|left; split; [done|done]].
  destruct (kv r !! key) as [[val ttl]|] eqn:Hkey; [|left; split; [done|done]].
  destruct (unmarshal_entry val) as [e|err] eqn:Hu.
  - destruct (p e) eqn:Hp.
    + right. exists (val, ttl), e. done.
    + left. split; [done|]. intros _ v e' [= <-] He'. cbn [fst] in He'.
      rewrite Hu in He'. by injection He' as <-.
  - left. split; [done|]. intros _ v e' [= <-] He'. cbn [fst] in He'. by rewrite Hu in He'.
Qed.

Lemma scan_fold (keys : list string) (r : Redis) (n : Z) :
  0 <= n -> n + Z.of_nat (size (kv r)) < 2 ^ 63 ->
  removes_exactly unmarshal_entry p keys r (fold_left step keys (r, n)).1
                  ((fold_left step keys (r, n)).2 - n).
Proof.
  revert r n. induction keys as [|key keys IH]; intros r n Hn Hsize.
  - cbn [fold_left fst snd]. split_and!; [done| |intros _ k v e []%elem_of_nil|lia].
    intros k v H1 H2. by rewrite H1 in H2.
  - cbn [fold_left]. destruct (scan_step r n key) as [[-> Hkeep]|(v0 & e0 & Hreach & Hkey & Hu & Hp & ->)].
    + destruct (IH r n Hn Hsize) as (H1 & H2 & H3 & H4). split_and!; [done| | |done].
      * intros k v Hk Hgone. destruct (H2 k v Hk Hgone) as [Hin Hex].
        split; [by right|done].
      * intros Hreach k v e Hin Hk Hu Hp.
        apply elem_of_cons in Hin as [->|Hin]; [|by eapply H3].
        by rewrite (Hkeep Hreach v e Hk Hu) in Hp.
    + assert (Hsz : size (delete key (kv r)) = pred (size (kv r))).
      { apply map_size_delete_Some. eauto. }
      assert (Hpos : (0 < size (kv r))%nat).
      { destruct (size (kv r)) eqn:E; [|lia].
        apply map_size_empty_inv in E. rewrite E in Hkey. by rewrite lookup_empty in Hkey. }
      assert (Hn1 : int_add n 1 = n + 1).
      { apply LoopDetectorFacts.int_add_no_overflow. unfold MaxInt. lia. }
      rewrite Hn1.
      destruct (IH (mkRedis (delete key (kv r)) true) (n + 1) ltac:(lia)
                  ltac:(cbn [kv]; rewrite Hsz; lia)) as (H1 & H2 & H3 & H4).
      cbn [kv reachable] in *. split_and!.
      * intros k v Hk. apply H1 in Hk. by apply lookup_delete_Some in Hk as [_ ?].
      * intros k v Hk Hgone. destruct (decide (k = key)) as [->|Hne].
        -- split; [left|]. exists e0. split; [|done]. by rewrite Hkey in Hk; injection Hk as <-.
        -- destruct (H2 k v) as [Hin Hex]; [by rewrite lookup_delete_ne|done|].
           split; [by right|done].
      * intros _ k v e Hin Hk Hue Hpe. destruct (decide (k = key)) as [->|Hne].
        -- destruct (kv (fold_left step keys _).1 !! key) as [v'|] eqn:E; [|done].
           apply H1 in E. by rewrite lookup_delete_eq in E.
        -- apply elem_of_cons in Hin as [?|Hin]; [done|].
           apply (H3 eq_refl k v e); [done| |done|done]. by rewrite lookup_delete_ne.
      * rewrite Hsz in H4. lia.
Qed.

End Scans.

(** X25.  [InvalidateByProvider] and [InvalidateByModel] on an enabled cache
    remove exactly the entries of the given provider, or model, among the
    keys the scan yields: entries of other providers, values that do not
    parse and keys the scan did not yield all stay as they are, and the
    number returned is the number of keys removed. *)
Theorem X25_invalidation_removes_exactly_the_matching_entries
    (rc : RedisCache) (keys : list string) (name : string) :
  Enabled (config rc) = true ->
  Z.of_nat (size (kv (client rc))) < 2 ^ 63 ->
  removes_exactly unmarshal_entry (fun e => String.eqb (ProviderID e) name) keys
    (client rc)
    (client (InvalidateByProvider unmarshal_entry rc keys name).1)
    (InvalidateByProvider unmarshal_entry rc keys name).2
  /\ removes_exactly unmarshal_entry (fun e => String.eqb (ModelName e) name) keys
       (client rc)
       (client (InvalidateByModel unmarshal_entry rc keys name).1)
       (InvalidateByModel unmarshal_entry rc keys name).2.
Proof.
  intros Hen Hsize. unfold InvalidateByProvider, InvalidateByModel, invalidateByMetadata.
  rewrite Hen. cbn [negb]. split.
  - pose proof (scan_fold (fun e => String.eqb (ProviderID e) name)
                  (invalidateStep unmarshal_entry "provider_id" name)
                  ltac:(intros; reflexivity) keys (client rc) 0 ltac:(lia) ltac:(lia)) as H.
    destruct (fold_left _ keys (client rc, 0)) as [r removed].
    cbn [fst snd client] in *. by rewrite Z.sub_0_r in H.
  - pose proof (scan_fold (fun e => String.eqb (ModelName e) name)
                  (invalidateStep unmarshal_entry "model_name" name)
                  ltac:(intros; reflexivity) keys (client rc) 0 ltac:(lia) ltac:(lia)) as H.
    destruct (fold_left _ keys (client rc, 0)) as [r removed].
    cbn [fst snd client] in *. by rewrite Z.sub_0_r in H.
Qed.

(** X26.  [InvalidateByAge] on an enabled cache removes exactly the entries
    cached before [now - maxAge] among the keys the scan yields, and returns
    their number; an entry cached at that instant or later stays. *)
Theorem X26_invalidation_by_age_removes_exactly_the_older_entries
    (rc : RedisCache) (now : Time) (keys : list string) (maxAge : Duration) :
  Enabled (config rc) = true ->
  Z.of_nat (size (kv (client rc))) < 2 ^ 63 ->
  removes_exactly unmarshal_entry (fun e => CachedAt e <? now + int_wrap (- maxAge)) keys
    (client rc)
    (client (InvalidateByAge unmarshal_entry rc now keys maxAge).1)
    (InvalidateByAge unmarshal_entry rc now keys maxAge).2.
Proof.
  intros Hen Hsize. unfold InvalidateByAge. rewrite Hen. cbn [negb]. cbv zeta.
  pose proof (scan_fold (fun e => CachedAt e <? now + int_wrap (- maxAge))
                (ageStep unmarshal_entry (now + int_wrap (- maxAge)))
                ltac:(intros; reflexivity) keys (client rc) 0 ltac:(lia) ltac:(lia)) as H.
  destruct (fold_left _ keys (client rc, 0)) as [r removed].
  cbn [fst snd client] in *. by rewrite Z.sub_0_r in H.
Qed.

(** X27.  A disabled cache does nothing: [Get] misses without counting,
    [Set] succeeds without storing, and [Delete], [Clear] and the four
    invalidations leave the server as it is and report no removal. *)
Theorem X27_disabled_cache_is_inert
    (rc : RedisCache) (stats : Stats) (now now' : Time) (key : string) (response : value)
    (ttl maxAge : Duration) (metadata : gmap string value) (keys : list string)
    (name : string) :
  Enabled (config rc) = false ->
  Get rc stats now key = (rc, stats, None)
  /\ SetEntry rc now now' key response ttl metadata = (rc, None)
  /\ RedisCache_Delete rc key = rc
  /\ RedisCache_Clear rc keys = rc
  /\ InvalidateByProvider unmarshal_entry rc keys name = (rc, 0)
  /\ InvalidateByModel unmarshal_entry rc keys name = (rc, 0)
  /\ InvalidateByAge unmarshal_entry rc now keys maxAge = (rc, 0)
  /\ InvalidateByPattern rc keys name = (rc, 0).
Proof.
  intros Hen.
  unfold RedisCache_Get, RedisCache_Set, RedisCache_Delete, RedisCache_Clear,
    InvalidateByProvider, InvalidateByModel, InvalidateByAge, InvalidateByPattern.
  by rewrite Hen.
Qed.

End GetFacts.

(** *** Runs on the JSON text printer *)

Lemma X21_witness :
  exists rc',
    RedisCache_Get (readKnown [entryP1]) textEntry cacheWithP1 noStats clock "k"
    = (rc', mkStats 1 0 100, Some (with_hits entryP1 1)).
Proof.
  destruct (X21_get_after_set_is_a_hit stringFromMap int64FromMap (readKnown [entryP1])
              textEntry emptyCache noStats (clock - Minute) (clock - Minute) clock "k"
              (VString "answer of p1") Hour (meta "p1" "m1")
              (match textEntry entryP1 with Ok s => s | Err _ => "" end))
    as [_ (rc' & Hget)]; [reflexivity|reflexivity|reflexivity|vm_compute; reflexivity|].
  exists rc'. exact Hget.
Defined.

Lemma X22_witness :
  kv (client (RedisCache_Get (readKnown [entryP1]) textEntry cacheWithP1 noStats clock "k").1.1)
    !! "cache:other"
  = kv (client cacheWithP1) !! "cache:other".
Proof.
  destruct (X22_get_does_not_extend_the_lifetime (readKnown [entryP1]) textEntry
              cacheWithP1
              (RedisCache_Get (readKnown [entryP1]) textEntry cacheWithP1 noStats clock "k").1.1
              noStats
              (RedisCache_Get (readKnown [entryP1]) textEntry cacheWithP1 noStats clock "k").1.2
              clock "k"
              (RedisCache_Get (readKnown [entryP1]) textEntry cacheWithP1 noStats clock "k").2)
    as (_ & Hother & _).
  - by destruct (RedisCache_Get _ _ _ _ _ _) as [[? ?] ?].
  - apply Hother. discriminate.
Defined.

Lemma X23_witness :
  (RedisCache_Get (readKnown [entryP1; entryK2]) textEntry mixedCache noStats clock "k3").2
  = None
  /\ kv (client (RedisCache_Get (readKnown [entryP1; entryK2]) textEntry mixedCache noStats
                   clock "k3").1.1) !! "cache:k3" = None.
Proof.
  destruct (X23_corrupt_entry_is_evicted (readKnown [entryP1; entryK2]) textEntry
              mixedCache noStats clock clock "k3" "{broken" "invalid character" Hour)
    as [-> _]; [reflexivity|reflexivity|reflexivity|reflexivity|].
  split; [reflexivity|]. cbn [fst client kv]. apply lookup_delete_eq.
Defined.

Lemma X24_witness :
  RedisCache_Get (readKnown [entryP1]) textEntry (RedisCache_Delete cacheWithP1 "k")
    noStats clock "k"
  = (RedisCache_Delete cacheWithP1 "k", miss noStats, None).
Proof.
  apply (X24_delete_and_clear_remove_only_what_they_are_given (readKnown [entryP1]) textEntry
           cacheWithP1 noStats clock "k" []); reflexivity.
Defined.

Lemma X25_witness :
  (InvalidateByProvider (readKnown [entryP1; entryK2]) mixedCache
     ["cache:k"; "cache:k2"; "cache:k3"] "p2").2
  = Z.of_nat (size (kv (client mixedCache)))
    - Z.of_nat (size (kv (client (InvalidateByProvider (readKnown [entryP1; entryK2])
                                    mixedCache ["cache:k"; "cache:k2"; "cache:k3"] "p2").1))).
Proof.
  destruct (X25_invalidation_removes_exactly_the_matching_entries
              (readKnown [entryP1; entryK2]) mixedCache
              ["cache:k"; "cache:k2"; "cache:k3"] "p2")
    as [(_ & _ & _ & Hcount) _]; [reflexivity|vm_compute; reflexivity|].
  exact Hcount.
Defined.

Lemma X26_witness :
  (InvalidateByAge (readKnown [entryP1; entryK2]) mixedCache clock
     ["cache:k"; "cache:k2"; "cache:k3"] (30 * Second)).2
  = Z.of_nat (size (kv (client mixedCache)))
    - Z.of_nat (size (kv (client (InvalidateByAge (readKnown [entryP1; entryK2])
                                    mixedCache clock ["cache:k"; "cache:k2"; "cache:k3"]
                                    (30 * Second)).1))).
Proof.
  destruct (X26_invalidation_by_age_removes_exactly_the_older_entries
              (readKnown [entryP1; entryK2]) mixedCache clock
              ["cache:k"; "cache:k2"; "cache:k3"] (30 * Second))
    as (_ & _ & _ & Hcount); [reflexivity|vm_compute; reflexivity|].
  exact Hcount.
Defined.

Lemma X27_witness :
  RedisCache_Get (readKnown [entryP1; entryK2]) textEntry disabledCache noStats clock "k"
  = (disabledCache, noStats, None).
Proof.
  apply (X27_disabled_cache_is_inert stringFromMap int64FromMap (readKnown [entryP1; entryK2])
           textEntry disabledCache noStats clock clock "k" VNil 0 0 ∅ [] "").
  reflexivity.
Defined.

(** The mixed server: invalidating provider p2 removes k2 and only k2; with
    a maximum age of 30 seconds the entry of p1, cached a minute ago, goes. *)
Example invalidate_samples :
  let keys := ["cache:k"; "cache:k2"; "cache:k3"] in
  let byProvider := InvalidateByProvider (readKnown [entryP1; entryK2]) mixedCache keys "p2" in
  let byAge := InvalidateByAge (readKnown [entryP1; entryK2]) mixedCache clock keys
                               (30 * Second) in
  byProvider.2 = 1
  /\ map fst (map_to_list (kv (client byProvider.1))) ≡ₚ ["cache:k"; "cache:k3"]
  /\ byAge.2 = 1
  /\ map fst (map_to_list (kv (client byAge.1))) ≡ₚ ["cache:k2"; "cache:k3"].
Proof.
  cbv zeta. split_and!.
  - vm_compute. reflexivity.
  - apply (bool_decide_unpack _). vm_compute. exact I.
  - vm_compute. reflexivity.
  - apply (bool_decide_unpack _). vm_compute. exact I.
Qed.

End CacheMore.

(* ===================================================================== *)
(** ** The lesson extractor: properties *)
(* ===================================================================== *)

Module ExtractorFacts.
Import Go Extractor.

Local Open Scope string_scope.
Local Open Scope Z_scope.
Local Open Scope list_scope.

Lemma string_length_app (s1 s2 : string) :
  String.length (s1 +:+ s2) = (String.length s1 + String.length s2)%nat.
Proof.
  induction s1 as [|a s1 IH]; [done|].
  change (String a s1 +:+ s2) with (String a (s1 +:+ s2)). cbn [String.length].
  by rewrite IH.
Qed.

Lemma substring_length_le (n : nat) (s : string) :
  (String.length (String.substring 0 n s) <= n)%nat.
Proof.
  revert s. induction n as [|n IH]; intros s.
  - destruct s; cbn; lia.
  - destruct s as [|a s]; [cbn; lia|]. cbn [String.substring String.length].
    specialize (IH s). lia.
Qed.

(** A truncation to 200 bytes never panics and gives at most 200 bytes. *)
Lemma truncateStr_200 (s : string) :
  exists t, truncateStr s 200 = Some t /\ (String.length t <= 200)%nat.
Proof.
  unfold truncateStr. destruct (Z.leb_spec (Z.of_nat (String.length s)) 200).
  - exists s. split; [done|lia].
  - cbn [Z.ltb Z.compare]. eexists. split; [reflexivity|].
    apply (substring_length_le 200).
Qed.

Lemma failureMessages_spec (actionType : string) (entries : list ActionEntry)
    (failures : list string) :
  Forall (fun m => (String.length m <= 200)%nat) failures ->
  exists failures',
    failureMessages actionType entries failures = Some failures'
    /\ length failures'
       = (length failures + length (List.filter (failed actionType) entries))%nat
    /\ Forall (fun m => (String.length m <= 200)%nat) failures'.
Proof.
  revert failures. induction entries as [|e entries IH]; intros failures Hall.
  - exists failures. cbn. split_and!; [done|lia|done].
  - cbn [failureMessages List.filter]. unfold failed at 1.
    destruct (String.eqb (ActionType e) actionType && String.eqb (Status e) "error").
    + destruct (truncateStr_200 (Message e)) as (t & -> & Ht).
      destruct (IH (failures ++ [t])) as (fs & Hfs & Hlen & Hall').
      { apply Forall_app. split; [done|]. by constructor. }
      exists fs. split_and!; [done| |done].
      rewrite Hlen, length_app. cbn [length]. lia.
    + apply IH. done.
Qed.

Lemma joined_length (l : list string) :
  Forall (fun m => (String.length m <= 200)%nat) l -> (length l <= 3)%nat ->
  (String.length (String.concat "; " l) <= 604)%nat.
Proof.
  intros Hall Hlen.
  destruct l as [|a [|b [|c [|d l]]]]; [cbn; lia| | | |cbn in Hlen; lia];
    repeat match goal with
           | H : Forall _ (_ :: _) |- _ => apply Forall_cons in H as [? H]
           end;
    cbn [String.concat]; rewrite ?string_length_app; cbn [String.length]; lia.
Qed.

Lemma repeated_failures (actionType : string) (entries : list ActionEntry) :
  exists failures,
    failureMessages actionType entries [] = Some failures
    /\ length failures = length (List.filter (failed actionType) entries)
    /\ (String.length (String.concat "; " (take (Nat.min (length failures) 3) failures))
        <= 604)%nat.
Proof.
  destruct (failureMessages_spec actionType entries [] ltac:(constructor))
    as (failures & Hf & Hlen & Hall).
  exists failures. split_and!; [done|done|].
  apply joined_length; [by apply Forall_take|]. rewrite length_take. lia.
Qed.

(** X28.  [extractBuildPatterns] and [extractTestPatterns] never panic.
    They return nothing when fewer than two entries of their action type
    have the status "error", and otherwise one lesson, whose title carries
    the number of such entries and whose detail is at most 633 bytes long,
    however many failures there were and however long their messages. *)
Theorem X28_repeated_failures_give_one_bounded_lesson (entries : list ActionEntry) :
  let builds := length (List.filter (failed "build_project") entries) in
  let tests := length (List.filter (failed "run_tests") entries) in
  ((builds < 2)%nat -> extractBuildPatterns entries = Some [])
  /\ ((2 <= builds)%nat ->
      exists d,
        extractBuildPatterns entries
        = Some [mkExtracted ("Repeated build failures (" +:+ fmt_d (Z.of_nat builds)
                             +:+ " times)") d]
        /\ (String.length d <= 633)%nat)
  /\ ((tests < 2)%nat -> extractTestPatterns entries = Some [])
  /\ ((2 <= tests)%nat ->
      exists d,
        extractTestPatterns entries
        = Some [mkExtracted ("Repeated test failures (" +:+ fmt_d (Z.of_nat tests)
                             +:+ " times)") d]
        /\ (String.length d <= 633)%nat).
Proof.
  intros builds tests. unfold extractBuildPatterns, extractTestPatterns.
  destruct (repeated_failures "build_project" entries) as (fb & -> & Hb & Hjb).
  destruct (repeated_failures "run_tests" entries) as (ft & -> & Ht & Hjt).
  fold builds in Hb. fold tests in Ht. rewrite Hb, Ht in *. split_and!.
  - intros Hlt. by rewrite (proj2 (Nat.ltb_lt _ _) Hlt).
  - intros Hge. rewrite (proj2 (Nat.ltb_ge _ _) Hge). eexists. split; [reflexivity|].
    rewrite string_length_app. cbn [String.length]. lia.
  - intros Hlt. by rewrite (proj2 (Nat.ltb_lt _ _) Hlt).
  - intros Hge. rewrite (proj2 (Nat.ltb_ge _ _) Hge). eexists. split; [reflexivity|].
    rewrite string_length_app. cbn [String.length]. lia.
Qed.

(** *** Failed edits *)

Section Edits.

Lemma editFailures_cons (path : string) (e : ActionEntry) (entries : list ActionEntry) :
  editFailures path (e :: entries)
  = (if failedEdit path e then 1 else 0) + editFailures path entries.
Proof.
  unfold editFailures. cbn [List.filter]. destruct (failedEdit path e); cbn [length]; lia.
Qed.

Lemma editFailures_nonneg (path : string) (entries : list ActionEntry) :
  0 <= editFailures path entries.
Proof. unfold editFailures. lia. Qed.

Lemma editFailures_le (path : string) (entries : list ActionEntry) :
  editFailures path entries <= Z.of_nat (length entries).
Proof.
  unfold editFailures. pose proof (List.filter_length_le (failedEdit path) entries). lia.
Qed.

(** The map after the first loop: the number of failed edits of every path
    but the empty one, and no entry for a path without failed edits. *)
Lemma countEdit_fold (entries : list ActionEntry) (m : gmap string Z) (c : string -> Z) :
  (forall p, 0 <= c p) ->
  (forall p, c p + Z.of_nat (length entries) < 2 ^ 63) ->
  (forall p, m !! p = if (c p =? 0) || String.eqb p "" then None else Some (c p)) ->
  forall p,
    fold_left countEdit entries m !! p
    = if (c p + editFailures p entries =? 0) || String.eqb p "" then None
      else Some (c p + editFailures p entries).
Proof.
  revert m c. induction entries as [|e entries IH]; intros m c Hnn Hmax Hm p.
  - cbn [fold_left]. unfold editFailures. cbn. rewrite Z.add_0_r. apply Hm.
  - cbn [fold_left].
    set (c' := fun q => c q + (if String.eqb q "" then 0
                               else if failedEdit q e then 1 else 0)).
    assert (Hstep : forall q, countEdit m e !! q
                              = if (c' q =? 0) || String.eqb q "" then None else Some (c' q)).
    { intros q. unfold countEdit, c', failedEdit.
      destruct ((String.eqb (ActionType e) "apply_patch"
                 || String.eqb (ActionType e) "edit_code") && String.eqb (Status e) "error").
      - destruct (String.eqb_spec (Path e) "") as [Hempty|Hpath]; cbn [negb andb].
        + rewrite Hm. destruct (String.eqb_spec q "") as [->|Hq].
          * by rewrite !orb_true_r.
          * rewrite Hempty. rewrite (proj2 (String.eqb_neq "" q)) by done.
            by rewrite Z.add_0_r.
        + destruct (String.eqb_spec (Path e) q) as [<-|Hne].
          * rewrite lookup_insert_eq, Hm.
            rewrite (proj2 (String.eqb_neq (Path e) "")) by done. rewrite !orb_false_r.
            pose proof (Hnn (Path e)). pose proof (Hmax (Path e)). cbn [length] in *.
            destruct (Z.eqb_spec (c (Path e)) 0) as [Hz|Hnz]; cbn [default Datatypes.id].
            -- rewrite Hz. by destruct (Z.eqb_spec (0 + 1) 0).
            -- rewrite LoopDetectorFacts.int_add_no_overflow by (unfold MaxInt; lia).
               destruct (Z.eqb_spec (c (Path e) + 1) 0); [lia|done].
          * rewrite lookup_insert_ne, Hm by done.
            destruct (String.eqb q ""); by rewrite Z.add_0_r.
      - cbn [andb]. rewrite Hm. destruct (String.eqb q ""); by rewrite Z.add_0_r. }
    rewrite (IH (countEdit m e) c').
    + rewrite editFailures_cons. unfold c'.
      destruct (String.eqb_spec p "") as [->|Hp]; [by rewrite !orb_true_r|].
      rewrite !orb_false_r.
      replace (c p + (if failedEdit p e then 1 else 0) + editFailures p entries)
        with (c p + ((if failedEdit p e then 1 else 0) + editFailures p entries)) by lia.
      done.
    + intros q. unfold c'. pose proof (Hnn q).
      destruct (String.eqb q ""); [lia|]. destruct (failedEdit q e); lia.
    + intros q. unfold c'. pose proof (Hmax q). cbn [length] in *.
      destruct (String.eqb q ""); [lia|]. destruct (failedEdit q e); lia.
    + exact Hstep.
Qed.

Lemma editLessons_fold (l : list (string * Z)) (lessons : list extractedLesson) :
  fold_left (fun lessons pc => if 2 <=? pc.2 then lessons ++ [editLesson pc.1 pc.2]
                               else lessons) l lessons
  = lessons ++ map (fun pc => editLesson pc.1 pc.2)
                   (List.filter (fun pc => 2 <=? pc.2) l).
Proof.
  revert lessons. induction l as [|pc l IH]; intros lessons.
  - cbn. by rewrite app_nil_r.
  - cbn [fold_left List.filter]. rewrite IH. destruct (2 <=? pc.2); [|done].
    cbn [map]. by rewrite <- app_assoc.
Qed.

(** X29.  For a log of fewer than 2^63 entries and every order in which the
    map of counts is ranged over, [extractEditPatterns] returns exactly one
    lesson for every non-empty path with two or more failed edits, and that
    lesson states the number of failed edits of the path; a path with fewer
    failed edits and the empty path get no lesson. *)
Theorem X29_one_lesson_per_path_with_repeated_failed_edits
    (range : gmap string Z -> list (string * Z)) (entries : list ActionEntry) :
  LoopDetector.RangeOrder range ->
  Z.of_nat (length entries) < 2 ^ 63 ->
  (forall lesson,
     lesson ∈ extractEditPatterns range entries
     <-> exists path,
           path <> "" /\ 2 <= editFailures path entries
           /\ lesson = editLesson path (editFailures path entries))
  /\ NoDup (map title (extractEditPatterns range entries)).
Proof.
  intros Hr Hlen. unfold extractEditPatterns. cbv zeta.
  set (m := fold_left countEdit entries ∅).
  assert (Hm : forall p, m !! p = if (editFailures p entries =? 0) || String.eqb p "" then None
                                  else Some (editFailures p entries)).
  { intros p. unfold m.
    rewrite (countEdit_fold entries ∅ (fun _ => 0)); [done|done|intros; lia|].
    intros q. by rewrite lookup_empty. }
  rewrite editLessons_fold. cbn [app]. split.
  - intros lesson. rewrite list_elem_of_fmap. split.
    + intros ([p c] & -> & Hin). apply list_elem_of_In, List.filter_In in Hin as [Hin Hc].
      apply list_elem_of_In in Hin. rewrite (Hr m) in Hin.
      apply elem_of_map_to_list in Hin. rewrite Hm in Hin. cbn [fst snd] in *.
      destruct (String.eqb_spec p "") as [->|Hp]; [by rewrite orb_true_r in Hin|].
      rewrite orb_false_r in Hin. destruct (_ =? 0); [done|]. injection Hin as <-.
      exists p. split_and!; [done|by apply Z.leb_le|done].
    + intros (p & Hp & Hc & ->). exists (p, editFailures p entries). split; [done|].
      apply list_elem_of_In, List.filter_In. split; [|by apply Z.leb_le].
      apply list_elem_of_In. rewrite (Hr m). apply elem_of_map_to_list. rewrite Hm.
      rewrite (proj2 (String.eqb_neq p "")) by done. rewrite orb_false_r.
      destruct (Z.eqb_spec (editFailures p entries) 0); [lia|done].
  - rewrite map_map. cbn [title editLesson].
    assert (Hnd : NoDup (map fst (List.filter (fun pc : string * Z => 2 <=? pc.2) (range m)))).
    { assert (Hkeys : NoDup (map fst (range m))).
      { rewrite (Hr m). apply NoDup_fst_map_to_list. }
      revert Hkeys. generalize (range m). intros l. induction l as [|pc l IH]; [done|].
      cbn [map List.filter]. intros [Hnotin Hl]%NoDup_cons. destruct (2 <=? pc.2); [|by apply IH].
      cbn [map]. apply NoDup_cons. split; [|by apply IH].
      intros Hin. apply Hnotin. apply list_elem_of_fmap in Hin as (pc' & -> & Hin).
      apply list_elem_of_fmap. exists pc'. split; [done|].
      by apply list_elem_of_In, List.filter_In in Hin as [?%list_elem_of_In _]. }
    revert Hnd. generalize (List.filter (fun pc : string * Z => 2 <=? pc.2) (range m)).
    intros l Hnd.
    replace (map (fun x : string * Z => "Repeated edit failures on " +:+ x.1) l)
      with (map (String.append "Repeated edit failures on ") (map fst l))
      by (by rewrite map_map).
    apply (NoDup_fmap_2 _). exact Hnd.
Qed.

End Edits.

(** *** ExtractFromLoop *)

Section LoopFacts.
Variable float32 : Type.
Variable range : gmap string Z -> list (string * Z).
Variable uuid_New : nat -> string.
Variable time_Now : nat -> Time.

Abbreviation ExtractFromLoop := (ExtractFromLoop float32 range uuid_New time_Now).
Abbreviation storeOne := (storeOne float32 uuid_New time_Now).

Lemma storeOne_lesson (e : Extractor float32) (projectID beadID : string) (i : nat)
    (l : extractedLesson) :
  lesson_of (storeOne e projectID beadID i l)
  = mkLesson (uuid_New i) projectID "conversation_insight" (title l) (detail l) beadID
             (time_Now i) 1
  /\ (embedder _ e = None ->
      exists lesson, storeOne e projectID beadID i l = CreateLesson lesson).
Proof.
  unfold Extractor.storeOne. destruct (embedder _ e) as [embed|].
  - split; [|done]. destruct (embed _) as [[|emb ?]|]; try done.
    by destruct (0 <? length emb)%nat.
  - split; [done|]. eauto.
Qed.

Lemma stored_calls (x : Extractor float32) (projectID beadID : string)
    (lessons : list extractedLesson) :
  Forall (fun c => Category (lesson_of c) = "conversation_insight"
                   /\ RelevanceScore (lesson_of c) = 1%Q
                   /\ ProjectID (lesson_of c) = projectID
                   /\ SourceBeadID (lesson_of c) = beadID)
         (imap (storeOne x projectID beadID) lessons)
  /\ (embedder _ x = None ->
      Forall (fun c => exists lesson, c = CreateLesson lesson)
             (imap (storeOne x projectID beadID) lessons))
  /\ (lessons <> [] -> imap (storeOne x projectID beadID) lessons <> []).
Proof.
  split_and!.
  - apply Forall_lookup. intros i c Hc. apply list_lookup_imap_Some in Hc as (l & _ & ->).
    destruct (storeOne_lesson x projectID beadID i l) as [-> _]. done.
  - intros Hemb. apply Forall_lookup. intros i c Hc.
    apply list_lookup_imap_Some in Hc as (l & _ & ->).
    by apply (storeOne_lesson x projectID beadID i l).
  - intros Hne Himap. apply (f_equal length) in Himap. rewrite length_imap in Himap.
    by destruct lessons.
Qed.

(** X30.  [ExtractFromLoop] never panics.  It makes no call on the store
    when the extractor or its store is nil or the log is empty.  Every
    lesson it stores has the category "conversation_insight", the relevance
    1.0 and the project and bead it was given; without an embedder it only
    calls [CreateLesson]; and when the terminal reason is "max_iterations",
    "inner_loop" or "parse_failures" (and there is a store and a log) at
    least one lesson is stored. *)
Theorem X30_extracted_lessons_are_stored_tagged
    (e : option (Extractor float32)) (projectID beadID : string)
    (entries : list ActionEntry) (terminalReason : string) :
  exists calls,
    ExtractFromLoop e projectID beadID entries terminalReason = Some calls
    /\ (e = None \/ (exists x, e = Some x /\ store _ x = false) \/ entries = [] -> calls = [])
    /\ Forall (fun c => Category (lesson_of c) = "conversation_insight"
                        /\ RelevanceScore (lesson_of c) = 1%Q
                        /\ ProjectID (lesson_of c) = projectID
                        /\ SourceBeadID (lesson_of c) = beadID) calls
    /\ (forall x, e = Some x -> embedder _ x = None ->
                  Forall (fun c => exists lesson, c = CreateLesson lesson) calls)
    /\ (forall x, e = Some x -> store _ x = true -> entries <> [] ->
                  terminalReason ∈ ["max_iterations"; "inner_loop"; "parse_failures"] ->
                  calls <> []).
Proof.
  destruct e as [x|].
  2:{ exists []. split_and!; [done|done|constructor|intros; constructor|intros ? [=]]. }
  unfold Extractor.ExtractFromLoop.
  destruct (store _ x) eqn:Hstore; cbn [negb orb].
  2:{ exists []. split_and!; [done|done|constructor|intros; constructor|].
      intros x' [= <-] Hs. by rewrite Hstore in Hs. }
  destruct entries as [|entry entries'].
  { exists []. split_and!; [done|done|constructor|intros; constructor|done]. }
  change (length (entry :: entries') =? 0)%nat with false. cbv iota.
  set (entries := entry :: entries') in *.
  destruct (repeated_failures "build_project" entries) as (fb & Hfb & _).
  destruct (repeated_failures "run_tests" entries) as (ft & Hft & _).
  unfold extractBuildPatterns, extractTestPatterns. rewrite Hfb, Hft.
  assert (Hins : terminalReason ∈ ["max_iterations"; "inner_loop"; "parse_failures"] ->
                 is_Some (extractTerminalInsight terminalReason (Z.of_nat (length entries)))).
  { intros Hreason. unfold extractTerminalInsight.
    repeat (apply elem_of_cons in Hreason as [->|Hreason]; [cbn; eauto|]).
    by apply elem_of_nil in Hreason. }
  destruct (length fb <? 2)%nat, (length ft <? 2)%nat; cbv zeta;
    (eexists; split; [reflexivity|];
     split_and!;
     [intros [?|[(x' & [= <-] & Hx)|?]]; [done|by rewrite Hstore in Hx|done]
     |apply stored_calls
     |intros x' [= <-] Hemb; by apply stored_calls
     |intros x' _ _ _ Hreason; apply stored_calls;
      destruct (Hins Hreason) as [insight ->]; intros E; apply (f_equal length) in E;
      rewrite length_app in E; cbn [length] in E; lia]).
Qed.

End LoopFacts.

(** *** Runs *)

Lemma X29_witness :
  editLesson "main.go" 2 ∈ extractEditPatterns LoopSpec.rangeBackward sampleLog.
Proof.
  apply (X29_one_lesson_per_path_with_repeated_failed_edits LoopSpec.rangeBackward sampleLog).
  - apply LoopDetectorFacts.rangeBackward_order.
  - vm_compute. reflexivity.
  - exists "main.go". split_and!; [discriminate|vm_compute; discriminate|reflexivity].
Defined.

(** The sample log: two build errors and two failed edits of main.go. *)
Example sampleLog_lessons :
  extractBuildPatterns sampleLog
  = Some [mkExtracted "Repeated build failures (2 times)"
            "Build failed multiple times: undefined: foo; undefined: bar"]
  /\ extractTestPatterns sampleLog = Some []
  /\ extractEditPatterns LoopSpec.rangeForward sampleLog
     = [editLesson "main.go" 2]
  /\ map lesson_of
       (default [] (Extractor.ExtractFromLoop Z LoopSpec.rangeForward (fun _ => "id")
                      (fun _ => 0) (Some (mkExtractor true None)) "proj" "bead-1" sampleLog
                      "inner_loop"))
     = map (fun l => mkLesson "id" "proj" "conversation_insight" (title l) (detail l)
                              "bead-1" 0 1)
           [ mkExtracted "Repeated build failures (2 times)"
               "Build failed multiple times: undefined: foo; undefined: bar";
             editLesson "main.go" 2;
             mkExtracted "Agent stuck in action loop"
               ("Agent repeated the same actions " +:+ emDash
                +:+ " needs clearer guidance or different approach") ].
Proof. split_and!; vm_compute; reflexivity. Qed.

End ExtractorFacts.
